(** * goproxy: CONNECT dispatcher, certificate signer and WebSocket detection

    A shallow embedding of [signer.go], [websocket.go] and the parts of
    [https.go] that decide the behaviour of the certificate cache, the
    leaf-certificate template, the wire messages of the CONNECT
    dispatcher and the upstream-proxy dialer.

    Go strings and byte slices are byte sequences: they are modelled by
    [string] (a list of 8-bit [ascii]).  Go maps are [gmap]s, a [nil]
    map is [None].  Go's [error] is [option string] ([None] is [nil]). *)

From Stdlib Require Import ZArith Lia Ascii String List Bool.
From stdpp Require Import base option list strings gmap sorting pretty.

Local Open Scope string_scope.
Local Open Scope list_scope.
Local Open Scope Z_scope.

(** ** Bytes and strings *)

Definition byte_of_ascii (c : ascii) : Z := Z.of_N (N_of_ascii c).
Definition ascii_of_byte (b : Z) : ascii := ascii_of_N (Z.to_N (b mod 256)).

Definition bytes_of_string (s : string) : list Z :=
  map byte_of_ascii (list_ascii_of_string s).
Definition string_of_bytes (bs : list Z) : string :=
  string_of_list_ascii (map ascii_of_byte bs).

Definition CR : ascii := ascii_of_nat 13.
Definition LF : ascii := ascii_of_nat 10.
Definition TAB : ascii := ascii_of_nat 9.
Definition CRLF : string := String CR (String LF EmptyString).

Definition error := option string.

(** ** [sort.Strings]

    Go compares strings byte by byte, which is [String.leb].  The
    order is total and antisymmetric, so the sorted permutation of a
    list is unique and any sorting algorithm models [sort.Strings]. *)

Definition str_le (s t : string) : Prop := String.leb s t = true.

#[global] Instance str_le_dec (s t : string) : Decision (str_le s t).
Proof. unfold str_le. apply _. Defined.

Definition sortStrings (l : list string) : list string := merge_sort str_le l.

(** ** [crypto/sha1] (FIPS 180-4), on 32-bit words held in [Z] *)

Module SHA1.

Definition mask32 : Z := 0xFFFFFFFF.
Definition w32 (x : Z) : Z := Z.land x mask32.
Definition add32 (x y : Z) : Z := w32 (x + y).
Definition not32 (x : Z) : Z := Z.lxor x mask32.
Definition rotl32 (n x : Z) : Z :=
    Z.lor (w32 (Z.shiftl x n)) (Z.shiftr x (32 - n)).

  (** Big-endian encodings. *)
Definition be32 (b0 b1 b2 b3 : Z) : Z :=
    Z.lor (Z.shiftl b0 24) (Z.lor (Z.shiftl b1 16) (Z.lor (Z.shiftl b2 8) b3)).
Definition bytes_of_w32 (x : Z) : list Z :=
    [Z.land (Z.shiftr x 24) 255; Z.land (Z.shiftr x 16) 255;
     Z.land (Z.shiftr x 8) 255; Z.land x 255].
Definition bytes_of_w64 (x : Z) : list Z :=
    bytes_of_w32 (Z.shiftr x 32) ++ bytes_of_w32 (w32 x).

  (** Padding: a one bit, zeros up to 56 mod 64, the bit length on 8 bytes. *)
Definition pad (msg : list Z) : list Z :=
    let len := Z.of_nat (length msg) in
    msg ++ [128] ++ repeat 0 (Z.to_nat ((55 - len) mod 64))
        ++ bytes_of_w64 (8 * len).

Fixpoint words (bs : list Z) : list Z :=
    match bs with
    | b0 :: b1 :: b2 :: b3 :: rest => be32 b0 b1 b2 b3 :: words rest
    | _ => []
    end.

Fixpoint blocks (fuel : nat) (ws : list Z) : list (list Z) :=
    match fuel, ws with
    | O, _ | _, [] => []
    | S fuel', _ => take 16 ws :: blocks fuel' (drop 16 ws)
    end.

  (** The message schedule, most recent word first. *)
Fixpoint schedule (n : nat) (rw : list Z) : list Z :=
    match n with
    | O => rw
    | S n' =>
        let x := Z.lxor (Z.lxor (nth 2 rw 0) (nth 7 rw 0))
                        (Z.lxor (nth 13 rw 0) (nth 15 rw 0)) in
        schedule n' (rotl32 1 x :: rw)
    end.

Definition f (t : nat) (b c d : Z) : Z :=
    if (t <? 20)%nat then Z.lor (Z.land b c) (Z.land (not32 b) d)
    else if (t <? 40)%nat then Z.lxor b (Z.lxor c d)
    else if (t <? 60)%nat then Z.lor (Z.land (Z.lor b c) d) (Z.land b c)
    else Z.lxor b (Z.lxor c d).

Definition K (t : nat) : Z :=
    if (t <? 20)%nat then 0x5A827999
    else if (t <? 40)%nat then 0x6ED9EBA1
    else if (t <? 60)%nat then 0x8F1BBCDC
    else 0xCA62C1D6.

Definition state : Type := Z * Z * Z * Z * Z.

Definition init : state :=
    (0x67452301, 0xEFCDAB89, 0x98BADCFE, 0x10325476, 0xC3D2E1F0).

Fixpoint rounds (t : nat) (ws : list Z) (st : state) : state :=
    match ws with
    | [] => st
    | w :: ws' =>
        let '(a, b, c, d, e) := st in
        let tmp := add32 (add32 (add32 (add32 (rotl32 5 a) (f t b c d)) e) w) (K t) in
        rounds (S t) ws' (tmp, a, rotl32 30 b, c, d)
    end.

Definition block (st : state) (ws : list Z) : state :=
    let '(h0, h1, h2, h3, h4) := st in
    let '(a, b, c, d, e) := rounds 0 (rev (schedule 64 (rev ws))) st in
    (add32 h0 a, add32 h1 b, add32 h2 c, add32 h3 d, add32 h4 e).

Definition sum (msg : list Z) : list Z :=
    let ws := words (pad msg) in
    let '(h0, h1, h2, h3, h4) := fold_left block (blocks (length ws) ws) init in
    bytes_of_w32 h0 ++ bytes_of_w32 h1 ++ bytes_of_w32 h2
      ++ bytes_of_w32 h3 ++ bytes_of_w32 h4.

  (** The streaming interface: [New], [hWrite] (Go's Write), [Sum(nil)].  The digest
      of a stream is the digest of the concatenation of its writes. *)
Definition digest : Type := list Z.
Definition New : digest := [].
Definition hWrite (h : digest) (p : list Z) : digest := h ++ p.
Definition Sum (h : digest) : list Z := sum h.

End SHA1.

(** [big.Int.SetBytes]: the unsigned big-endian reading of a byte slice. *)
Definition bigIntSetBytes (bs : list Z) : Z :=
  fold_left (fun acc b => acc * 256 + b) bs 0.

Definition hex_digit (d : Z) : ascii :=
  if d <? 10 then ascii_of_N (Z.to_N (48 + d)) else ascii_of_N (Z.to_N (87 + d)).

(** ** [time]: instants are Unix seconds (UTC) *)

Definition timeUnix (sec nsec : Z) : Z := sec.

Definition digit_of (c : ascii) : option Z :=
  let n := byte_of_ascii c in
  if (48 <=? n) && (n <=? 57) then Some (n - 48) else None.

Fixpoint number_of (acc : Z) (cs : list ascii) : option Z :=
  match cs with
  | [] => Some acc
  | c :: cs' => match digit_of c with
                | Some d => number_of (acc * 10 + d) cs'
                | None => None
                end
  end.

Definition isLeap (y : Z) : bool :=
  ((y mod 4 =? 0) && negb (y mod 100 =? 0)) || (y mod 400 =? 0).

Definition daysIn (y m : Z) : Z :=
  if m =? 2 then (if isLeap y then 29 else 28)
  else if (m =? 4) || (m =? 6) || (m =? 9) || (m =? 11) then 30 else 31.

(** Days between 1970-01-01 and the civil date [y]-[m]-[d]. *)
Definition daysFromCivil (y m d : Z) : Z :=
  let y' := if m <=? 2 then y - 1 else y in
  let era := y' / 400 in
  let yoe := y' - era * 400 in
  let doy := (153 * (if 2 <? m then m - 3 else m + 9) + 2) / 5 + d - 1 in
  let doe := yoe * 365 + yoe / 4 - yoe / 100 + doy in
  era * 146097 + doe - 719468.

(** [time.Parse("2006-01-02", value)]: a four digit year, a two digit
    month and a two digit day, each in range, at midnight UTC. *)
Definition timeParseDate (value : string) : Z + string :=
  match list_ascii_of_string value with
  | [y1; y2; y3; y4; d1; m1; m2; d2; a1; a2] =>
      match number_of 0 [y1; y2; y3; y4], number_of 0 [m1; m2], number_of 0 [a1; a2] with
      | Some y, Some m, Some d =>
          if (Ascii.eqb d1 "-") && (Ascii.eqb d2 "-")
             && (1 <=? m) && (m <=? 12) && (1 <=? d) && (d <=? daysIn y m)
          then inl (daysFromCivil y m d * 86400)
          else inr ("parsing time " +:+ value +:+ ": out of range")
      | _, _, _ => inr ("parsing time " +:+ value +:+ ": bad digits")
      end
  | _ => inr ("parsing time " +:+ value +:+ ": bad length")
  end.

(** ** Data of [crypto/x509], [crypto/rsa] and [crypto/tls] *)

Record pkixName := { CommonName : string; Organization : list string }.

Inductive x509ExtKeyUsage :=
| ExtKeyUsageAny | ExtKeyUsageServerAuth | ExtKeyUsageClientAuth | ExtKeyUsageCodeSigning.

Definition KeyUsageDigitalSignature : Z := Z.shiftl 1 0.
Definition KeyUsageContentCommitment : Z := Z.shiftl 1 1.
Definition KeyUsageKeyEncipherment : Z := Z.shiftl 1 2.

(** [net.IP] is a byte slice. *)
Definition IP : Type := list Z.

Record x509Certificate := {
  SerialNumber : Z;
  Issuer : pkixName;
  Subject : pkixName;
  NotBefore : Z;
  NotAfter : Z;
  KeyUsage : Z;
  ExtKeyUsage : list x509ExtKeyUsage;
  BasicConstraintsValid : bool;
  IPAddresses : list IP;
  DNSNames : list string
}.

Record rsaPrivateKey := { rsaPublicKey : string; rsaSecret : string }.

(** [crypto.PrivateKey] is an interface: an RSA key or a key of another
    algorithm, given by its name and material. *)
Inductive cryptoPrivateKey :=
| RSAKey (k : rsaPrivateKey)
| OtherKey (alg material : string).

(** [tls.Certificate]; its zero value has a nil chain and a nil key. *)
Record tlsCertificate := {
  Certificate : list string;
  PrivateKey : option cryptoPrivateKey
}.

Definition zeroCertificate : tlsCertificate :=
  {| Certificate := []; PrivateKey := None |}.

(** The library functions [signHost] calls.  [CounterEncryptorRand] is
    the state of the repository's deterministic random reader; the
    functions that draw from it return its next state. *)
Record CryptoEnv := {
  CounterEncryptorRand : Type;
  ParseCertificate : string -> x509Certificate + string;
  ParseIP : string -> option IP;
  runtimeVersion : string;
  NewCounterEncryptorRandFromKey :
    option cryptoPrivateKey -> list Z -> CounterEncryptorRand + string;
  GenerateKey :
    CounterEncryptorRand -> Z -> (rsaPrivateKey + string) * CounterEncryptorRand;
  CreateCertificate :
    CounterEncryptorRand -> x509Certificate -> x509Certificate -> string ->
    option cryptoPrivateKey -> (string + string) * CounterEncryptorRand
}.

(** ** signer.go *)

Definition hashSorted (lst : list string) : list Z :=
  let c := sortStrings lst in
  let h := fold_left (fun h s => SHA1.hWrite h (bytes_of_string (s +:+ ","))) c SHA1.New in
  SHA1.Sum h.

Definition hashSortedBigInt (lst : list string) : Z :=
  bigIntSetBytes (hashSorted lst).

Definition goproxySignerVersion : string := ":goroxy1".

(** The bytes [hashSorted] feeds to the digest for a list already in
    order: every element followed by a comma. *)
Definition commaTerminated (l : list string) : string :=
  fold_right (fun s acc => s +:+ "," +:+ acc) "" l.

(** 2049-12-31T00:00:00Z in Unix seconds. *)
Definition notAfter2049 : Z := daysFromCivil 2049 12 31 * 86400.

(** The package variable [hostMap]; [None] is the nil map. *)
Abbreviation hostMapT := (option (gmap string tlsCertificate)).

Inductive outcome (A : Type) :=
| Returns (a : A) (hostMap : hostMapT)
| Panics (msg : string).
Arguments Returns {A} a hostMap.
Arguments Panics {A} msg.

(** Computations over the package state that may panic. *)
Definition Signer (A : Type) : Type := hostMapT -> outcome A.

#[global] Instance Signer_ret : MRet Signer := fun A a hm => Returns a hm.
#[global] Instance Signer_bind : MBind Signer := fun A B k m hm =>
  match m hm with
  | Returns a hm' => k a hm'
  | Panics msg => Panics msg
  end.

Definition getHostMap : Signer hostMapT := fun hm => Returns hm hm.
Definition setHostMap (hm : hostMapT) : Signer unit := fun _ => Returns tt hm.
Definition panic {A} (msg : string) : Signer A := fun _ => Panics msg.

(** [s[0]] on a slice: a run-time panic when the slice is empty. *)
Definition index0 {A} (s : list A) : Signer A :=
  match s with
  | x :: _ => mret x
  | [] => panic "index out of range [0] with length 0"
  end.

Section Signer.
Context (env : CryptoEnv).

  (** Lines 40-51: the answer of the cache, if it has one. *)
Definition cacheLookup (hostMap : hostMapT) (hosts : list string)
    : option (tlsCertificate * error) :=
    match hostMap with
    | Some m =>
        match hosts with
        | [] => Some (zeroCertificate, None)
        | h0 :: _ =>
            match m !! h0 with
            | Some cachedCert => Some (cachedCert, None)
            | None => None
            end
        end
    | None => None
    end.

  (** Lines 79-86: one iteration of the loop over [hosts]. *)
Definition addHost (template : x509Certificate) (h : string) : x509Certificate :=
    match ParseIP env h with
    | Some ip =>
        {| SerialNumber := SerialNumber template; Issuer := Issuer template;
           Subject := Subject template;
           NotBefore := NotBefore template; NotAfter := NotAfter template;
           KeyUsage := KeyUsage template; ExtKeyUsage := ExtKeyUsage template;
           BasicConstraintsValid := BasicConstraintsValid template;
           IPAddresses := IPAddresses template ++ [ip];
           DNSNames := DNSNames template |}
    | None =>
        {| SerialNumber := SerialNumber template; Issuer := Issuer template;
           Subject := {| CommonName := h;
                         Organization := Organization (Subject template) |};
           NotBefore := NotBefore template; NotAfter := NotAfter template;
           KeyUsage := KeyUsage template; ExtKeyUsage := ExtKeyUsage template;
           BasicConstraintsValid := BasicConstraintsValid template;
           IPAddresses := IPAddresses template;
           DNSNames := DNSNames template ++ [h] |}
    end.

  (** Lines 62-64: the seed of the random reader and of the serial. *)
Definition signHostHash (hosts : list string) : list Z :=
    hashSorted (hosts ++ [goproxySignerVersion; ":" +:+ runtimeVersion env]).

  (** Lines 65-86: the template handed to [x509.CreateCertificate]. *)
Definition signHostTemplate (x509ca : x509Certificate) (start end_ : Z)
      (hosts : list string) : x509Certificate :=
    let serial := bigIntSetBytes (signHostHash hosts) in
    let template :=
      {| SerialNumber := serial;
         Issuer := Subject x509ca;
         Subject := {| CommonName := "";
                       Organization := ["GoProxy untrusted MITM proxy Inc"] |};
         NotBefore := start;
         NotAfter := end_;
         KeyUsage := Z.lor KeyUsageKeyEncipherment KeyUsageDigitalSignature;
         ExtKeyUsage := [ExtKeyUsageServerAuth];
         BasicConstraintsValid := true;
         IPAddresses := [];
         DNSNames := [] |} in
    fold_left addHost hosts template.

  (** Lines 104-113: store the certificate under every host. *)
Definition cacheStore (hostMap : hostMapT) (hosts : list string)
      (tlsCert : tlsCertificate) : hostMapT :=
    let m := match hostMap with Some m => m | None => ∅ end in
    Some (fold_left (fun m h => <[h := tlsCert]> m) hosts m).

Definition signHost (ca : tlsCertificate) (hosts : list string)
    : Signer (tlsCertificate * error) :=
    hostMap ← getHostMap;
    match cacheLookup hostMap hosts with
    | Some answer => mret answer
    | None =>
        ca0 ← index0 (Certificate ca);
        match ParseCertificate env ca0 with
        | inr err => mret (zeroCertificate, Some err)
        | inl x509ca =>
            let start := timeUnix 0 0 in
            match timeParseDate "2049-12-31" with
            | inr err => panic err
            | inl end_ =>
                let hash := signHostHash hosts in
                let template := signHostTemplate x509ca start end_ hosts in
                match NewCounterEncryptorRandFromKey env (PrivateKey ca) hash with
                | inr err => mret (zeroCertificate, Some err)
                | inl csprng =>
                    match GenerateKey env csprng 2048 with
                    | (inr err, _) => mret (zeroCertificate, Some err)
                    | (inl certpriv, csprng) =>
                        match CreateCertificate env csprng template x509ca
                                (rsaPublicKey certpriv) (PrivateKey ca) with
                        | (inr err, _) => mret (zeroCertificate, Some err)
                        | (inl derBytes, _) =>
                            let tlsCert :=
                              {| Certificate := [derBytes; ca0];
                                 PrivateKey := Some (RSAKey certpriv) |} in
                            hostMap ← getHostMap;
                            setHostMap (cacheStore hostMap hosts tlsCert);;
                            mret (tlsCert, None)
                        end
                    end
                end
            end
        end
    end.

End Signer.

(** What the caller of a [Signer] computation gets: the value, or the
    message of the panic. *)
Definition answer {A} (o : outcome A) : A + string :=
  match o with
  | Returns a _ => inl a
  | Panics msg => inr msg
  end.

(** [template] is what the leaf of [cert] was created from, in a call
    of [signHost] with [ca] and [hosts]. *)
Definition leafTemplate (env : CryptoEnv) (ca : tlsCertificate) (hosts : list string)
    (cert : tlsCertificate) (template : x509Certificate) : Prop :=
  exists ca0 x509ca csprng pub derBytes csprng',
    ParseCertificate env ca0 = inl x509ca /\
    template = signHostTemplate env x509ca (timeUnix 0 0) notAfter2049 hosts /\
    CreateCertificate env csprng template x509ca pub (PrivateKey ca) = (inl derBytes, csprng') /\
    Certificate cert = [derBytes; ca0].

(** [rsa.GenerateKey] as one evaluation of the program sees it.  The
    package documents that the key it returns "does not depend
    deterministically on the bytes read from rand, and may change
    between calls": before generating, the call may read one byte off
    the reader and drop it ([randutil.MaybeReadByte]).  [readByte] is a
    one-byte [Read] of the reader and [skip] tells whether the
    evaluation dropped the byte; [GenerateKey env] is the generation
    proper. *)
Definition maybeReadByte {R : Type} (readByte : R -> R) (skip : bool) (r : R) : R :=
  if skip then readByte r else r.

Definition inEvaluation (env : CryptoEnv)
    (readByte : CounterEncryptorRand env -> CounterEncryptorRand env) (skip : bool)
  : CryptoEnv :=
  {| CounterEncryptorRand := CounterEncryptorRand env;
     ParseCertificate := ParseCertificate env;
     ParseIP := ParseIP env;
     runtimeVersion := runtimeVersion env;
     NewCounterEncryptorRandFromKey := NewCounterEncryptorRandFromKey env;
     GenerateKey := fun r bits => GenerateKey env (maybeReadByte readByte skip r) bits;
     CreateCertificate := CreateCertificate env |}.

(** The hash input as the specification words it: the host names in
    order, then the version tag, then the runtime version tag. *)
Definition specHashList (env : CryptoEnv) (hosts : list string) : list string :=
  sortStrings hosts ++ [goproxySignerVersion; ":" +:+ runtimeVersion env].

(** The serial the specification describes, with the elements written
    to the digest as the code writes them (each followed by a comma). *)
Definition specSerial (env : CryptoEnv) (hosts : list string) : Z :=
  bigIntSetBytes (SHA1.sum (bytes_of_string (commaTerminated (specHashList env hosts)))).

(** The same with the elements written back to back. *)
Definition specSerialPlain (env : CryptoEnv) (hosts : list string) : Z :=
  bigIntSetBytes (SHA1.sum (bytes_of_string (fold_right append "" (specHashList env hosts)))).

(** ** [strings] *)

(** [strings.Split(s, sep)] for a one-byte separator. *)
Fixpoint stringsSplit (s : string) (sep : ascii) : list string :=
  match s with
  | EmptyString => [""]
  | String c s' =>
      if Ascii.eqb c sep then "" :: stringsSplit s' sep
      else match stringsSplit s' sep with
           | t :: ts => String c t :: ts
           | [] => [String c ""]
           end
  end.

Fixpoint stringsHasPrefix (s p : string) : bool :=
  match p, s with
  | EmptyString, _ => true
  | String a p', String b s' => Ascii.eqb a b && stringsHasPrefix s' p'
  | String _ _, EmptyString => false
  end.

Fixpoint stringsContains (s substr : string) : bool :=
  stringsHasPrefix s substr ||
  match s with
  | EmptyString => false
  | String _ s' => stringsContains s' substr
  end.

(** [strings.IndexRune(s, r)] for a rune below 0x80: the index of the
    first byte equal to [r], or -1. *)
Fixpoint stringsIndexRune (s : string) (r : ascii) : Z :=
  match s with
  | EmptyString => -1
  | String c s' =>
      if Ascii.eqb c r then 0
      else let ix := stringsIndexRune s' r in
           if ix =? -1 then -1 else ix + 1
  end.

(** The slice expression [s[:ix]]. *)
Definition sliceTo (s : string) (ix : Z) : string := String.substring 0 (Z.to_nat ix) s.
(** The slice expression [s[ix:]]. *)
Definition sliceFrom (s : string) (ix : Z) : string :=
  String.substring (Z.to_nat ix) (String.length s - Z.to_nat ix) s.

(** [strconv.Itoa]. *)
Definition strconvItoa (i : Z) : string := pretty i.

(** ASCII instances of [strings.TrimSpace] and [strings.EqualFold],
    exact on ASCII strings. *)
Definition isAsciiSpace (c : ascii) : bool :=
  let n := byte_of_ascii c in
  (n =? 32) || ((9 <=? n) && (n <=? 13)).

Fixpoint trimLeft (s : string) : string :=
  match s with
  | String c s' => if isAsciiSpace c then trimLeft s' else s
  | EmptyString => EmptyString
  end.

Fixpoint trimRight (s : string) : string :=
  match s with
  | EmptyString => EmptyString
  | String c s' =>
      match trimRight s' with
      | EmptyString => if isAsciiSpace c then EmptyString else String c EmptyString
      | t => String c t
      end
  end.

Definition asciiTrimSpace (s : string) : string := trimRight (trimLeft s).

Definition asciiLower (c : ascii) : ascii :=
  let n := byte_of_ascii c in
  if (65 <=? n) && (n <=? 90) then ascii_of_byte (n + 32) else c.

Fixpoint asciiEqualFold (s t : string) : bool :=
  match s, t with
  | EmptyString, EmptyString => true
  | String a s', String b t' => Ascii.eqb (asciiLower a) (asciiLower b) && asciiEqualFold s' t'
  | _, _ => false
  end.

(** ** [net/http] data *)

(** [http.Header]: a map from header names to their values. *)
Abbreviation Header := (gmap string (list string)).

Record httpRequest := {
  Method : string;
  ReqHeader : Header;
  ReqHost : string;
  URLHost : string;
  URLOpaque : string
}.

(** ** websocket.go *)

Section WebSocket.
(** [strings.TrimSpace] and [strings.EqualFold] work on Unicode text;
    the detection is stated for any such pair of functions. *)
Variable TrimSpace : string -> string.
Variable EqualFold : string -> string -> bool.

(** The inner loop of [headerContains], over the pieces of one value. *)
Fixpoint headerContainsPieces (value : string) (pieces : list string) : bool :=
  match pieces with
  | [] => false
  | s :: pieces' =>
      if EqualFold value (TrimSpace s) then true
      else headerContainsPieces value pieces'
  end.

(** The outer loop, over the values of the header. *)
Fixpoint headerContainsValues (value : string) (values : list string) : bool :=
  match values with
  | [] => false
  | v :: values' =>
      if headerContainsPieces value (stringsSplit v ",") then true
      else headerContainsValues value values'
  end.

(** [header[name]] is nil, hence an empty loop, when the key is absent. *)
Definition headerContains (header : Header) (name value : string) : bool :=
  headerContainsValues value (default [] (header !! name)).

Definition isWebSocketRequest (r : httpRequest) : bool :=
  if stringsContains (Method r) "RDG" then false
  else headerContains (ReqHeader r) "Connection" "upgrade" &&
       headerContains (ReqHeader r) "Upgrade" "websocket".

End WebSocket.

(** [sub] occurs in [s]. *)
Definition hasSubstring (s sub : string) : Prop :=
  exists pre post, s = pre +:+ sub +:+ post.

(** The header [name] contains the token [value]: one of its values,
    split on commas, has a piece that equals [value] once trimmed, up
    to case. *)
Definition headerHasToken (TrimSpace : string -> string)
    (EqualFold : string -> string -> bool)
    (header : Header) (name value : string) : Prop :=
  exists v s, v ∈ default [] (header !! name) /\
              s ∈ stringsSplit v "," /\
              EqualFold value (TrimSpace s) = true.

(** [strings.Join]. *)
Fixpoint stringsJoin (pieces : list string) (sep : string) : string :=
  match pieces with
  | [] => ""
  | [s] => s
  | s :: pieces' => s +:+ sep +:+ stringsJoin pieces' sep
  end.

(** ** Connections and readers *)

(** A [net.Conn] as seen from the proxy: the bytes it accepted, whether
    it was closed, how many more writes the peer accepts ([None]: any
    number) and whether it offers [CloseWrite]/[CloseRead]. *)
Record Conn := {
  sent : string;
  closed : bool;
  quota : option nat;
  halfClosable : bool
}.

Definition connWritable (c : Conn) : bool :=
  negb (closed c) && match quota c with Some O => false | _ => true end.

(** [c.Write(data)] and [io.WriteString(c, data)]. *)
Definition connWrite (c : Conn) (data : string) : Conn * error :=
  if connWritable c then
    ({| sent := sent c +:+ data; closed := closed c;
        quota := Nat.pred <$> quota c; halfClosable := halfClosable c |}, None)
  else (c, Some (if closed c then "use of closed network connection" else "broken pipe")).

Definition connClose (c : Conn) : Conn * error :=
  ({| sent := sent c; closed := true; quota := quota c; halfClosable := halfClosable c |},
   if closed c then Some "use of closed network connection" else None).

(** What successive [Read]s on an [io.Reader] deliver; the end of the
    list is [io.EOF]. *)
Inductive readEvent :=
| ReadData (data : string)
| ReadErr (err : string).

Abbreviation Reader := (list readEvent).

(** [io.LimitReader(r, n)]: at most [n] bytes of [r], then [io.EOF]
    without reading [r] any further. *)
Fixpoint ioLimitReader (r : Reader) (n : nat) : Reader :=
  match n with
  | O => []
  | S _ =>
      match r with
      | [] => []
      | ReadErr e :: _ => [ReadErr e]
      | ReadData d :: r' =>
          if (n <=? String.length d)%nat then [ReadData (String.substring 0 n d)]
          else ReadData d :: ioLimitReader r' (n - String.length d)
      end
  end.

(** [ioutil.ReadAll(r)]: the bytes read and the first error other than
    [io.EOF]. *)
Fixpoint ioutilReadAll (r : Reader) : string * error :=
  match r with
  | [] => ("", None)
  | ReadErr e :: _ => ("", Some e)
  | ReadData d :: r' => let '(rest, err) := ioutilReadAll r' in (d +:+ rest, err)
  end.

Record httpResponse := {
  Status : string;
  StatusCode : Z;
  Proto : string;
  RespHeader : Header;
  Body : Reader
}.

(** ** https.go *)

Inductive ConnectActionLiteral :=
| ConnectAccept
| ConnectReject
| ConnectMitm
| ConnectHijack
| ConnectHTTPMitm
| ConnectProxyAuthHijack.

Definition stripPort (s : string) : string :=
  let ix := stringsIndexRune s ":" in
  if ix =? -1 then s else sliceTo s ix.

(** The part of [s] before the first byte [sep], all of [s] when there
    is none. *)
Fixpoint prefixBefore (sep : ascii) (s : string) : string :=
  match s with
  | EmptyString => EmptyString
  | String c s' => if Ascii.eqb c sep then EmptyString else String c (prefixBefore sep s')
  end.

(** [fmt.Sprintf] of line 449 followed by the write and the close. *)
Definition httpErrorMessage (err : string) : string :=
  "HTTP/1.1 500 Server error" +:+ CRLF +:+ CRLF +:+ err +:+ CRLF.

Definition httpError (w : Conn) (err : string) : Conn :=
  let msg := httpErrorMessage err in
  let '(w, _) := connWrite w msg in
  let '(w, _) := connClose w in
  w.

(** A dial function: the connection or the error of [Dial(network, addr)]. *)
Abbreviation Dialer := (string -> string -> Conn + string).

Record ConnectAction := {
  Action : ConnectActionLiteral;
  (** [Hijack] takes the client connection over; its result is the
      state it leaves the connection in. *)
  Hijack : httpRequest -> Conn -> Conn
}.

(** A CONNECT handler: [None] is the nil action. *)
Abbreviation HttpsHandler := (string -> option (ConnectAction * string)).

Record ProxyHttpServer := {
  httpsHandlers : list HttpsHandler;
  ConnectDial : option Dialer;
  TrDial : option Dialer
}.

(** Where [handleHttps] leaves the hijacked connection. *)
Inductive connectOutcome :=
| ConnectClosed (proxyClient : Conn)
| ConnectTunnel (host : string) (proxyClient targetSiteCon : Conn) (halfClose : bool)
| ConnectHijacked (host : string) (proxyClient : Conn)
| ConnectHTTPMitmLoop (host : string) (proxyClient : Conn)
| ConnectMitmTask (host : string) (proxyClient : Conn).

Section Dispatcher.
(** [net.Dial] and the package variable [hasPort] (declared outside
    these sources: a regular expression for a trailing port). *)
Variable netDial : Dialer.
Variable hasPort : string -> bool.

Definition dial (proxy : ProxyHttpServer) (network addr : string) : Conn + string :=
  match TrDial proxy with
  | Some d => d network addr
  | None => netDial network addr
  end.

Definition connectDial (proxy : ProxyHttpServer) (network addr : string) : Conn + string :=
  match ConnectDial proxy with
  | None => dial proxy network addr
  | Some d => d network addr
  end.

(** Lines 92-102: the first handler with a non-nil action decides. *)
Fixpoint runHttpsHandlers (handlers : list HttpsHandler) (todo : ConnectAction)
    (host : string) : ConnectAction * string :=
  match handlers with
  | [] => (todo, host)
  | h :: handlers' =>
      match h host with
      | Some (newtodo, newhost) => (newtodo, newhost)
      | None => runHttpsHandlers handlers' todo host
      end
  end.

(** [handleHttps] from the hijacked connection on.  [OkConnect] is the
    default action and [ctxResp] the wire form of the response a handler
    left in the context, if any.  The two MITM modes are followed up to
    their first write; their loops are separate functions. *)
Definition handleHttps (proxy : ProxyHttpServer) (OkConnect : ConnectAction)
    (ctxResp : option string) (r : httpRequest) (proxyClient : Conn) : connectOutcome :=
  let '(todo, host) := runHttpsHandlers (httpsHandlers proxy) OkConnect (URLHost r) in
  match Action todo with
  | ConnectAccept =>
      let host := if hasPort host then host else host +:+ ":80" in
      match connectDial proxy "tcp" host with
      | inr err => ConnectClosed (httpError proxyClient err)
      | inl targetSiteCon =>
          let '(proxyClient, _) := connWrite proxyClient ("HTTP/1.1 200 OK" +:+ CRLF +:+ CRLF) in
          ConnectTunnel host proxyClient targetSiteCon
            (halfClosable targetSiteCon && halfClosable proxyClient)
      end
  | ConnectHijack =>
      let '(proxyClient, _) := connWrite proxyClient ("HTTP/1.0 200 OK" +:+ CRLF +:+ CRLF) in
      ConnectHijacked host (Hijack todo r proxyClient)
  | ConnectHTTPMitm =>
      let '(proxyClient, _) := connWrite proxyClient ("HTTP/1.0 200 OK" +:+ CRLF +:+ CRLF) in
      ConnectHTTPMitmLoop host proxyClient
  | ConnectMitm =>
      let '(proxyClient, _) := connWrite proxyClient ("HTTP/1.0 200 OK" +:+ CRLF +:+ CRLF) in
      ConnectMitmTask host proxyClient
  | ConnectProxyAuthHijack =>
      let '(proxyClient, _) :=
        connWrite proxyClient ("HTTP/1.1 407 Proxy Authentication Required" +:+ CRLF) in
      ConnectHijacked host (Hijack todo r proxyClient)
  | ConnectReject =>
      let proxyClient :=
        match ctxResp with
        | Some wire => fst (connWrite proxyClient wire)
        | None => proxyClient
        end in
      ConnectClosed (fst (connClose proxyClient))
  end.

End Dispatcher.

(** ** The response writer of the MITM loop (https.go, lines 349-388) *)

(** [textproto.CanonicalMIMEHeaderKey]. *)
Definition validHeaderFieldByte (c : ascii) : bool :=
  let n := byte_of_ascii c in
  ((48 <=? n) && (n <=? 57)) || ((65 <=? n) && (n <=? 90)) || ((97 <=? n) && (n <=? 122))
  || existsb (Ascii.eqb c) (list_ascii_of_string "!#$%&'*+-.^_`|~").

Fixpoint canonicalCase (upper : bool) (s : string) : string :=
  match s with
  | EmptyString => EmptyString
  | String c s' =>
      let n := byte_of_ascii c in
      let c' := if upper && (97 <=? n) && (n <=? 122) then ascii_of_byte (n - 32)
                else if negb upper && (65 <=? n) && (n <=? 90) then ascii_of_byte (n + 32)
                else c in
      String c' (canonicalCase (Ascii.eqb c' "-") s')
  end.

Definition CanonicalMIMEHeaderKey (s : string) : string :=
  if forallb validHeaderFieldByte (list_ascii_of_string s) then canonicalCase true s else s.

Definition headerDel (h : Header) (key : string) : Header :=
  delete (CanonicalMIMEHeaderKey key) h.

Definition headerSet (h : Header) (key value : string) : Header :=
  <[CanonicalMIMEHeaderKey key := [value]]> h.

(** [strconv.FormatInt(n, 16)] for a non-negative [n]. *)
Fixpoint hexDigits (fuel : nat) (n : Z) (acc : string) : string :=
  match fuel with
  | O => acc
  | S fuel' =>
      let acc := String (hex_digit (n mod 16)) acc in
      if n / 16 =? 0 then acc else hexDigits fuel' (n / 16) acc
  end.

Definition formatHex (n : Z) : string := hexDigits (S (Z.to_nat (Z.log2 n))) n "".

(** Modelled from the spec: [newChunkedWriter] (chunked.go is not among
    these sources).  The body is "framed as chunked": every non-empty
    write becomes the length in hexadecimal, CRLF, the data, CRLF; the
    writer is closed by the zero-length chunk line. *)
Definition chunkedWrite (wire : Conn) (data : string) : Conn * Z * error :=
  if String.eqb data "" then (wire, 0, None)
  else
    let head := formatHex (Z.of_nat (String.length data)) +:+ CRLF in
    match connWrite wire head with
    | (wire, Some err) => (wire, 0, Some err)
    | (wire, None) =>
        match connWrite wire data with
        | (wire, Some err) => (wire, 0, Some err)
        | (wire, None) =>
            let '(wire, err) := connWrite wire CRLF in
            (wire, Z.of_nat (String.length data), err)
        end
    end.

Definition chunkedClose (wire : Conn) : Conn * error :=
  connWrite wire ("0" +:+ CRLF).

(** [io.Copy(chunked, src)]: the connection, what is left of the
    reader, the number of bytes written and the error. *)
Fixpoint ioCopyChunked (wire : Conn) (src : Reader) (written : Z)
  : Conn * Reader * Z * error :=
  match src with
  | [] => (wire, [], written, None)
  | ReadErr e :: src' => (wire, src', written, Some e)
  | ReadData d :: src' =>
      if String.eqb d "" then ioCopyChunked wire src' written
      else
        match chunkedWrite wire d with
        | (wire, nw, Some ew) => (wire, src', written + nw, Some ew)
        | (wire, nw, None) => ioCopyChunked wire src' (written + nw)
        end
  end.

(** Lines 375-380: copy again as long as the last copy wrote something.
    [None] when the fuel runs out before the loop ends. *)
Fixpoint copyBodyLoop (fuel : nat) (wire : Conn) (body : Reader) : option (Conn * Reader) :=
  match fuel with
  | O => None
  | S fuel' =>
      let '(wire, body, written, _) := ioCopyChunked wire body 0 in
      if 0 <? written then copyBodyLoop fuel' wire body else Some (wire, body)
  end.

Inductive loopStep :=
| NextRequest
| ReturnFromTask.

Section MitmResponse.
(** The strings [Header.Write] hands to the connection, in order. *)
Variable headerWrite : Header -> list string.

(** [resp.Header.Write(w)]: stop at the first failed write. *)
Fixpoint writeStrings (w : Conn) (pieces : list string) : Conn * error :=
  match pieces with
  | [] => (w, None)
  | s :: pieces' =>
      match connWrite w s with
      | (w, Some err) => (w, Some err)
      | (w, None) => writeStrings w pieces'
      end
  end.

(** The status line of line 356. *)
Definition statusLine (resp : httpResponse) : string :=
  let text := Status resp in
  let statusCode := strconvItoa (StatusCode resp) +:+ " " in
  let text := if stringsHasPrefix text statusCode
              then sliceFrom text (Z.of_nat (String.length statusCode)) else text in
  "HTTP/1.1" +:+ " " +:+ statusCode +:+ text +:+ CRLF.

(** The header after lines 362-363. *)
Definition chunkedHeader (h : Header) : Header :=
  headerSet (headerDel h "Content-Length") "Transfer-Encoding" "chunked".

Definition writeResponse (rawClientTls : Conn) (resp : httpResponse)
  : Conn * Reader * loopStep :=
  match connWrite rawClientTls (statusLine resp) with
  | (w, Some _) => (w, Body resp, ReturnFromTask)
  | (w, None) =>
      let header := chunkedHeader (RespHeader resp) in
      match writeStrings w (headerWrite header) with
      | (w, Some _) => (w, Body resp, ReturnFromTask)
      | (w, None) =>
          match connWrite w CRLF with
          | (w, Some _) => (w, Body resp, ReturnFromTask)
          | (w, None) =>
              (* every pass that wrote something consumed part of the body,
                 so the loop ends within this fuel: the [None] case is dead *)
              match copyBodyLoop (S (length (Body resp))) w (Body resp) with
              | None => (w, Body resp, ReturnFromTask)
              | Some (w, body) =>
                  match chunkedClose w with
                  | (w, Some _) => (w, body, ReturnFromTask)
                  | (w, None) =>
                      match connWrite w CRLF with
                      | (w, Some _) => (w, body, ReturnFromTask)
                      | (w, None) => (w, body, NextRequest)
                      end
                  end
              end
          end
      end
  end.

End MitmResponse.

(** ** The upstream-proxy dialer (https.go, lines 489-576) *)

Record URL := { Scheme : string; Host : string }.

(** What a dial through the upstream proxy returns, together with the
    final state of the connection [c] to the proxy once it was opened. *)
Record dialOutcome := {
  dialConn : option Conn;
  dialErr : error;
  proxyConn : option Conn
}.

Section ConnectDialToProxy.
Variable netDial : Dialer.
(** [url.Parse], the wire form written by [Request.Write], the answer
    [http.ReadResponse] reads from the connection, and [tls.Client]. *)
Variable urlParse : string -> URL + string.
Variable requestWrite : httpRequest -> string.
Variable httpReadResponse : Conn -> httpRequest -> httpResponse + string.
Variable tlsClient : Conn -> Conn.
Variable proxy : ProxyHttpServer.

Definition newConnectReq (connectReqHandler : option (httpRequest -> httpRequest))
    (addr : string) : httpRequest :=
  let connectReq :=
    {| Method := "CONNECT"; ReqHeader := ∅; ReqHost := addr;
       URLHost := ""; URLOpaque := addr |} in
  match connectReqHandler with
  | Some handler => handler connectReq
  | None => connectReq
  end.

(** Lines 498-532: the dial function for an [http] proxy. *)
Definition connectDialHTTP (u : URL)
    (connectReqHandler : option (httpRequest -> httpRequest))
    (network addr : string) : dialOutcome :=
  let connectReq := newConnectReq connectReqHandler addr in
  match dial netDial proxy network (Host u) with
  | inr err => {| dialConn := None; dialErr := Some err; proxyConn := None |}
  | inl c =>
      let '(c, _) := connWrite c (requestWrite connectReq) in
      match httpReadResponse c connectReq with
      | inr err =>
          let '(c, _) := connClose c in
          {| dialConn := None; dialErr := Some err; proxyConn := Some c |}
      | inl resp =>
          if negb (StatusCode resp =? 200) then
            match ioutilReadAll (Body resp) with
            | (_, Some err) =>
                {| dialConn := None; dialErr := Some err; proxyConn := Some c |}
            | (resp, None) =>
                let '(c, _) := connClose c in
                {| dialConn := None;
                   dialErr := Some ("proxy refused connection" +:+ resp);
                   proxyConn := Some c |}
            end
          else {| dialConn := Some c; dialErr := None; proxyConn := Some c |}
      end
  end.

(** Lines 538-573: the dial function for an [https] or [wss] proxy. *)
Definition connectDialTLS (u : URL)
    (connectReqHandler : option (httpRequest -> httpRequest))
    (network addr : string) : dialOutcome :=
  match dial netDial proxy network (Host u) with
  | inr err => {| dialConn := None; dialErr := Some err; proxyConn := None |}
  | inl c =>
      let c := tlsClient c in
      let connectReq := newConnectReq connectReqHandler addr in
      let '(c, _) := connWrite c (requestWrite connectReq) in
      match httpReadResponse c connectReq with
      | inr err =>
          let '(c, _) := connClose c in
          {| dialConn := None; dialErr := Some err; proxyConn := Some c |}
      | inl resp =>
          if negb (StatusCode resp =? 200) then
            match ioutilReadAll (ioLimitReader (Body resp) 500) with
            | (_, Some err) =>
                {| dialConn := None; dialErr := Some err; proxyConn := Some c |}
            | (body, None) =>
                let '(c, _) := connClose c in
                {| dialConn := None;
                   dialErr := Some ("proxy refused connection" +:+ body);
                   proxyConn := Some c |}
            end
          else {| dialConn := Some c; dialErr := None; proxyConn := Some c |}
      end
  end.

Definition withDefaultPort (u : URL) (port : string) : URL :=
  if stringsIndexRune (Host u) ":" =? -1
  then {| Scheme := Scheme u; Host := Host u +:+ port |} else u.

(** [None] is the nil dial function. *)
Definition NewConnectDialToProxyWithHandler (https_proxy : string)
    (connectReqHandler : option (httpRequest -> httpRequest))
  : option (string -> string -> dialOutcome) :=
  match urlParse https_proxy with
  | inr _ => None
  | inl u =>
      if String.eqb (Scheme u) "" || String.eqb (Scheme u) "http" then
        Some (connectDialHTTP (withDefaultPort u ":80") connectReqHandler)
      else if String.eqb (Scheme u) "https" || String.eqb (Scheme u) "wss" then
        Some (connectDialTLS (withDefaultPort u ":443") connectReqHandler)
      else None
  end.

Definition NewConnectDialToProxy (https_proxy : string)
  : option (string -> string -> dialOutcome) :=
  NewConnectDialToProxyWithHandler https_proxy None.

End ConnectDialToProxy.

(** ** [TLSConfigFromCA] (https.go, lines 578-605) *)

Record tlsConfig := {
  ServerName : string;
  Certificates : list tlsCertificate;
  NextProtos : list string
}.

(** [ctx.certStore]: [None] is the nil interface; otherwise its [Fetch]. *)
Record ProxyCtx := {
  certStore :
    option (string -> Signer (tlsCertificate * error) -> Signer (tlsCertificate * error))
}.

Section TLSConfig.
Context (env : CryptoEnv).
(** The package variable [defaultTLSConfig], declared outside these sources. *)
Variable defaultTLSConfig : tlsConfig.

Definition TLSConfigFromCA (ca : tlsCertificate) (host : string) (ctx : ProxyCtx)
  : Signer (option tlsConfig * error) :=
  let hostname := stripPort host in
  let config := defaultTLSConfig in
  let genCert := signHost env ca [hostname] in
  '(cert, err) ← match certStore ctx with
                 | Some fetch => fetch hostname genCert
                 | None => genCert
                 end;
  match err with
  | Some err => mret (None, Some err)
  | None =>
      mret (Some {| ServerName := hostname;
                    Certificates := Certificates config ++ [cert];
                    NextProtos := NextProtos config |}, None)
  end.

End TLSConfig.

(** ** An executable instance of the library functions, for examples *)

Definition parseOctet (s : string) : option Z :=
  let cs := list_ascii_of_string s in
  match cs with
  | [] => None
  | c :: rest =>
      if (3 <? length cs)%nat then None
      else if Ascii.eqb c "0" && negb (length rest =? 0)%nat then None
      else match number_of 0 cs with
           | Some n => if n <=? 255 then Some n else None
           | None => None
           end
  end.

(** Dotted-quad IPv4 literals, in the 16-byte form of [net.ParseIP]. *)
Definition parseIPv4 (s : string) : option IP :=
  match stringsSplit s "." with
  | [a; b; c; d] =>
      match parseOctet a, parseOctet b, parseOctet c, parseOctet d with
      | Some a, Some b, Some c, Some d =>
          Some [0; 0; 0; 0; 0; 0; 0; 0; 0; 0; 255; 255; a; b; c; d]
      | _, _, _, _ => None
      end
  | _ => None
  end.

Definition exampleEnv : CryptoEnv := {|
  CounterEncryptorRand := list Z * Z;
  ParseCertificate := fun der =>
    if String.eqb der "" then inr "x509: malformed certificate"
    else inl {| SerialNumber := 1;
                Issuer := {| CommonName := der; Organization := [] |};
                Subject := {| CommonName := der; Organization := [] |};
                NotBefore := 0; NotAfter := 0; KeyUsage := 0; ExtKeyUsage := [];
                BasicConstraintsValid := true; IPAddresses := []; DNSNames := [] |};
  ParseIP := parseIPv4;
  runtimeVersion := "go1.21.0";
  NewCounterEncryptorRandFromKey := fun key seed =>
    match key with
    | Some (RSAKey k) => inl (bytes_of_string (rsaSecret k) ++ seed, 0)
    | _ => inr "only RSA and ECDSA keys supported"
    end;
  GenerateKey := fun r bits =>
    let '(seed, pos) := r in
    let n := bigIntSetBytes seed + pos in
    (inl {| rsaPublicKey := "pub" +:+ pretty n; rsaSecret := "sec" +:+ pretty n |},
     (seed, pos + bits / 8));
  CreateCertificate := fun r template parent pub priv =>
    let '(seed, pos) := r in
    (inl ("leaf:" +:+ pretty (SerialNumber template) +:+ ":"
            +:+ CommonName (Subject template) +:+ ":" +:+ pub),
     (seed, pos + 1))
|}.

Definition exampleCA : tlsCertificate :=
  {| Certificate := ["GoProxy CA"];
     PrivateKey := Some (RSAKey {| rsaPublicKey := "ca-public"; rsaSecret := "ca-secret" |}) |}.

(** A one-byte [Read] of the example reader. *)
Definition exampleReadByte (r : CounterEncryptorRand exampleEnv)
  : CounterEncryptorRand exampleEnv :=
  (fst r, snd r + 1).

(** A trailing colon and digits, as the regular expression [:\d+$]. *)
Fixpoint exampleHasPort (s : string) : bool :=
  match s with
  | EmptyString => false
  | String c s' =>
      (Ascii.eqb c ":" && negb (String.eqb s' "")
         && forallb (fun d => match digit_of d with Some _ => true | None => false end)
                    (list_ascii_of_string s'))
      || exampleHasPort s'
  end.

(** Sorted keys, one [key: value] line per value. *)
Definition exampleHeaderWrite (h : Header) : list string :=
  flat_map (fun kv => map (fun v => fst kv +:+ ": " +:+ v +:+ CRLF) (snd kv))
    (merge_sort (fun a b => str_le (fst a) (fst b)) (map_to_list h)).

Definition freshConn : Conn :=
  {| sent := ""; closed := false; quota := None; halfClosable := true |}.

(** A network in which only [example.com:80] answers. *)
Definition exampleNetDial : Dialer := fun network addr =>
  if String.eqb addr "example.com:80" then inl freshConn
  else inr ("dial tcp " +:+ addr +:+ ": connection refused").

Definition exampleProxy : ProxyHttpServer :=
  {| httpsHandlers := []; ConnectDial := None; TrDial := None |}.

Definition exampleOkConnect : ConnectAction :=
  {| Action := ConnectAccept; Hijack := fun _ c => c |}.

(** An upstream proxy that answers every CONNECT with [resp]. *)
Definition exampleUpstreamDial : Dialer := fun network addr => inl freshConn.

Definition exampleRequestWrite (r : httpRequest) : string :=
  Method r +:+ " " +:+ URLOpaque r +:+ " HTTP/1.1" +:+ CRLF
    +:+ "Host: " +:+ ReqHost r +:+ CRLF +:+ CRLF.

Definition exampleReadResponse (resp : httpResponse)
  : Conn -> httpRequest -> httpResponse + string := fun _ _ => inl resp.

Definition exampleURL : URL := {| Scheme := "http"; Host := "proxy.example:3128" |}.

(** A connection that is open and accepts every write. *)
Definition healthy (w : Conn) : Prop := closed w = false /\ quota w = None.

Definition appendSent (w : Conn) (data : string) : Conn :=
  {| sent := sent w +:+ data; closed := closed w; quota := quota w;
     halfClosable := halfClosable w |}.

(** Chunked framing of what a reader delivers: each non-empty piece of
    data is one chunk. *)
Definition chunkFrame (d : string) : string :=
  if String.eqb d "" then ""
  else formatHex (Z.of_nat (String.length d)) +:+ CRLF +:+ d +:+ CRLF.

Fixpoint chunkFrames (r : Reader) : string :=
  match r with
  | [] => ""
  | ReadData d :: r' => chunkFrame d +:+ chunkFrames r'
  | ReadErr _ :: r' => chunkFrames r'
  end.

(** An origin answer over HTTP/1.0 with a [Content-Length]. *)
Definition exampleResponse : httpResponse :=
  {| Status := "200 OK"; StatusCode := 200; Proto := "HTTP/1.0";
     RespHeader := <["Content-Length" := ["2"]]> (<["X-Origin" := ["a.b"]]> ∅);
     Body := [ReadData "hi"] |}.

(** A 407 whose body arrives whole, and one whose body breaks off. *)
Definition example407 : httpResponse :=
  {| Status := "407 Proxy Authentication Required"; StatusCode := 407;
     Proto := "HTTP/1.1"; RespHeader := ∅;
     Body := [ReadData "auth "; ReadData "required"] |}.

Definition example407Broken : httpResponse :=
  {| Status := "407 Proxy Authentication Required"; StatusCode := 407;
     Proto := "HTTP/1.1"; RespHeader := ∅;
     Body := [ReadData "auth "; ReadErr "unexpected EOF"] |}.

(** [b] is the body read in full when [tls] is false, cut at 500 bytes
    when it is true. *)
Definition refusedBody (tls : bool) (resp : httpResponse) : string * error :=
  ioutilReadAll (if tls then ioLimitReader (Body resp) 500 else Body resp).

(** An upgrade request as a browser sends it. *)
Definition exampleUpgrade (method : string) : httpRequest :=
  {| Method := method;
     ReqHeader := <["Connection" := ["keep-alive, Upgrade"]]>
                    (<["Upgrade" := ["WebSocket"]]> ∅);
     ReqHost := "a.b"; URLHost := "a.b"; URLOpaque := "" |}.

Definition exampleConnect (host : string) : httpRequest :=
  {| Method := "CONNECT"; ReqHeader := ∅; ReqHost := host;
     URLHost := host; URLOpaque := "" |}.

(** ** Further example values *)

(** A CA whose certificate does not parse, and one without certificate. *)
Definition exampleBadCA : tlsCertificate :=
  {| Certificate := [""]; PrivateKey := PrivateKey exampleCA |}.

Definition exampleEmptyCA : tlsCertificate :=
  {| Certificate := []; PrivateKey := PrivateKey exampleCA |}.

Definition exampleDefaultTLSConfig : tlsConfig :=
  {| ServerName := ""; Certificates := []; NextProtos := [] |}.

(** ** [dialerFromEnv] (https.go, lines 474-483) *)

Section DialerFromEnv.
Variable netDial : Dialer.
Variable urlParse : string -> URL + string.
Variable requestWrite : httpRequest -> string.
Variable httpReadResponse : Conn -> httpRequest -> httpResponse + string.
Variable tlsClient : Conn -> Conn.
(** [os.Getenv]: the empty string for a variable that is not set. *)
Variable osGetenv : string -> string.

Definition dialerFromEnv (proxy : ProxyHttpServer)
  : option (string -> string -> dialOutcome) :=
  let https_proxy := osGetenv "HTTPS_PROXY" in
  let https_proxy :=
    if String.eqb https_proxy "" then osGetenv "https_proxy" else https_proxy in
  if String.eqb https_proxy "" then None
  else NewConnectDialToProxy netDial urlParse requestWrite httpReadResponse tlsClient
         proxy https_proxy.

End DialerFromEnv.

(** Either dial function, by the kind of proxy: [tls] for https and wss. *)
Definition connectDialVia (netDial : Dialer) (requestWrite : httpRequest -> string)
    (httpReadResponse : Conn -> httpRequest -> httpResponse + string)
    (tlsClient : Conn -> Conn) (proxy : ProxyHttpServer) (tls : bool) (u : URL)
    (connectReqHandler : option (httpRequest -> httpRequest)) (network addr : string)
  : dialOutcome :=
  if tls
  then connectDialTLS netDial requestWrite httpReadResponse tlsClient proxy u
         connectReqHandler network addr
  else connectDialHTTP netDial requestWrite httpReadResponse proxy u
         connectReqHandler network addr.

(** The answer of a proxy that accepts the CONNECT. *)
Definition example200 : httpResponse :=
  {| Status := "200 Connection established"; StatusCode := 200;
     Proto := "HTTP/1.1"; RespHeader := ∅; Body := [] |}.

(** [w'] is [w] after some writes: the same connection, still in the
    same state, with more bytes sent. *)
Definition extends (w w' : Conn) : Prop :=
  closed w' = closed w /\ halfClosable w' = halfClosable w /\
  exists suffix, sent w' = sent w +:+ suffix.

(** A URL parser for the examples: [scheme://host]. *)
Definition exampleUrlParse (s : string) : URL + string :=
  if stringsHasPrefix s "http://" then inl {| Scheme := "http"; Host := sliceFrom s 7 |}
  else if stringsHasPrefix s "https://" then inl {| Scheme := "https"; Host := sliceFrom s 8 |}
  else if stringsHasPrefix s "socks5://" then inl {| Scheme := "socks5"; Host := sliceFrom s 9 |}
  else inr "parse error".

Definition exampleGetenv (name : string) : string :=
  if String.eqb name "https_proxy" then "http://proxy.example" else "".

(** A network in which nothing answers: the error names the address. *)
Definition exampleDeadDial : Dialer := fun network addr => inr ("no route to " +:+ addr).

(** Handlers that abstain, and one that rejects. *)
Definition exampleAbstain : HttpsHandler := fun _ => None.
Definition exampleRejectAction : ConnectAction :=
  {| Action := ConnectReject; Hijack := fun _ c => c |}.
Definition exampleRejectHandler : HttpsHandler :=
  fun host => Some (exampleRejectAction, host).
Definition exampleHijackAction : ConnectAction :=
  {| Action := ConnectProxyAuthHijack; Hijack := fun _ c => c |}.

(** ** [dialTls] and the start of the MITM task (https.go, lines 175-268, 405-446) *)

Inductive RenegotiationSupport :=
| RenegotiateNever
| RenegotiateOnceAsClient
| RenegotiateFreelyAsClient.

Definition VersionTLS12 : Z := 0x0303.

(** A [*tls.Config] as the MITM task uses it: the fields of [tlsConfig]
    and the three other fields the task sets.  The task mutates the
    configuration in place; the functions below return its new state. *)
Record tlsConfigState := {
  config : tlsConfig;
  Renegotiation : RenegotiationSupport;
  MinVersion : Z;
  InsecureSkipVerify : bool
}.

Definition setNextProtos (cfg : tlsConfigState) (protos : list string) : tlsConfigState :=
  {| config := {| ServerName := ServerName (config cfg);
                  Certificates := Certificates (config cfg);
                  NextProtos := protos |};
     Renegotiation := Renegotiation cfg;
     MinVersion := MinVersion cfg;
     InsecureSkipVerify := InsecureSkipVerify cfg |}.

Inductive ClientHelloID :=
| HelloChrome_Auto
| HelloRandomizedNoALPN.

(** What [dialTls] returns as [io.ReadWriteCloser]: the TCP connection
    itself, or the [*tls.UConn] over it with its negotiated protocol. *)
Inductive remoteConn :=
| RemoteTCP (tcpConn : Conn)
| RemoteTLS (tcpConn : Conn) (NegotiatedProtocol : string).

(** The test of line 417.  The first rune of a string is [h] exactly
    when its first byte is. *)
Definition invalidProto (proto : string) : bool :=
  match proto with
  | EmptyString => true
  | String c _ => negb (Ascii.eqb c "h")
  end.

(** The loop of lines 416-421. *)
Fixpoint invalidProtos (protos : list string) : bool :=
  match protos with
  | [] => false
  | proto :: protos' => if invalidProto proto then true else invalidProtos protos'
  end.

Record utlsRoundTripper := {
  rtHello : string;
  rtConfig : tlsConfigState;
  rtProxy : option URL
}.

Inductive mitmOutcome :=
| MitmPanics (msg : string)
| MitmReturns (client : Conn)
| MitmHttp2 (rawClientTls : Conn) (remote : remoteConn)
| MitmLoop (rawClientTls : Conn) (remote : remoteConn)
    (roundTripper : option utlsRoundTripper) (tlsCfg : tlsConfigState).

Section MitmTask.
Variable netDial : Dialer.
(** [tls.UClient(tcpConn, cfg, hello).Handshake()]: the protocol
    negotiated with the origin, or the error. *)
Variable uclientHandshake : Conn -> tlsConfigState -> ClientHelloID -> string + string.
(** [tls.Server(conn, cfg)] with its [Handshake()]: the TLS side of the
    client connection, and the protocol negotiated or the error. *)
Variable tlsServer : Conn -> tlsConfigState -> Conn * (string + string).
Variable NewUTLSRoundTripper :
  string -> tlsConfigState -> option URL -> utlsRoundTripper + string.
(** [proxy.Http2Handler]: [None] is nil. *)
Variable Http2Handler : option (Conn -> remoteConn -> bool).

Definition dialTls (host rHost : string) (tlsCfg : tlsConfigState)
  : option remoteConn * tlsConfigState :=
  match netDial "tcp" host with
  | inr _ => (None, tlsCfg)
  | inl tcpConn =>
      if String.eqb host rHost then
        let tlsCfg :=
          if invalidProtos (NextProtos (config tlsCfg))
          then setNextProtos tlsCfg ["h2"; "http/1.1"] else tlsCfg in
        let clientHelloId :=
          match NextProtos (config tlsCfg) with
          | first :: _ =>
              if negb (String.eqb first "h2") then HelloRandomizedNoALPN
              else HelloChrome_Auto
          | [] => HelloChrome_Auto
          end in
        match uclientHandshake tcpConn tlsCfg clientHelloId with
        | inr _ => (None, tlsCfg)
        | inl negotiated =>
            let tlsCfg :=
              if negb (String.eqb negotiated "h2")
              then setNextProtos tlsCfg ["http/1.1"]
              else setNextProtos tlsCfg ["h2"; "http/1.1"] in
            (Some (RemoteTLS tcpConn negotiated), tlsCfg)
        end
      else (Some (RemoteTCP tcpConn), tlsCfg)
  end.

(** Lines 213-220 and 233-240: no origin, so tell the client over TLS. *)
Definition cannotDial (proxyClient : Conn) (tlsCfg : tlsConfigState) : mitmOutcome :=
  let tlsCfg := setNextProtos tlsCfg ["http/1.1"] in
  let '(rawClientTls, _) := tlsServer proxyClient tlsCfg in
  MitmReturns (httpError rawClientTls "Can't dial remote").

(** Lines 243-268, once both sides are connected. *)
Definition mitmNegotiated (proxyURL : option URL) (rawClientTls : Conn)
    (clientHttpProtocol : string) (remote : remoteConn) (tlsCfg : tlsConfigState)
  : mitmOutcome :=
  let tlsCfg :=
    if negb (String.eqb clientHttpProtocol "h2")
    then setNextProtos tlsCfg ["http/1.1"]
    else setNextProtos tlsCfg ["h2"; "http/1.1"] in
  if String.eqb clientHttpProtocol "h2" then
    match Http2Handler with
    | Some handler =>
        match remote with
        | RemoteTLS _ _ =>
            if handler rawClientTls remote then MitmHttp2 rawClientTls remote
            else MitmLoop rawClientTls remote None tlsCfg
        | RemoteTCP _ =>
            MitmPanics "interface conversion: io.ReadWriteCloser is *net.TCPConn, not *tls.UConn"
        end
    | None => MitmLoop rawClientTls remote None tlsCfg
    end
  else
    let tlsCfg := setNextProtos tlsCfg ["http/1.1"; "h2"] in
    let tlsCfg :=
      {| config := config tlsCfg; Renegotiation := Renegotiation tlsCfg;
         MinVersion := VersionTLS12; InsecureSkipVerify := true |} in
    match NewUTLSRoundTripper "hellorandomizednoalpn_maxtls" tlsCfg proxyURL with
    | inr err => MitmReturns (httpError rawClientTls err)
    | inl roundTripper => MitmLoop rawClientTls remote (Some roundTripper) tlsCfg
    end.

(** Lines 182-268: from the TLS configuration to the request loop.
    [factory] is the result of [todo.TLSConfig(host, ctx)], [None] when
    [todo.TLSConfig] is nil; [proxyURL] is what [proxy.Tr.Proxy(r)]
    gives, [None] when there is no such function or it returns nil. *)
Definition mitmTask (defaultTLSConfig : tlsConfigState)
    (factory : option (tlsConfigState + string)) (rHost : string)
    (proxyURL : option URL) (proxyClient : Conn) : mitmOutcome :=
  match match factory with
        | Some result => result
        | None => inl defaultTLSConfig
        end with
  | inr err => MitmReturns (httpError proxyClient err)
  | inl tlsCfg =>
      let tlsCfg :=
        {| config := config tlsCfg; Renegotiation := RenegotiateFreelyAsClient;
           MinVersion := MinVersion tlsCfg;
           InsecureSkipVerify := InsecureSkipVerify tlsCfg |} in
      let tlsCfg := setNextProtos tlsCfg ["h2"; "http/1.1"] in
      let host := match proxyURL with Some u => Host u | None => rHost end in
      let tlsCfg :=
        if negb (String.eqb host rHost) then setNextProtos tlsCfg ["http/1.1"]
        else tlsCfg in
      match dialTls host rHost tlsCfg with
      | (None, tlsCfg) => cannotDial proxyClient tlsCfg
      | (Some remote, tlsCfg) =>
          match tlsServer proxyClient tlsCfg with
          | (rawClientTls, inr _) => MitmReturns rawClientTls
          | (rawClientTls, inl clientHttpProtocol) =>
              match remote with
              | RemoteTCP _ =>
                  MitmPanics
                    "interface conversion: io.ReadWriteCloser is *net.TCPConn, not *tls.UConn"
              | RemoteTLS _ negotiated =>
                  if negb (String.eqb clientHttpProtocol negotiated) then
                    let tlsCfg := setNextProtos tlsCfg [clientHttpProtocol] in
                    match dialTls host rHost tlsCfg with
                    | (None, tlsCfg) => cannotDial proxyClient tlsCfg
                    | (Some remote, tlsCfg) =>
                        mitmNegotiated proxyURL rawClientTls clientHttpProtocol remote tlsCfg
                    end
                  else
                    mitmNegotiated proxyURL rawClientTls clientHttpProtocol remote tlsCfg
              end
          end
      end
  end.

End MitmTask.

(** Example oracles for the MITM task: an origin that negotiates
    [http/1.1], a client that negotiates [http/1.1] over a fresh TLS
    side, and a round tripper that is always built. *)
Definition exampleTlsCfg : tlsConfigState :=
  {| config := {| ServerName := "a.b"; Certificates := []; NextProtos := [] |};
     Renegotiation := RenegotiateNever; MinVersion := 0; InsecureSkipVerify := false |}.

Definition exampleUclientHandshake
  : Conn -> tlsConfigState -> ClientHelloID -> string + string :=
  fun _ _ _ => inl "http/1.1".

Definition exampleTlsServer : Conn -> tlsConfigState -> Conn * (string + string) :=
  fun _ _ => (freshConn, inl "http/1.1").

Definition exampleNewRoundTripper
  : string -> tlsConfigState -> option URL -> utlsRoundTripper + string :=
  fun hello cfg u => inl {| rtHello := hello; rtConfig := cfg; rtProxy := u |}.

Definition exampleAnyDial : Dialer := fun _ _ => inl freshConn.

(** ** The WebSocket bridge over TLS (websocket.go, lines 35-54, 137-164) *)

Inductive websocketOutcome :=
| WebsocketNotServed (clientConn : Conn)
| WebsocketFailed (clientConn targetConn : Conn)
| WebsocketProxied (clientConn targetConn : Conn).

Section WebsocketTLS.
(** [tls.Dial], the wire form written by [Request.Write] and the answer
    read by [http.ReadResponse]. *)
Variable tlsDial : string -> string -> tlsConfig -> Conn + string.
Variable requestWrite : httpRequest -> string.
Variable httpReadResponse : Conn -> httpRequest -> httpResponse + string.
(** [Response.Write] writes straight to the connection, piece by piece:
    the status line, the header lines, the blank line, then the body as
    it is read.  [responseWrites resp] gives those pieces in order, and
    the error that ends the copy of the body once every piece was
    accepted ([None] when the body ends in [io.EOF]). *)
Variable responseWrites : httpResponse -> list string * error.

(** [resp.Write(w)]: the first write that fails ends it, with what was
    written before left on the connection. *)
Definition responseWriteTo (resp : httpResponse) (w : Conn) : Conn * error :=
  match writeStrings w (fst (responseWrites resp)) with
  | (w, Some err) => (w, Some err)
  | (w, None) => (w, snd (responseWrites resp))
  end.

Definition websocketHandshake (req : httpRequest) (targetSiteConn clientConn : Conn)
  : Conn * Conn * error :=
  match connWrite targetSiteConn (requestWrite req) with
  | (targetSiteConn, Some err) => (targetSiteConn, clientConn, Some err)
  | (targetSiteConn, None) =>
      match httpReadResponse targetSiteConn req with
      | inr err => (targetSiteConn, clientConn, Some err)
      | inl resp =>
          match responseWriteTo resp clientConn with
          | (clientConn, Some err) => (targetSiteConn, clientConn, Some err)
          | (clientConn, None) => (targetSiteConn, clientConn, None)
          end
      end
  end.

(** [serveWebsocketTLS] up to the start of the two copiers; the
    deferred [targetConn.Close()] has run in [WebsocketFailed]. *)
Definition serveWebsocketTLS (req : httpRequest) (tlsCfg : tlsConfig) (clientConn : Conn)
  : websocketOutcome :=
  match tlsDial "tcp" (URLHost req) tlsCfg with
  | inr _ => WebsocketNotServed clientConn
  | inl targetConn =>
      match websocketHandshake req targetConn clientConn with
      | (targetConn, clientConn, Some _) =>
          WebsocketFailed clientConn (fst (connClose targetConn))
      | (targetConn, clientConn, None) => WebsocketProxied clientConn targetConn
      end
  end.

End WebsocketTLS.

(** ** The plain-HTTP MITM mode (https.go, lines 138-174) *)

Section HTTPMitm.
Variable requestWrite : httpRequest -> string.
Variable httpReadResponse : Conn -> httpRequest -> httpResponse + string.
(** The successive writes of [Response.Write], as in [responseWriteTo]. *)
Variable responseWrites : httpResponse -> list string * error.
(** The filter chains of the proxy. *)
Variable filterRequest : httpRequest -> httpRequest * option httpResponse.
Variable filterResponse : httpResponse -> httpResponse.

(** The loop of lines 146-174.  [requests] is what successive
    [http.ReadRequest]s on the client give; its end is [io.EOF]. *)
Fixpoint httpMitmLoop (requests : list (httpRequest + string))
    (proxyClient targetSiteCon : Conn) : Conn * Conn :=
  match requests with
  | [] => (proxyClient, targetSiteCon)
  | inr _ :: _ => (proxyClient, targetSiteCon)
  | inl req :: requests' =>
      let '(req, resp) := filterRequest req in
      let fromOrigin :=
        match resp with
        | Some resp => (targetSiteCon, inl resp)
        | None =>
            match connWrite targetSiteCon (requestWrite req) with
            | (targetSiteCon, Some err) => (targetSiteCon, inr err)
            | (targetSiteCon, None) => (targetSiteCon, httpReadResponse targetSiteCon req)
            end
        end in
      match fromOrigin with
      | (targetSiteCon, inr err) => (httpError proxyClient err, targetSiteCon)
      | (targetSiteCon, inl resp) =>
          let resp := filterResponse resp in
          match responseWriteTo responseWrites resp proxyClient with
          | (proxyClient, Some err) => (httpError proxyClient err, targetSiteCon)
          | (proxyClient, None) => httpMitmLoop requests' proxyClient targetSiteCon
          end
      end
  end.

(** Lines 141-174, from the client connection that got the 200 line:
    the connections as the mode leaves them, the origin one if it was
    opened. *)
Definition httpMitm (connect : string -> string -> Conn + string) (host : string)
    (requests : list (httpRequest + string)) (proxyClient : Conn) : Conn * option Conn :=
  match connect "tcp" host with
  | inr _ => (proxyClient, None)
  | inl targetSiteCon =>
      let '(proxyClient, targetSiteCon) :=
        httpMitmLoop requests proxyClient targetSiteCon in
      (proxyClient, Some targetSiteCon)
  end.

End HTTPMitm.

(** Example oracles for the two bridges. *)
Definition exampleTlsDial : string -> string -> tlsConfig -> Conn + string :=
  fun _ addr _ =>
    if String.eqb addr "a.b" then inl freshConn else inr ("no route to " +:+ addr).

Definition exampleResponseWrites (resp : httpResponse) : list string * error :=
  (["HTTP/1.1 " +:+ Status resp +:+ CRLF; CRLF; fst (ioutilReadAll (Body resp))],
   snd (ioutilReadAll (Body resp))).

Definition example101 : httpResponse :=
  {| Status := "101 Switching Protocols"; StatusCode := 101; Proto := "HTTP/1.1";
     RespHeader := <["Upgrade" := ["websocket"]]> ∅; Body := [] |}.

(** A filter that answers every request itself, and one that passes
    every request on. *)
Definition exampleAnswerAll : httpRequest -> httpRequest * option httpResponse :=
  fun req => (req, Some exampleResponse).
Definition examplePassAll : httpRequest -> httpRequest * option httpResponse :=
  fun req => (req, None).

(** ** The request loop of the MITM task (https.go, lines 272-390) *)

(** A request as the loop handles it: the fields of [httpRequest], the
    remote address and the URL in text ([None] is the nil [*url.URL]). *)
Record mitmRequest := {
  httpReq : httpRequest;
  RemoteAddr : string;
  reqURL : option string
}.

Inductive mitmLoopOutcome :=
| LoopPanics (msg : string)
| LoopSplice (rawClientTls remote : Conn)
| LoopReturns (rawClientTls remote : Conn).

Section MitmLoop.
Variable TrimSpace : string -> string.
Variable EqualFold : string -> string -> bool.
Variable headerWrite : Header -> list string.
(** [url.Parse] followed by [String()]; the wire form of a request;
    the filter chains; the round trip of line 330 or 332, whichever
    the task uses. *)
Variable urlParse : string -> string + string.
Variable requestWrite : mitmRequest -> string.
Variable filterRequest : mitmRequest -> mitmRequest * option httpResponse.
Variable filterResponse : httpResponse -> httpResponse.
Variable roundTrip : mitmRequest -> httpResponse + string.
(** [r.Host] and [r.RemoteAddr] of the CONNECT request. *)
Variable rHost : string.
Variable rRemoteAddr : string.

(** Lines 299-304: the remote address of the CONNECT request, and an
    absolute URL.  The error is the one of [url.Parse], which also
    leaves the URL nil. *)
Definition fixRequest (req : mitmRequest) (url : string) : mitmRequest * error :=
  if stringsHasPrefix url "https://" then
    ({| httpReq := httpReq req; RemoteAddr := rRemoteAddr; reqURL := Some url |}, None)
  else
    match urlParse ("https://" +:+ rHost +:+ url) with
    | inl url' =>
        ({| httpReq := httpReq req; RemoteAddr := rRemoteAddr; reqURL := Some url' |}, None)
    | inr err =>
        ({| httpReq := httpReq req; RemoteAddr := rRemoteAddr; reqURL := None |}, Some err)
    end.

(** [requests] is what successive [http.ReadRequest]s on the client
    side give; its end is the end of the stream ([isEof]). *)
Fixpoint mitmLoop (requests : list (mitmRequest + string))
    (rawClientTls remote : Conn) : mitmLoopOutcome :=
  match requests with
  | [] => LoopReturns rawClientTls remote
  | inr _ :: _ => LoopReturns rawClientTls remote
  | inl req :: requests' =>
      if stringsContains (Method (httpReq req)) "RDG" then
        let '(remote, _) := connWrite remote (requestWrite req) in
        LoopSplice rawClientTls remote
      else
        match reqURL req with
        | None => LoopPanics "invalid memory address or nil pointer dereference"
        | Some url =>
            let '(req, err) := fixRequest req url in
            if isWebSocketRequest TrimSpace EqualFold (httpReq req) then
              match connWrite remote (requestWrite req) with
              | (remote, Some err) => LoopReturns (httpError rawClientTls err) remote
              | (remote, None) => LoopSplice rawClientTls remote
              end
            else
              let '(req, resp) := filterRequest req in
              let answer : httpResponse + mitmLoopOutcome :=
                match resp with
                | Some resp => inl resp
                | None =>
                    match err with
                    | Some _ =>
                        match reqURL req with
                        | Some _ => inr (LoopReturns rawClientTls remote)
                        | None =>
                            inr (LoopPanics
                                   "invalid memory address or nil pointer dereference")
                        end
                    | None =>
                        match roundTrip req with
                        | inr err =>
                            inr (LoopReturns
                                   (fst (connClose (httpError rawClientTls err)))
                                   (fst (connClose remote)))
                        | inl resp => inl resp
                        end
                    end
                end in
              match answer with
              | inr outcome => outcome
              | inl resp =>
                  let resp := filterResponse resp in
                  match writeResponse headerWrite rawClientTls resp with
                  | (rawClientTls, _, ReturnFromTask) => LoopReturns rawClientTls remote
                  | (rawClientTls, _, NextRequest) =>
                      mitmLoop requests' rawClientTls remote
                  end
              end
        end
  end.

End MitmLoop.

(** What the response writer sends for [resp] when every write is
    taken and the body is read without error. *)
Definition responseFrame (headerWrite : Header -> list string) (resp : httpResponse)
  : string :=
  statusLine resp
    +:+ fold_right append "" (headerWrite (chunkedHeader (RespHeader resp)))
    +:+ CRLF +:+ chunkFrames (Body resp) +:+ "0" +:+ CRLF +:+ CRLF.

(** An ordinary request of a MITM session. *)
Definition exampleGet (path : string) : mitmRequest :=
  {| httpReq := {| Method := "GET"; ReqHeader := ∅; ReqHost := "a.b";
                   URLHost := ""; URLOpaque := "" |};
     RemoteAddr := ""; reqURL := Some path |}.

Definition exampleMitmRequestWrite (req : mitmRequest) : string :=
  Method (httpReq req) +:+ " " +:+ default "" (reqURL req) +:+ " HTTP/1.1" +:+ CRLF
    +:+ "Host: " +:+ ReqHost (httpReq req) +:+ CRLF +:+ CRLF.

Definition exampleMitmAnswerAll : mitmRequest -> mitmRequest * option httpResponse :=
  fun req => (req, Some exampleResponse).
Definition exampleMitmPassAll : mitmRequest -> mitmRequest * option httpResponse :=
  fun req => (req, None).
Definition exampleUrlNormalise : string -> string + string := fun url => inl url.

(** [resp] is the answer that [req], an ordinary request, gets from the
    request filter itself, after the response filter; its body reads
    without error. *)
Definition answeredByFilter (TrimSpace : string -> string)
    (EqualFold : string -> string -> bool) (urlParse : string -> string + string)
    (filterRequest : mitmRequest -> mitmRequest * option httpResponse)
    (filterResponse : httpResponse -> httpResponse) (rHost rRemoteAddr : string)
    (req : mitmRequest) (resp : httpResponse) : Prop :=
  stringsContains (Method (httpReq req)) "RDG" = false /\
  isWebSocketRequest TrimSpace EqualFold (httpReq req) = false /\
  (forall e, ReadErr e ∉ Body resp) /\
  exists url synthesized,
    reqURL req = Some url /\
    snd (filterRequest (fst (fixRequest urlParse rHost rRemoteAddr req url)))
    = Some synthesized /\
    resp = filterResponse synthesized.

Definition exampleRdg : mitmRequest :=
  {| httpReq := {| Method := "RDG_OUT_DATA"; ReqHeader := ∅; ReqHost := "a.b";
                   URLHost := ""; URLOpaque := "" |};
     RemoteAddr := ""; reqURL := Some "/remoteDesktopGateway/" |}.

Definition exampleWsRequest : mitmRequest :=
  {| httpReq := exampleUpgrade "GET"; RemoteAddr := ""; reqURL := Some "/chat" |}.

Definition exampleFailingRoundTrip : mitmRequest -> httpResponse + string :=
  fun _ => inr "EOF".

(** ** The certificate signer *)

Lemma ascii_compare_N (a b : ascii) :
  Ascii.compare a b = N.compare (N_of_ascii a) (N_of_ascii b).
Proof. reflexivity. Qed.

Lemma ascii_compare_Eq (a b : ascii) : Ascii.compare a b = Eq <-> a = b.
Proof.
  split.
  - apply Ascii.compare_eq_iff.
  - intros ->. rewrite ascii_compare_N. apply N.compare_refl.
Qed.

Lemma string_compare_refl (s : string) : String.compare s s = Eq.
Proof.
  induction s as [|c s IH]; simpl; [reflexivity|].
  rewrite (proj2 (ascii_compare_Eq c c) eq_refl). exact IH.
Qed.

Lemma string_compare_trans_le (s t u : string) :
  String.compare s t <> Gt -> String.compare t u <> Gt -> String.compare s u <> Gt.
Proof.
  revert t u. induction s as [|a s IH]; intros [|b t] [|c u]; simpl; try congruence.
  rewrite !ascii_compare_N.
  destruct (N.compare_spec (N_of_ascii a) (N_of_ascii b)) as [Hab|Hab|Hab];
    destruct (N.compare_spec (N_of_ascii b) (N_of_ascii c)) as [Hbc|Hbc|Hbc];
    try congruence; intros H1 H2.
  - rewrite Hab, Hbc, N.compare_refl. by apply (IH t u).
  - rewrite Hab. by rewrite (proj2 (N.compare_lt_iff _ _) Hbc).
  - rewrite <- Hbc. by rewrite (proj2 (N.compare_lt_iff _ _) Hab).
  - assert (N_of_ascii a < N_of_ascii c)%N as Hac by lia.
    by rewrite (proj2 (N.compare_lt_iff _ _) Hac).
Qed.

Lemma str_le_compare (s t : string) : str_le s t <-> String.compare s t <> Gt.
Proof. unfold str_le, String.leb. destruct (String.compare s t); split; congruence. Qed.

#[global] Instance str_le_refl : Reflexive str_le.
Proof. intros s. apply str_le_compare. by rewrite string_compare_refl. Qed.

#[global] Instance str_le_trans : Transitive str_le.
Proof.
  intros s t u H1 H2. apply str_le_compare.
  apply (string_compare_trans_le s t u); by apply str_le_compare.
Qed.

#[global] Instance str_le_total : Total str_le.
Proof. intros s t. apply String.leb_total. Qed.

#[global] Instance str_le_antisym : AntiSymm (=) str_le.
Proof. intros s t. apply String.leb_antisym. Qed.

Lemma sortStrings_sorted (l : list string) : StronglySorted str_le (sortStrings l).
Proof. apply StronglySorted_merge_sort; apply _. Qed.

Lemma sortStrings_perm (l : list string) : sortStrings l ≡ₚ l.
Proof. apply merge_sort_Permutation. Qed.

(** Sorting is determined by the order: whatever algorithm
    [sort.Strings] runs, its result is [sortStrings]. *)
Lemma sortStrings_unique (l l' : list string) :
  StronglySorted str_le l' -> l' ≡ₚ l -> l' = sortStrings l.
Proof.
  intros Hs Hp. apply (StronglySorted_unique str_le); [done|apply sortStrings_sorted|].
  by rewrite Hp, sortStrings_perm.
Qed.

(** Test vectors of FIPS 180 for the digest. *)
Example sha1_abc :
  bigIntSetBytes (SHA1.sum (bytes_of_string "abc"))
  = 0xa9993e364706816aba3e25717850c26c9cd0d89d.
Proof. by vm_compute. Qed.

Example sha1_empty :
  bigIntSetBytes (SHA1.sum []) = 0xda39a3ee5e6b4b0d3255bfef95601890afd80709.
Proof. by vm_compute. Qed.

Example sha1_two_blocks :
  bigIntSetBytes
    (SHA1.sum (bytes_of_string "abcdbcdecdefdefgefghfghighijhijkijkljklmklmnlmnomnopnopq"))
  = 0x84983e441c3bd26ebaae4aa1f95129e5e54670f1.
Proof. by vm_compute. Qed.

Example sortStrings_tags :
  sortStrings ["example.com"; "10.0.0.1"; ":goroxy1"; ":go1.21.0"]
  = ["10.0.0.1"; ":go1.21.0"; ":goroxy1"; "example.com"].
Proof. by vm_compute. Qed.

Lemma bytes_of_string_app (s t : string) :
  bytes_of_string (s +:+ t) = bytes_of_string s ++ bytes_of_string t.
Proof.
  unfold bytes_of_string. induction s as [|c s IH]; simpl; [reflexivity|].
  f_equal. exact IH.
Qed.

Lemma hashSorted_writes (l : list string) (h : SHA1.digest) :
  fold_left (fun h s => SHA1.hWrite h (bytes_of_string (s +:+ ","))) l h
  = h ++ bytes_of_string (commaTerminated l).
Proof.
  revert h. induction l as [|s l IH]; intros h; simpl.
  - by rewrite app_nil_r.
  - rewrite IH. unfold SHA1.hWrite.
    by rewrite !bytes_of_string_app, <- !app_assoc.
Qed.

Lemma hashSorted_sum (lst : list string) :
  hashSorted lst = SHA1.sum (bytes_of_string (commaTerminated (sortStrings lst))).
Proof. unfold hashSorted. by rewrite hashSorted_writes. Qed.

Lemma timeParseDate_end : timeParseDate "2049-12-31" = inl notAfter2049.
Proof. reflexivity. Qed.

#[local] Arguments timeParseDate : simpl never.
#[local] Arguments signHostTemplate : simpl never.
#[local] Arguments signHostHash : simpl never.
#[local] Arguments hashSorted : simpl never.

Section SignerFacts.
Context (env : CryptoEnv).

Lemma addHost_fold (hosts : list string) (t : x509Certificate) :
  let t' := fold_left (addHost env) hosts t in
  SerialNumber t' = SerialNumber t /\ Issuer t' = Issuer t /\
  Organization (Subject t') = Organization (Subject t) /\
  NotBefore t' = NotBefore t /\ NotAfter t' = NotAfter t /\
  KeyUsage t' = KeyUsage t /\ ExtKeyUsage t' = ExtKeyUsage t /\
  BasicConstraintsValid t' = BasicConstraintsValid t /\
  IPAddresses t' = IPAddresses t ++ omap (ParseIP env) hosts /\
  DNSNames t' = DNSNames t ++ filter (fun h => ParseIP env h = None) hosts /\
  CommonName (Subject t') =
    default (CommonName (Subject t)) (last (filter (fun h => ParseIP env h = None) hosts)).
Proof.
  revert t. induction hosts as [|h hosts IH]; intros t; simpl.
  - rewrite !app_nil_r. repeat split.
  - specialize (IH (addHost env t h)). simpl in IH.
    destruct IH as (E1 & E2 & E3 & E4 & E5 & E6 & E7 & E8 & E9 & E10 & E11).
    rewrite E1, E2, E3, E4, E5, E6, E7, E8, E9, E10, E11. clear.
    unfold addHost. rewrite filter_cons.
    destruct (ParseIP env h) as [ip|] eqn:Hip; simpl.
    + rewrite <- app_assoc. repeat split.
    + rewrite <- app_assoc. repeat split.
      destruct (filter _ hosts) as [|x xs] eqn:Hf; simpl; [done|].
      destruct (last (x :: xs)) eqn:Hl; [done|]. by apply last_None in Hl.
Qed.

(** What a call that is not answered by the cache and returns no error
    has done: the certificate comes from the library calls of lines
    54-102, each fed as in the source. *)
Lemma signHost_minted (ca : tlsCertificate) (hosts : list string)
    (hm hm' : hostMapT) (cert : tlsCertificate) :
  cacheLookup hm hosts = None ->
  signHost env ca hosts hm = Returns (cert, None) hm' ->
  exists ca0 rest x509ca csprng certpriv csprng1 derBytes csprng2,
    Certificate ca = ca0 :: rest /\
    ParseCertificate env ca0 = inl x509ca /\
    NewCounterEncryptorRandFromKey env (PrivateKey ca) (signHostHash env hosts) = inl csprng /\
    GenerateKey env csprng 2048 = (inl certpriv, csprng1) /\
    CreateCertificate env csprng1 (signHostTemplate env x509ca 0 notAfter2049 hosts)
      x509ca (rsaPublicKey certpriv) (PrivateKey ca) = (inl derBytes, csprng2) /\
    cert = {| Certificate := [derBytes; ca0]; PrivateKey := Some (RSAKey certpriv) |} /\
    hm' = cacheStore hm hosts cert.
Proof.
  intros Hmiss.
  unfold signHost, mbind, Signer_bind, getHostMap, index0, panic, mret, Signer_ret, setHostMap.
  rewrite Hmiss, timeParseDate_end. unfold timeUnix.
  destruct (Certificate ca) as [|ca0 rest] eqn:Hca; [done|].
  destruct (ParseCertificate env ca0) as [x509ca|e] eqn:Hparse; [|congruence].
  destruct (NewCounterEncryptorRandFromKey env _ _) as [csprng|e] eqn:Hnew; [|congruence].
  destruct (GenerateKey env csprng 2048) as [[certpriv|e] csprng1] eqn:Hgen; [|congruence].
  destruct (CreateCertificate env csprng1 _ _ _ _) as [[derBytes|e] csprng2] eqn:Hcreate;
    [|congruence].
  intros [= <- <-].
  by exists ca0, rest, x509ca, csprng, certpriv, csprng1, derBytes, csprng2.
Qed.

(** The other way round: when the cache does not answer and every
    library call succeeds, the call mints, with the key and the leaf
    those calls returned. *)
Lemma signHost_mints (ca : tlsCertificate) (hosts : list string) (hm : hostMapT)
    (ca0 : string) (rest : list string) (x509ca : x509Certificate)
    (csprng csprng1 csprng2 : CounterEncryptorRand env) (certpriv : rsaPrivateKey)
    (derBytes : string) :
  cacheLookup hm hosts = None ->
  Certificate ca = ca0 :: rest ->
  ParseCertificate env ca0 = inl x509ca ->
  NewCounterEncryptorRandFromKey env (PrivateKey ca) (signHostHash env hosts) = inl csprng ->
  GenerateKey env csprng 2048 = (inl certpriv, csprng1) ->
  CreateCertificate env csprng1 (signHostTemplate env x509ca 0 notAfter2049 hosts)
    x509ca (rsaPublicKey certpriv) (PrivateKey ca) = (inl derBytes, csprng2) ->
  let cert := {| Certificate := [derBytes; ca0]; PrivateKey := Some (RSAKey certpriv) |} in
  signHost env ca hosts hm = Returns (cert, None) (cacheStore hm hosts cert).
Proof.
  intros Hmiss Hca Hparse Hnew Hgen Hcreate cert.
  unfold signHost, mbind, Signer_bind, getHostMap, index0, panic, mret, Signer_ret, setHostMap.
  rewrite Hmiss, timeParseDate_end, Hca. unfold timeUnix.
  rewrite Hparse, Hnew, Hgen, Hcreate. reflexivity.
Qed.

Lemma signHost_leafTemplate (ca : tlsCertificate) (hosts : list string)
    (hm hm' : hostMapT) (cert : tlsCertificate) :
  cacheLookup hm hosts = None ->
  signHost env ca hosts hm = Returns (cert, None) hm' ->
  exists x509ca,
    leafTemplate env ca hosts cert
      (signHostTemplate env x509ca (timeUnix 0 0) notAfter2049 hosts).
Proof.
  intros Hmiss Hret.
  destruct (signHost_minted ca hosts hm hm' cert Hmiss Hret)
    as (ca0 & rest & x509ca & csprng & certpriv & csprng1 & der & csprng2
        & Hca & Hparse & Hnew & Hgen & Hcreate & Hcert & Hhm).
  exists x509ca, ca0, x509ca, csprng1, (rsaPublicKey certpriv), der, csprng2.
  repeat split; [done|exact Hcreate|by rewrite Hcert].
Qed.

(** The fields of the template, read off lines 65-86. *)
Lemma signHostTemplate_fields (x509ca : x509Certificate) (start end_ : Z)
    (hosts : list string) :
  let t := signHostTemplate env x509ca start end_ hosts in
  SerialNumber t = bigIntSetBytes (signHostHash env hosts) /\
  Issuer t = Subject x509ca /\
  Organization (Subject t) = ["GoProxy untrusted MITM proxy Inc"] /\
  NotBefore t = start /\ NotAfter t = end_ /\
  KeyUsage t = Z.lor KeyUsageKeyEncipherment KeyUsageDigitalSignature /\
  ExtKeyUsage t = [ExtKeyUsageServerAuth] /\
  BasicConstraintsValid t = true /\
  IPAddresses t = omap (ParseIP env) hosts /\
  DNSNames t = filter (fun h => ParseIP env h = None) hosts /\
  CommonName (Subject t) = default "" (last (filter (fun h => ParseIP env h = None) hosts)).
Proof. unfold signHostTemplate. apply addHost_fold. Qed.

End SignerFacts.

Lemma signHost_cached (env : CryptoEnv) (ca : tlsCertificate) (h : string)
    (rest : list string) (m : gmap string tlsCertificate) (cert : tlsCertificate) :
  m !! h = Some cert ->
  signHost env ca (h :: rest) (Some m) = Returns (cert, None) (Some m).
Proof.
  intros Hm. unfold signHost, mbind, Signer_bind, getHostMap, cacheLookup.
  by rewrite Hm.
Qed.

Lemma cacheStore_first (hm : hostMapT) (h : string) (cert : tlsCertificate) :
  exists m, cacheStore hm [h] cert = Some m /\ m !! h = Some cert.
Proof.
  unfold cacheStore. simpl. eexists. split; [reflexivity|]. apply lookup_insert_eq.
Qed.

(** Once a call for the single host [h] has returned a certificate,
    every later call whose list starts with [h] is answered with that
    certificate, whatever else the list holds. *)
Lemma signHost_first_host_only (env : CryptoEnv) (ca : tlsCertificate) (h : string)
    (rest : list string) (hm hm1 : hostMapT) (cert : tlsCertificate) :
  signHost env ca [h] hm = Returns (cert, None) hm1 ->
  signHost env ca (h :: rest) hm1 = Returns (cert, None) hm1.
Proof.
  intros Hfirst.
  destruct (cacheLookup hm [h]) as [[c e]|] eqn:Hlook.
  - unfold signHost, mbind, Signer_bind, getHostMap, mret, Signer_ret in Hfirst.
    rewrite Hlook in Hfirst. injection Hfirst as -> -> <-.
    unfold cacheLookup in Hlook. destruct hm as [m|]; [|done].
    destruct (m !! h) as [c'|] eqn:Hm; [|done]. injection Hlook as ->.
    by apply signHost_cached.
  - destruct (signHost_minted env ca [h] hm hm1 cert Hlook Hfirst)
      as (? & ? & ? & ? & ? & ? & ? & ? & _ & _ & _ & _ & _ & _ & ->).
    destruct (cacheStore_first hm h cert) as (m & -> & Hm).
    by apply signHost_cached.
Qed.

(** C1: the cache answers from the first host name alone.  After a call
    for ["a.example"], the call for ["a.example"; "b.example"] returns
    the cached certificate, whose template names "a.example" only. *)
Theorem signHost_cache_host_mismatch :
  exists cert hm1 template,
    signHost exampleEnv exampleCA ["a.example"] None = Returns (cert, None) hm1 /\
    leafTemplate exampleEnv exampleCA ["a.example"] cert template /\
    DNSNames template = ["a.example"] /\
    IPAddresses template = [] /\
    signHost exampleEnv exampleCA ["a.example"; "b.example"] hm1 = Returns (cert, None) hm1 /\
    "b.example" ∉ DNSNames template.
Proof.
  destruct (signHost exampleEnv exampleCA ["a.example"] None) as [[cert e] hm1|msg] eqn:Hfirst;
    [|by vm_compute in Hfirst].
  assert (e = None) as -> by (vm_compute in Hfirst; congruence).
  destruct (signHost_leafTemplate exampleEnv exampleCA ["a.example"] None hm1 cert
              eq_refl Hfirst) as [x509ca Hleaf].
  destruct (signHostTemplate_fields exampleEnv x509ca (timeUnix 0 0) notAfter2049
              ["a.example"]) as (_ & _ & _ & _ & _ & _ & _ & _ & Hip & Hdns & _).
  exists cert, hm1, (signHostTemplate exampleEnv x509ca (timeUnix 0 0) notAfter2049 ["a.example"]).
  rewrite Hip, Hdns.
  split; [reflexivity|]. split; [exact Hleaf|].
  split; [reflexivity|]. split; [reflexivity|]. split.
  - by apply signHost_first_host_only with (hm := None).
  - rewrite list_elem_of_In. vm_compute. intros [H|[]]. discriminate H.
Qed.

(** Within one evaluation the cache state does not reach the minting
    path: two calls that the cache does not answer give the same
    certificate, key and error, or the same panic. *)
Lemma signHost_miss_any_cache (env : CryptoEnv) (ca : tlsCertificate)
    (hosts : list string) (hm1 hm2 : hostMapT) :
  cacheLookup hm1 hosts = None ->
  cacheLookup hm2 hosts = None ->
  answer (signHost env ca hosts hm1) = answer (signHost env ca hosts hm2).
Proof.
  intros H1 H2.
  unfold signHost, mbind, Signer_bind, getHostMap, index0, panic, mret, Signer_ret,
    setHostMap.
  rewrite H1, H2, timeParseDate_end.
  destruct (Certificate ca) as [|ca0 rest]; [done|].
  destruct (ParseCertificate env ca0) as [x509ca|e]; [|done].
  destruct (NewCounterEncryptorRandFromKey env _ _) as [csprng|e]; [|done].
  destruct (GenerateKey env csprng 2048) as [[certpriv|e] csprng1]; [|done].
  by destruct (CreateCertificate env csprng1 _ _ _ _) as [[derBytes|e] csprng2].
Qed.

(** Where the key of a mint comes from in one evaluation: from the
    reader seeded by the CA key and the hash, read from its start or
    from one byte on. *)
Lemma signHost_evaluation_key (env : CryptoEnv)
    (readByte : CounterEncryptorRand env -> CounterEncryptorRand env) (skip : bool)
    (ca : tlsCertificate) (hosts : list string) (hm hm' : hostMapT)
    (cert : tlsCertificate) :
  cacheLookup hm hosts = None ->
  signHost (inEvaluation env readByte skip) ca hosts hm = Returns (cert, None) hm' ->
  exists csprng certpriv csprng1,
    NewCounterEncryptorRandFromKey env (PrivateKey ca)
      (hashSorted (hosts ++ [goproxySignerVersion; ":" +:+ runtimeVersion env]))
    = inl csprng /\
    GenerateKey env (maybeReadByte readByte skip csprng) 2048 = (inl certpriv, csprng1) /\
    PrivateKey cert = Some (RSAKey certpriv).
Proof.
  intros Hmiss Hret.
  destruct (signHost_minted _ ca hosts hm hm' cert Hmiss Hret)
    as (ca0 & rest & x509ca & csprng & certpriv & csprng1 & der & csprng2
        & Hca & Hparse & Hnew & Hgen & Hcreate & Hcert & Hhm).
  exists csprng, certpriv, csprng1. split; [exact Hnew|]. split; [exact Hgen|].
  by rewrite Hcert.
Qed.

(** C2: the leaf is not reproducible.  [signHost] hands
    [rsa.GenerateKey] the reader seeded by the CA key and the hash of
    the host list and nothing else, but the library may drop one byte of
    that reader first (see [inEvaluation]): two evaluations of the call
    for ["a.example"], each starting from the nil cache and differing
    only in that choice, return different private keys and different
    leaf bytes. *)
Theorem signHost_evaluations_differ :
  let once := inEvaluation exampleEnv exampleReadByte false in
  let again := inEvaluation exampleEnv exampleReadByte true in
  exists cert1 cert2 hm1 hm2,
    signHost once exampleCA ["a.example"] None = Returns (cert1, None) hm1 /\
    signHost again exampleCA ["a.example"] None = Returns (cert2, None) hm2 /\
    NewCounterEncryptorRandFromKey once (PrivateKey exampleCA) (signHostHash once ["a.example"])
    = NewCounterEncryptorRandFromKey again (PrivateKey exampleCA)
        (signHostHash again ["a.example"]) /\
    PrivateKey cert1 <> PrivateKey cert2 /\
    head (Certificate cert1) <> head (Certificate cert2).
Proof.
  intros once again.
  destruct (signHost once exampleCA ["a.example"] None) as [[cert1 e1] hm1|msg] eqn:H1;
    [|by vm_compute in H1].
  destruct (signHost again exampleCA ["a.example"] None) as [[cert2 e2] hm2|msg] eqn:H2;
    [|by vm_compute in H2].
  vm_compute in H1, H2.
  injection H1 as <- <- <-. injection H2 as <- <- <-.
  eexists _, _, _, _. split; [reflexivity|]. split; [reflexivity|].
  split; [vm_compute; reflexivity|].
  split; vm_compute; intros [=].
Qed.

(** C3 (as amended): the serial of a minted certificate is the
    big-endian reading of the SHA-1 of the sorted list made of the host
    names and the two tags together, each element followed by a comma. *)
Theorem signHost_serial (env : CryptoEnv) (ca : tlsCertificate)
    (hosts : list string) (hm hm' : hostMapT) (cert : tlsCertificate) :
  cacheLookup hm hosts = None ->
  signHost env ca hosts hm = Returns (cert, None) hm' ->
  exists template l,
    leafTemplate env ca hosts cert template /\
    l ≡ₚ hosts ++ [goproxySignerVersion; ":" +:+ runtimeVersion env] /\
    StronglySorted str_le l /\
    SerialNumber template = bigIntSetBytes (SHA1.sum (bytes_of_string (commaTerminated l))).
Proof.
  intros Hmiss Hret.
  destruct (signHost_leafTemplate env ca hosts hm hm' cert Hmiss Hret) as [x509ca Hleaf].
  exists (signHostTemplate env x509ca (timeUnix 0 0) notAfter2049 hosts),
    (sortStrings (hosts ++ [goproxySignerVersion; ":" +:+ runtimeVersion env])).
  split; [exact Hleaf|]. split; [apply sortStrings_perm|]. split; [apply sortStrings_sorted|].
  destruct (signHostTemplate_fields env x509ca (timeUnix 0 0) notAfter2049 hosts)
    as (Hserial & _).
  rewrite Hserial. unfold signHostHash. by rewrite hashSorted_sum.
Qed.

Lemma signHost_serial_witness :
  exists cert hm',
    cacheLookup None ["example.com"] = None /\
    signHost exampleEnv exampleCA ["example.com"] None = Returns (cert, None) hm' /\
    exists template l,
      leafTemplate exampleEnv exampleCA ["example.com"] cert template /\
      l ≡ₚ ["example.com"] ++ [goproxySignerVersion; ":" +:+ runtimeVersion exampleEnv] /\
      StronglySorted str_le l /\
      SerialNumber template = bigIntSetBytes (SHA1.sum (bytes_of_string (commaTerminated l))).
Proof.
  eexists _, _. split; [reflexivity|]. split; [vm_compute; reflexivity|].
  eapply (signHost_serial exampleEnv exampleCA ["example.com"] None);
    [reflexivity|vm_compute; reflexivity].
Defined.

(** C3 as the specification words it fails: for ["example.com"] the two
    tags, which start with a colon, sort before the host name, so the
    digest input is not the sorted host names followed by the tags. *)
Lemma signHost_serial_counterexample :
  exists cert hm' template,
    signHost exampleEnv exampleCA ["example.com"] None = Returns (cert, None) hm' /\
    leafTemplate exampleEnv exampleCA ["example.com"] cert template /\
    sortStrings (["example.com"] ++ [goproxySignerVersion; ":" +:+ runtimeVersion exampleEnv])
      = [":go1.21.0"; ":goroxy1"; "example.com"] /\
    specHashList exampleEnv ["example.com"] = ["example.com"; ":goroxy1"; ":go1.21.0"] /\
    SerialNumber template <> specSerial exampleEnv ["example.com"] /\
    SerialNumber template <> specSerialPlain exampleEnv ["example.com"].
Proof.
  destruct (signHost exampleEnv exampleCA ["example.com"] None) as [[cert e] hm1|msg] eqn:Hfirst;
    [|by vm_compute in Hfirst].
  assert (e = None) as -> by (vm_compute in Hfirst; congruence).
  destruct (signHost_leafTemplate exampleEnv exampleCA ["example.com"] None hm1 cert
              eq_refl Hfirst) as [x509ca Hleaf].
  destruct (signHostTemplate_fields exampleEnv x509ca (timeUnix 0 0) notAfter2049
              ["example.com"]) as (Hserial & _).
  exists cert, hm1, (signHostTemplate exampleEnv x509ca (timeUnix 0 0) notAfter2049 ["example.com"]).
  rewrite Hserial.
  split; [reflexivity|]. split; [exact Hleaf|].
  split; [by vm_compute|]. split; [by vm_compute|]. split; by vm_compute.
Qed.

(** C4: the template of a minted certificate.  Validity runs from the
    Unix epoch to 2049-12-31, the subject organization is the fixed
    string, the usages are as listed; every host that parses as an IP is
    in [IPAddresses], every other host in [DNSNames], in the order of
    [hosts], and the common name is the last host that is not an IP (it
    stays empty when there is none). *)
Theorem signHost_template (env : CryptoEnv) (ca : tlsCertificate)
    (hosts : list string) (hm hm' : hostMapT) (cert : tlsCertificate) :
  cacheLookup hm hosts = None ->
  signHost env ca hosts hm = Returns (cert, None) hm' ->
  exists template,
    leafTemplate env ca hosts cert template /\
    NotBefore template = 0 /\
    NotAfter template = daysFromCivil 2049 12 31 * 86400 /\
    Organization (Subject template) = ["GoProxy untrusted MITM proxy Inc"] /\
    KeyUsage template = Z.lor KeyUsageKeyEncipherment KeyUsageDigitalSignature /\
    ExtKeyUsage template = [ExtKeyUsageServerAuth] /\
    BasicConstraintsValid template = true /\
    IPAddresses template = omap (ParseIP env) hosts /\
    DNSNames template = filter (fun h => ParseIP env h = None) hosts /\
    CommonName (Subject template)
      = default "" (last (filter (fun h => ParseIP env h = None) hosts)).
Proof.
  intros Hmiss Hret.
  destruct (signHost_leafTemplate env ca hosts hm hm' cert Hmiss Hret) as [x509ca Hleaf].
  exists (signHostTemplate env x509ca (timeUnix 0 0) notAfter2049 hosts).
  split; [exact Hleaf|].
  by destruct (signHostTemplate_fields env x509ca (timeUnix 0 0) notAfter2049 hosts)
    as (_ & _ & ? & ? & ? & ? & ? & ? & ? & ? & ?).
Qed.

Lemma signHost_template_witness :
  exists cert hm',
    cacheLookup (Some ∅) ["a.example"; "10.0.0.1"; "b.example"] = None /\
    signHost exampleEnv exampleCA ["a.example"; "10.0.0.1"; "b.example"] (Some ∅)
      = Returns (cert, None) hm' /\
    exists template,
      leafTemplate exampleEnv exampleCA ["a.example"; "10.0.0.1"; "b.example"] cert template /\
      NotBefore template = 0 /\
      NotAfter template = daysFromCivil 2049 12 31 * 86400 /\
      Organization (Subject template) = ["GoProxy untrusted MITM proxy Inc"] /\
      KeyUsage template = Z.lor KeyUsageKeyEncipherment KeyUsageDigitalSignature /\
      ExtKeyUsage template = [ExtKeyUsageServerAuth] /\
      BasicConstraintsValid template = true /\
      IPAddresses template
        = omap (ParseIP exampleEnv) ["a.example"; "10.0.0.1"; "b.example"] /\
      DNSNames template
        = filter (fun h => ParseIP exampleEnv h = None) ["a.example"; "10.0.0.1"; "b.example"] /\
      CommonName (Subject template)
        = default "" (last (filter (fun h => ParseIP exampleEnv h = None)
                              ["a.example"; "10.0.0.1"; "b.example"])).
Proof.
  eexists _, _. split; [reflexivity|]. split; [vm_compute; reflexivity|].
  eapply (signHost_template exampleEnv exampleCA ["a.example"; "10.0.0.1"; "b.example"] (Some ∅));
    [reflexivity|vm_compute; reflexivity].
Defined.

(** The host lists of the example, evaluated. *)
Example example_template_names :
  omap (ParseIP exampleEnv) ["a.example"; "10.0.0.1"; "b.example"]
    = [[0; 0; 0; 0; 0; 0; 0; 0; 0; 0; 255; 255; 10; 0; 0; 1]] /\
  filter (fun h => ParseIP exampleEnv h = None) ["a.example"; "10.0.0.1"; "b.example"]
    = ["a.example"; "b.example"] /\
  Z.lor KeyUsageKeyEncipherment KeyUsageDigitalSignature = 5 /\
  daysFromCivil 2049 12 31 * 86400 = 2524521600.
Proof. by vm_compute. Qed.

(** With the nil cache an empty host list is not answered early: the
    call goes on to the CA, and whatever the library functions do, it
    does not return the zero certificate with a nil error. *)
Lemma signHost_empty_nil_cache (env : CryptoEnv) (ca : tlsCertificate) (hm' : hostMapT) :
  signHost env ca [] None <> Returns (zeroCertificate, None) hm'.
Proof.
  unfold signHost, mbind, Signer_bind, getHostMap, index0, panic, mret, Signer_ret,
    setHostMap, cacheLookup.
  rewrite timeParseDate_end.
  destruct (Certificate ca) as [|ca0 rest]; [done|].
  destruct (ParseCertificate env ca0) as [x509ca|e]; [|done].
  destruct (NewCounterEncryptorRandFromKey env _ _) as [csprng|e]; [|done].
  destruct (GenerateKey env csprng 2048) as [[certpriv|e] csprng1]; [|done].
  by destruct (CreateCertificate env csprng1 _ _ _ _) as [[derBytes|e] csprng2].
Qed.

(** C5 as stated fails: with the nil cache (the state of a fresh
    process) the call with no host mints a certificate. *)
Lemma signHost_empty_counterexample :
  ~ (forall hm : hostMapT, exists hm',
       signHost exampleEnv exampleCA [] hm = Returns (zeroCertificate, None) hm') /\
  exists cert hm',
    signHost exampleEnv exampleCA [] None = Returns (cert, None) hm' /\
    length (Certificate cert) = 2%nat /\
    hm' = Some ∅.
Proof.
  split.
  - intros H. destruct (H None) as [hm' Hhm'].
    by apply signHost_empty_nil_cache in Hhm'.
  - eexists _, _. split; [vm_compute; reflexivity|]. by vm_compute.
Qed.

(** C5 (as amended): once the cache map exists, a call with no host
    returns the zero certificate and a nil error, for every CA, and
    leaves the cache as it was. *)
Theorem signHost_empty_hosts (env : CryptoEnv) (ca : tlsCertificate)
    (m : gmap string tlsCertificate) :
  signHost env ca [] (Some m) = Returns (zeroCertificate, None) (Some m).
Proof. reflexivity. Qed.

(** ** WebSocket detection *)

Lemma stringsHasPrefix_spec (s p : string) :
  stringsHasPrefix s p = true <-> exists post, s = p +:+ post.
Proof.
  revert s. induction p as [|a p IH]; intros [|b s]; simpl.
  - split; [intros _; by exists ""|done].
  - split; [intros _; by exists (String b s)|done].
  - split; [done|]. by intros [post ?].
  - rewrite andb_true_iff, IH, Ascii.eqb_eq. split.
    + intros [-> [post ->]]. by exists post.
    + intros [post [= -> ->]]. split; [done|by exists post].
Qed.

Lemma stringsContains_spec (s sub : string) :
  stringsContains s sub = true <-> hasSubstring s sub.
Proof.
  unfold hasSubstring. induction s as [|c s IH].
  - cbn [stringsContains]. rewrite orb_false_r, stringsHasPrefix_spec. split.
    + intros [post ->]. by exists "", post.
    + intros ([|? ?] & post & H); [by exists post|done].
  - cbn [stringsContains]. rewrite orb_true_iff, stringsHasPrefix_spec, IH. split.
    + intros [[post ->]|(pre & post & ->)].
      * by exists "", post.
      * by exists (String c pre), post.
    + intros ([|c' pre] & post & H).
      * left. by exists post.
      * right. injection H as -> ->. by exists pre, post.
Qed.

Lemma stringsSplit_nonempty (s : string) (sep : ascii) : stringsSplit s sep <> [].
Proof.
  destruct s as [|c s]; [done|]. cbn [stringsSplit].
  destruct (Ascii.eqb c sep); [done|]. by destruct (stringsSplit s sep).
Qed.

(** The pieces of a split, joined by the separator, give the string
    back, and no piece holds the separator. *)
Lemma stringsSplit_join (s : string) (sep : ascii) :
  stringsJoin (stringsSplit s sep) (String sep "") = s.
Proof.
  induction s as [|c s IH]; [reflexivity|].
  cbn [stringsSplit]. destruct (Ascii.eqb_spec c sep) as [->|Hne].
  - destruct (stringsSplit s sep) as [|t ts] eqn:Hs;
      [by apply stringsSplit_nonempty in Hs|].
    simpl in *. by rewrite IH.
  - destruct (stringsSplit s sep) as [|t ts] eqn:Hs;
      [by apply stringsSplit_nonempty in Hs|].
    destruct ts as [|t' ts]; by rewrite <- IH.
Qed.

Lemma stringsSplit_pieces (s : string) (sep : ascii) (piece : string) :
  piece ∈ stringsSplit s sep -> stringsIndexRune piece sep = -1.
Proof.
  revert piece. induction s as [|c s IH]; intros piece; cbn [stringsSplit].
  - by intros ->%list_elem_of_singleton.
  - destruct (Ascii.eqb_spec c sep) as [->|Hne].
    + intros [->|Hin]%elem_of_cons; [done|by apply IH].
    + destruct (stringsSplit s sep) as [|t ts] eqn:Hs.
      * intros ->%list_elem_of_singleton. cbn [stringsIndexRune].
        by rewrite (proj2 (Ascii.eqb_neq c sep) Hne).
      * intros [->|Hin]%elem_of_cons.
        -- cbn [stringsIndexRune]. rewrite (proj2 (Ascii.eqb_neq c sep) Hne).
           by rewrite (IH t (list_elem_of_here _ _)).
        -- apply IH. by apply list_elem_of_further.
Qed.

Section WebSocketFacts.
Variable TrimSpace : string -> string.
Variable EqualFold : string -> string -> bool.

Lemma headerContainsPieces_spec (value : string) (pieces : list string) :
  headerContainsPieces TrimSpace EqualFold value pieces = true
  <-> exists s, s ∈ pieces /\ EqualFold value (TrimSpace s) = true.
Proof.
  induction pieces as [|s pieces IH]; simpl.
  - split; [done|]. by intros (s & ?%elem_of_nil & _).
  - destruct (EqualFold value (TrimSpace s)) eqn:Heq.
    + split; [|done]. intros _. exists s. split; [apply list_elem_of_here|done].
    + rewrite IH. split.
      * intros (s' & Hin & H). exists s'. split; [by apply list_elem_of_further|done].
      * intros (s' & [->|Hin]%elem_of_cons & H); [congruence|by exists s'].
Qed.

Lemma headerContains_spec (header : Header) (name value : string) :
  headerContains TrimSpace EqualFold header name value = true
  <-> headerHasToken TrimSpace EqualFold header name value.
Proof.
  unfold headerContains, headerHasToken.
  induction (default [] (header !! name)) as [|v values IH]; simpl.
  - split; [done|]. by intros (v & s & ?%elem_of_nil & _).
  - destruct (headerContainsPieces _ _ value (stringsSplit v ",")) eqn:Hp.
    + split; [|done]. intros _. apply headerContainsPieces_spec in Hp as (s & Hin & H).
      exists v, s. split; [apply list_elem_of_here|done].
    + rewrite IH. split.
      * intros (v' & s & Hin & H). exists v', s. split; [by apply list_elem_of_further|done].
      * intros (v' & s & [->|Hin]%elem_of_cons & Hs & H); [|by exists v', s].
        assert (headerContainsPieces TrimSpace EqualFold value (stringsSplit v ",") = true)
          as Hp' by (apply headerContainsPieces_spec; by exists s).
        congruence.
Qed.

End WebSocketFacts.

(** C6: a request is a WebSocket request exactly when its [Connection]
    header contains the token [upgrade], its [Upgrade] header contains
    the token [websocket] (values split on commas, pieces trimmed and
    compared up to case) and its method does not contain [RDG]. *)
Theorem isWebSocketRequest_iff (TrimSpace : string -> string)
    (EqualFold : string -> string -> bool) (r : httpRequest) :
  isWebSocketRequest TrimSpace EqualFold r = true
  <-> headerHasToken TrimSpace EqualFold (ReqHeader r) "Connection" "upgrade" /\
      headerHasToken TrimSpace EqualFold (ReqHeader r) "Upgrade" "websocket" /\
      ~ hasSubstring (Method r) "RDG".
Proof.
  unfold isWebSocketRequest.
  rewrite <- !headerContains_spec, <- stringsContains_spec.
  destruct (stringsContains (Method r) "RDG").
  - split; [done|]. by intros (_ & _ & []).
  - rewrite andb_true_iff. split; [intros [? ?]; by repeat split|by intros (? & ? & _)].
Qed.

Example websocket_upgrade :
  isWebSocketRequest asciiTrimSpace asciiEqualFold (exampleUpgrade "GET") = true /\
  isWebSocketRequest asciiTrimSpace asciiEqualFold (exampleUpgrade "RDG_OUT_DATA") = false /\
  isWebSocketRequest asciiTrimSpace asciiEqualFold (exampleConnect "a.b:443") = false.
Proof. by vm_compute. Qed.

(** ** [stripPort] and the TLS configuration *)

Lemma stringsIndexRune_range (s : string) (r : ascii) :
  stringsIndexRune s r = -1 \/ 0 <= stringsIndexRune s r.
Proof.
  induction s as [|c s IH]; simpl; [by left|].
  destruct (Ascii.eqb c r); [by right|].
  destruct (Z.eqb_spec (stringsIndexRune s r) (-1)); [by left|right; lia].
Qed.

Lemma prefixBefore_absent (sep : ascii) (s : string) :
  stringsIndexRune s sep = -1 -> prefixBefore sep s = s.
Proof.
  induction s as [|c s IH]; simpl; [done|].
  destruct (Ascii.eqb c sep); [done|].
  destruct (Z.eqb_spec (stringsIndexRune s sep) (-1)) as [E|E].
  - intros _. by rewrite IH.
  - destruct (stringsIndexRune_range s sep); lia.
Qed.

Lemma prefixBefore_app (sep : ascii) (p q : string) :
  stringsIndexRune p sep = -1 -> prefixBefore sep (p +:+ String sep q) = p.
Proof.
  induction p as [|c p IH]; simpl.
  - by rewrite Ascii.eqb_refl.
  - destruct (Ascii.eqb c sep); [done|].
    destruct (Z.eqb_spec (stringsIndexRune p sep) (-1)) as [E|E].
    + intros _. by rewrite IH.
    + destruct (stringsIndexRune_range p sep); lia.
Qed.

Lemma sliceTo_index (s : string) (sep : ascii) :
  stringsIndexRune s sep <> -1 ->
  sliceTo s (stringsIndexRune s sep) = prefixBefore sep s.
Proof.
  unfold sliceTo. induction s as [|c s IH]; simpl; [done|].
  destruct (Ascii.eqb c sep); [done|].
  destruct (Z.eqb_spec (stringsIndexRune s sep) (-1)) as [E|E]; [done|].
  intros _. destruct (stringsIndexRune_range s sep) as [?|Hge]; [done|].
  rewrite Z2Nat.inj_add by lia. rewrite Nat.add_comm. simpl.
  f_equal. by apply IH.
Qed.


(** ** The Accept mode of the CONNECT dispatcher *)

Lemma append_cons (c : ascii) (s t : string) : String c s +:+ t = String c (s +:+ t).
Proof. reflexivity. Qed.

Lemma append_nil_r (s : string) : s +:+ "" = s.
Proof. induction s as [|c s IH]; [done|]. by rewrite append_cons, IH. Qed.

Lemma append_assoc (s t u : string) : (s +:+ t) +:+ u = s +:+ t +:+ u.
Proof. induction s as [|c s IH]; [done|]. by rewrite !append_cons, IH. Qed.

Lemma httpError_sent (w : Conn) (err : string) :
  closed (httpError w err) = true /\
  sent (httpError w err)
  = sent w +:+ (if connWritable w
                then "HTTP/1.1 500 Server error" +:+ CRLF +:+ CRLF +:+ err +:+ CRLF
                else "").
Proof.
  unfold httpError, connWrite, httpErrorMessage.
  destruct (connWritable w); (split; [reflexivity|]); [reflexivity|].
  symmetry. apply append_nil_r.
Qed.

(** C9: in Accept mode the origin is dialled at the host, with [:80]
    appended when it has no port.  When the dial fails the client
    connection gets the 500 message carrying the error and nothing
    else, and is closed; when it succeeds the client connection gets
    the 200 line, and the tunnel starts from there. *)
Theorem handleHttps_accept (netDial : Dialer) (hasPort : string -> bool)
    (proxy : ProxyHttpServer) (OkConnect : ConnectAction) (ctxResp : option string)
    (r : httpRequest) (proxyClient : Conn) (todo : ConnectAction) (host : string) :
  runHttpsHandlers (httpsHandlers proxy) OkConnect (URLHost r) = (todo, host) ->
  Action todo = ConnectAccept ->
  let target := if hasPort host then host else host +:+ ":80" in
  match connectDial netDial proxy "tcp" target with
  | inr err =>
      exists c, handleHttps netDial hasPort proxy OkConnect ctxResp r proxyClient
                = ConnectClosed c /\
        closed c = true /\
        sent c = sent proxyClient
                 +:+ (if connWritable proxyClient
                      then "HTTP/1.1 500 Server error" +:+ CRLF +:+ CRLF +:+ err +:+ CRLF
                      else "")
  | inl targetSiteCon =>
      exists c halfClose,
        handleHttps netDial hasPort proxy OkConnect ctxResp r proxyClient
        = ConnectTunnel target c targetSiteCon halfClose /\
        closed c = closed proxyClient /\
        sent c = sent proxyClient
                 +:+ (if connWritable proxyClient
                      then "HTTP/1.1 200 OK" +:+ CRLF +:+ CRLF else "")
  end.
Proof.
  intros Hrun Hact target. unfold handleHttps. rewrite Hrun, Hact. fold target.
  destruct (connectDial netDial proxy "tcp" target) as [targetSiteCon|err].
  - unfold connWrite. destruct (connWritable proxyClient).
    + by eexists _, _.
    + eexists _, _. split; [reflexivity|]. split; [reflexivity|].
      symmetry. apply append_nil_r.
  - exists (httpError proxyClient err). split; [done|]. apply httpError_sent.
Qed.

Lemma handleHttps_accept_witness :
  (exists c halfClose,
     handleHttps exampleNetDial exampleHasPort exampleProxy exampleOkConnect None
       (exampleConnect "example.com") freshConn
     = ConnectTunnel "example.com:80" c freshConn halfClose /\
     closed c = false /\
     sent c = "HTTP/1.1 200 OK" +:+ CRLF +:+ CRLF) /\
  (exists c,
     handleHttps exampleNetDial exampleHasPort exampleProxy exampleOkConnect None
       (exampleConnect "down.example:443") freshConn
     = ConnectClosed c /\
     closed c = true /\
     sent c = "HTTP/1.1 500 Server error" +:+ CRLF +:+ CRLF
              +:+ "dial tcp down.example:443: connection refused" +:+ CRLF).
Proof.
  split.
  - exact (handleHttps_accept exampleNetDial exampleHasPort exampleProxy exampleOkConnect
             None (exampleConnect "example.com") freshConn exampleOkConnect "example.com"
             eq_refl eq_refl).
  - exact (handleHttps_accept exampleNetDial exampleHasPort exampleProxy exampleOkConnect
             None (exampleConnect "down.example:443") freshConn exampleOkConnect
             "down.example:443" eq_refl eq_refl).
Defined.

(** ** The upstream-proxy dialer *)

Lemma substring_0_length (n : nat) (s : string) :
  (String.length (String.substring 0 n s) <= n)%nat.
Proof.
  revert s. induction n as [|n IH]; intros [|c s]; simpl; try lia.
  specialize (IH s). lia.
Qed.

Lemma substring_0_prefix (n : nat) (s : string) :
  exists rest, s = String.substring 0 n s +:+ rest.
Proof.
  revert s. induction n as [|n IH]; intros [|c s]; simpl.
  - by exists "".
  - by exists (String c s).
  - by exists "".
  - destruct (IH s) as [rest Hrest]. exists rest. by rewrite append_cons, <- Hrest.
Qed.

Lemma length_append (s t : string) :
  String.length (s +:+ t) = (String.length s + String.length t)%nat.
Proof. induction s as [|c s IH]; [done|]. rewrite append_cons. simpl. by rewrite IH. Qed.

(** What is read through [io.LimitReader(r, n)] has at most [n] bytes
    and starts what is read from [r] itself. *)
Lemma ioLimitReader_bound (r : Reader) (n : nat) :
  (String.length (fst (ioutilReadAll (ioLimitReader r n))) <= n)%nat /\
  exists rest, fst (ioutilReadAll r) = fst (ioutilReadAll (ioLimitReader r n)) +:+ rest.
Proof.
  revert n. induction r as [|[d|e] r IH]; intros [|n]; cbn [ioLimitReader ioutilReadAll fst].
  - split; [done|by exists ""].
  - split; [simpl; lia|by exists ""].
  - split; [done|]. by eexists.
  - destruct (Nat.leb_spec (S n) (String.length d)) as [Hle|Hgt].
    + cbn [ioutilReadAll fst]. rewrite append_nil_r. split; [apply substring_0_length|].
      destruct (substring_0_prefix (S n) d) as [rest Hrest].
      destruct (ioutilReadAll r) as [all err]. cbn [fst].
      exists (rest +:+ all). by rewrite <- append_assoc, <- Hrest.
    + cbn [ioutilReadAll]. specialize (IH (S n - String.length d)%nat).
      destruct (ioutilReadAll (ioLimitReader r _)) as [b1 e1].
      destruct (ioutilReadAll r) as [all err]. cbn [fst] in *.
      destruct IH as [Hlen [rest Hrest]]. split.
      * rewrite length_append. lia.
      * exists rest. by rewrite append_assoc, Hrest.
  - split; [done|by exists ""].
  - split; [simpl; lia|by exists ""].
Qed.

(** C8 (as amended): a proxy answer other than 200 whose body is read
    without error ends the dial with the proxy connection closed, no
    connection returned, and the error "proxy refused connection"
    followed by the body; through TLS the body is what the 500-byte
    limit lets through. *)
Theorem connectDial_refused (netDial : Dialer) (requestWrite : httpRequest -> string)
    (httpReadResponse : Conn -> httpRequest -> httpResponse + string)
    (tlsClient : Conn -> Conn) (proxy : ProxyHttpServer) (u : URL)
    (connectReqHandler : option (httpRequest -> httpRequest))
    (network addr : string) (tls : bool) (c0 : Conn) (resp : httpResponse) (body : string) :
  let connectReq := newConnectReq connectReqHandler addr in
  let c := fst (connWrite (if tls then tlsClient c0 else c0) (requestWrite connectReq)) in
  dial netDial proxy network (Host u) = inl c0 ->
  httpReadResponse c connectReq = inl resp ->
  StatusCode resp <> 200 ->
  refusedBody tls resp = (body, None) ->
  (if tls
   then connectDialTLS netDial requestWrite httpReadResponse tlsClient proxy u
          connectReqHandler network addr
   else connectDialHTTP netDial requestWrite httpReadResponse proxy u
          connectReqHandler network addr)
  = {| dialConn := None;
       dialErr := Some ("proxy refused connection" +:+ body);
       proxyConn := Some (fst (connClose c)) |} /\
  closed (fst (connClose c)) = true /\
  (if tls
   then (String.length body <= 500)%nat /\
        exists rest, fst (ioutilReadAll (Body resp)) = body +:+ rest
   else body = fst (ioutilReadAll (Body resp))).
Proof.
  intros connectReq c Hdial Hresp Hcode Hbody. unfold refusedBody in Hbody.
  split; [|split; [done|]].
  - destruct tls; unfold connectDialTLS, connectDialHTTP; rewrite Hdial;
      fold connectReq;
      [destruct (connWrite (tlsClient c0) (requestWrite connectReq)) as [c1 e1] eqn:Hw
      |destruct (connWrite c0 (requestWrite connectReq)) as [c1 e1] eqn:Hw];
      subst c; cbn [fst] in *; rewrite Hresp;
      rewrite (proj2 (Z.eqb_neq _ _) Hcode); cbn [negb]; by rewrite Hbody.
  - destruct tls.
    + destruct (ioLimitReader_bound (Body resp) 500) as [Hlen Hpre].
      by rewrite Hbody in Hlen, Hpre.
    + by rewrite Hbody.
Qed.

Lemma connectDial_refused_witness :
  connectDialHTTP exampleUpstreamDial exampleRequestWrite (exampleReadResponse example407)
    exampleProxy exampleURL None "tcp" "example.com:443"
  = {| dialConn := None;
       dialErr := Some "proxy refused connectionauth required";
       proxyConn :=
         Some {| sent := exampleRequestWrite (newConnectReq None "example.com:443");
                 closed := true; quota := None; halfClosable := true |} |} /\
  closed (fst (connClose (fst (connWrite freshConn
            (exampleRequestWrite (newConnectReq None "example.com:443")))))) = true /\
  "auth required" = fst (ioutilReadAll (Body example407)).
Proof.
  exact (connectDial_refused exampleUpstreamDial exampleRequestWrite
           (exampleReadResponse example407) (fun c => c) exampleProxy exampleURL None
           "tcp" "example.com:443" false freshConn example407 "auth required"
           eq_refl eq_refl ltac:(discriminate) eq_refl).
Defined.

(** C8 as stated fails when the body of the refusal cannot be read to
    its end: the dial returns the read error, and the connection to the
    proxy is left open. *)
Lemma connectDial_refused_counterexample :
  connectDialHTTP exampleUpstreamDial exampleRequestWrite
    (exampleReadResponse example407Broken) exampleProxy exampleURL None
    "tcp" "example.com:443"
  = {| dialConn := None;
       dialErr := Some "unexpected EOF";
       proxyConn :=
         Some {| sent := exampleRequestWrite (newConnectReq None "example.com:443");
                 closed := false; quota := None; halfClosable := true |} |} /\
  stringsContains "unexpected EOF" "proxy refused connection" = false.
Proof. by vm_compute. Qed.

(** ** The response writer of the MITM loop *)

Lemma connWrite_healthy (w : Conn) (data : string) :
  healthy w -> connWrite w data = (appendSent w data, None).
Proof.
  intros [Hc Hq]. unfold connWrite, connWritable, appendSent. by rewrite Hc, Hq.
Qed.

Lemma appendSent_healthy (w : Conn) (data : string) :
  healthy w -> healthy (appendSent w data).
Proof. by intros [Hc Hq]. Qed.

Lemma appendSent_appendSent (w : Conn) (s t : string) :
  appendSent (appendSent w s) t = appendSent w (s +:+ t).
Proof. unfold appendSent. cbn [sent closed quota halfClosable]. by rewrite append_assoc. Qed.

Lemma appendSent_nil (w : Conn) : appendSent w "" = w.
Proof. destruct w. unfold appendSent. cbn [sent closed quota halfClosable]. by rewrite append_nil_r. Qed.

Lemma chunkFrames_app (r1 r2 : Reader) :
  chunkFrames (r1 ++ r2) = chunkFrames r1 +:+ chunkFrames r2.
Proof.
  induction r1 as [|[d|e] r1 IH]; cbn [chunkFrames app]; [done| |done].
  by rewrite IH, append_assoc.
Qed.

Lemma chunkedWrite_healthy (w : Conn) (d : string) :
  healthy w ->
  chunkedWrite w d
  = (appendSent w (chunkFrame d), if String.eqb d "" then 0 else Z.of_nat (String.length d), None).
Proof.
  intros Hw. unfold chunkedWrite, chunkFrame. destruct (String.eqb d "").
  - by rewrite appendSent_nil.
  - rewrite connWrite_healthy by done. cbv beta iota.
    rewrite connWrite_healthy by by apply appendSent_healthy. cbv beta iota.
    rewrite connWrite_healthy by by do 2 apply appendSent_healthy.
    by rewrite !appendSent_appendSent, !append_assoc.
Qed.

Lemma writeStrings_healthy (w : Conn) (pieces : list string) :
  healthy w ->
  writeStrings w pieces = (appendSent w (fold_right append "" pieces), None).
Proof.
  revert w. induction pieces as [|s pieces IH]; intros w Hw; cbn [writeStrings fold_right].
  - by rewrite appendSent_nil.
  - rewrite connWrite_healthy by done. cbv beta iota.
    rewrite IH by by apply appendSent_healthy.
    by rewrite appendSent_appendSent.
Qed.

(** One [io.Copy] on a healthy connection: it frames a prefix of the
    reader and stops at the end of the reader or behind its first error. *)
Lemma ioCopyChunked_healthy (src : Reader) (w : Conn) (written : Z) :
  healthy w ->
  exists consumed rest written' err,
    ioCopyChunked w src written
    = (appendSent w (chunkFrames consumed), rest, written', err) /\
    src = consumed ++ rest /\
    written <= written' /\
    (consumed = [] -> written' = written) /\
    ((forall e, ReadErr e ∉ src) -> rest = []).
Proof.
  revert w written. induction src as [|[d|e] src IH]; intros w written Hw;
    cbn [ioCopyChunked].
  - exists [], [], written, None. rewrite appendSent_nil.
    split; [done|]. split; [done|]. split; [lia|]. by split.
  - destruct (String.eqb d "") eqn:Hd.
    + destruct (IH w written Hw) as (consumed & rest & written' & err & -> & -> & Hle & _ & Hno).
      exists (ReadData d :: consumed), rest, written', err.
      cbn [chunkFrames]. unfold chunkFrame. rewrite Hd.
      split; [done|]. split; [done|]. split; [lia|]. split; [done|].
      intros Hsrc. apply Hno. intros e' Hin. apply (Hsrc e'). by apply list_elem_of_further.
    + rewrite chunkedWrite_healthy by done. rewrite Hd.
      destruct (IH (appendSent w (chunkFrame d)) (written + Z.of_nat (String.length d))
                  (appendSent_healthy _ _ Hw))
        as (consumed & rest & written' & err & -> & -> & Hle & _ & Hno).
      exists (ReadData d :: consumed), rest, written', err.
      rewrite appendSent_appendSent. cbn [chunkFrames].
      split; [done|]. split; [done|]. split; [lia|]. split; [done|].
      intros Hsrc. apply Hno. intros e' Hin. apply (Hsrc e'). by apply list_elem_of_further.
  - exists [ReadErr e], src, written, (Some e). cbn [chunkFrames]. rewrite appendSent_nil.
    split; [done|]. split; [done|]. split; [lia|]. split; [done|].
    intros Hsrc. destruct (Hsrc e). apply list_elem_of_here.
Qed.

(** One [io.Copy] on any connection shortens a non-empty reader, and
    writes nothing when the reader is at its end. *)
Lemma ioCopyChunked_progress (src : Reader) (w : Conn) (written : Z) :
  let '(_, rest, written', _) := ioCopyChunked w src written in
  (length rest <= length src)%nat /\
  (written < written' -> (length rest < length src)%nat).
Proof.
  revert w written. induction src as [|[d|e] src IH]; intros w written;
    cbn [ioCopyChunked].
  - split; [done|lia].
  - destruct (String.eqb d "").
    + specialize (IH w written). destruct (ioCopyChunked w src written) as [[[? rest] written'] ?].
      cbn [length]. split; [lia|]. intros. lia.
    + destruct (chunkedWrite w d) as [[w1 nw] [ew|]].
      * cbn [length]. split; lia.
      * specialize (IH w1 (written + nw)).
        destruct (ioCopyChunked w1 src (written + nw)) as [[[? rest] written'] ?].
        cbn [length]. split; [lia|]. intros. lia.
  - cbn [length]. split; lia.
Qed.

(** The loop of lines 375-380 ends within the fuel [writeResponse]
    gives it, on every connection. *)
Lemma copyBodyLoop_terminates (fuel : nat) (w : Conn) (body : Reader) :
  (length body < fuel)%nat -> copyBodyLoop fuel w body <> None.
Proof.
  revert w body. induction fuel as [|fuel IH]; intros w body Hlen; [lia|].
  cbn [copyBodyLoop]. pose proof (ioCopyChunked_progress body w 0) as Hprog.
  destruct (ioCopyChunked w body 0) as [[[w1 rest] written'] err].
  destruct (Z.ltb_spec 0 written'); [|done].
  apply IH. lia.
Qed.

Lemma copyBodyLoop_healthy (fuel : nat) (w : Conn) (body : Reader) :
  healthy w -> (length body < fuel)%nat ->
  exists consumed rest,
    copyBodyLoop fuel w body = Some (appendSent w (chunkFrames consumed), rest) /\
    body = consumed ++ rest /\
    ((forall e, ReadErr e ∉ body) -> rest = []).
Proof.
  revert w body. induction fuel as [|fuel IH]; intros w body Hw Hlen; [lia|].
  cbn [copyBodyLoop].
  destruct (ioCopyChunked_healthy body w 0 Hw)
    as (consumed & rest & written' & err & Hcopy & -> & Hle & Hnil & Hno).
  rewrite Hcopy. destruct (Z.ltb_spec 0 written') as [Hpos|Hzero].
  - assert (consumed <> []) as Hne by (intros ->%Hnil; lia).
    destruct (IH (appendSent w (chunkFrames consumed)) rest (appendSent_healthy _ _ Hw))
      as (consumed2 & rest2 & -> & -> & Hno2).
    { rewrite length_app in Hlen. destruct consumed; [done|]. simpl in Hlen. lia. }
    exists (consumed ++ consumed2), rest2.
    rewrite appendSent_appendSent, chunkFrames_app, app_assoc.
    split; [done|]. split; [done|].
    intros Hbody. apply Hno2. intros e Hin. apply (Hbody e).
    revert Hin. rewrite !elem_of_app. tauto.
  - by exists consumed, rest.
Qed.

Lemma substring_skip (p t : string) (n : nat) :
  String.substring (String.length p) n (p +:+ t) = String.substring 0 n t.
Proof. induction p as [|c p IH]; [done|]. rewrite append_cons. simpl. exact IH. Qed.

Lemma substring_full (t : string) : String.substring 0 (String.length t) t = t.
Proof. induction t as [|c t IH]; simpl; [done|]. by rewrite IH. Qed.

Lemma sliceFrom_prefix (s p : string) :
  stringsHasPrefix s p = true -> s = p +:+ sliceFrom s (Z.of_nat (String.length p)).
Proof.
  intros [post ->]%stringsHasPrefix_spec. unfold sliceFrom.
  rewrite Nat2Z.id, length_append, substring_skip.
  replace (String.length p + String.length post - String.length p)%nat
    with (String.length post) by lia.
  by rewrite substring_full.
Qed.

Lemma chunkedHeader_lookup (h : Header) :
  chunkedHeader h !! "Content-Length" = None /\
  chunkedHeader h !! "Transfer-Encoding" = Some ["chunked"] /\
  forall k, k <> "Content-Length" -> k <> "Transfer-Encoding" ->
            chunkedHeader h !! k = h !! k.
Proof.
  unfold chunkedHeader, headerSet, headerDel.
  change (CanonicalMIMEHeaderKey "Content-Length") with "Content-Length".
  change (CanonicalMIMEHeaderKey "Transfer-Encoding") with "Transfer-Encoding".
  split; [|split].
  - rewrite lookup_insert_ne by done. apply lookup_delete_eq.
  - apply lookup_insert_eq.
  - intros k H1 H2. rewrite lookup_insert_ne by done. by rewrite lookup_delete_ne.
Qed.

(** C7: on a connection that takes the writes, the response goes out
    as an [HTTP/1.1] status line whatever the protocol of the origin
    answer, the header without [Content-Length] and with
    [Transfer-Encoding: chunked], a blank line, the body in chunks, the
    closing chunk and a final CRLF; the loop then reads the next request. *)
Theorem writeResponse_chunked (headerWrite : Header -> list string) (w : Conn)
    (resp : httpResponse) :
  closed w = false ->
  quota w = None ->
  exists w' header reason consumed rest,
    writeResponse headerWrite w resp = (w', rest, NextRequest) /\
    sent w' = sent w +:+ "HTTP/1.1 " +:+ strconvItoa (StatusCode resp) +:+ " "
                +:+ reason +:+ CRLF
                +:+ fold_right append "" (headerWrite header) +:+ CRLF
                +:+ chunkFrames consumed +:+ "0" +:+ CRLF +:+ CRLF /\
    (Status resp = strconvItoa (StatusCode resp) +:+ " " +:+ reason \/
     stringsHasPrefix (Status resp) (strconvItoa (StatusCode resp) +:+ " ") = false /\
     reason = Status resp) /\
    header !! "Content-Length" = None /\
    header !! "Transfer-Encoding" = Some ["chunked"] /\
    (forall k, k <> "Content-Length" -> k <> "Transfer-Encoding" ->
               header !! k = RespHeader resp !! k) /\
    Body resp = consumed ++ rest /\
    ((forall e, ReadErr e ∉ Body resp) -> rest = []).
Proof.
  intros Hc Hq. assert (healthy w) as Hw by done.
  unfold writeResponse.
  rewrite connWrite_healthy by done. cbv beta iota.
  rewrite writeStrings_healthy by by apply appendSent_healthy. cbv beta iota.
  rewrite connWrite_healthy by by do 2 apply appendSent_healthy. cbv beta iota.
  destruct (copyBodyLoop_healthy (S (length (Body resp)))
              (appendSent (appendSent (appendSent w (statusLine resp))
                 (fold_right append "" (headerWrite (chunkedHeader (RespHeader resp))))) CRLF)
              (Body resp))
    as (consumed & rest & -> & Hbody & Hrest);
    [by do 3 apply appendSent_healthy|lia|].
  unfold chunkedClose.
  rewrite connWrite_healthy by by do 4 apply appendSent_healthy. cbv beta iota.
  rewrite connWrite_healthy by by do 5 apply appendSent_healthy.
  rewrite !appendSent_appendSent.
  destruct (chunkedHeader_lookup (RespHeader resp)) as (H1 & H2 & H3).
  eexists _, (chunkedHeader (RespHeader resp)),
    (if stringsHasPrefix (Status resp) (strconvItoa (StatusCode resp) +:+ " ")
     then sliceFrom (Status resp)
            (Z.of_nat (String.length (strconvItoa (StatusCode resp) +:+ " ")))
     else Status resp), consumed, rest.
  split; [reflexivity|]. split.
  { cbn [sent appendSent]. unfold statusLine. by rewrite !append_assoc. }
  split; [|done].
  destruct (stringsHasPrefix _ _) eqn:Hp; [left|by right].
  rewrite <- append_assoc. by apply sliceFrom_prefix.
Qed.

Lemma writeResponse_chunked_witness :
  exists w' header reason consumed rest,
    writeResponse exampleHeaderWrite freshConn exampleResponse = (w', rest, NextRequest) /\
    sent w' = sent freshConn +:+ "HTTP/1.1 " +:+ strconvItoa (StatusCode exampleResponse)
                +:+ " " +:+ reason +:+ CRLF
                +:+ fold_right append "" (exampleHeaderWrite header) +:+ CRLF
                +:+ chunkFrames consumed +:+ "0" +:+ CRLF +:+ CRLF /\
    (Status exampleResponse = strconvItoa (StatusCode exampleResponse) +:+ " " +:+ reason \/
     stringsHasPrefix (Status exampleResponse)
       (strconvItoa (StatusCode exampleResponse) +:+ " ") = false /\
     reason = Status exampleResponse) /\
    header !! "Content-Length" = None /\
    header !! "Transfer-Encoding" = Some ["chunked"] /\
    (forall k, k <> "Content-Length" -> k <> "Transfer-Encoding" ->
               header !! k = RespHeader exampleResponse !! k) /\
    Body exampleResponse = consumed ++ rest /\
    ((forall e, ReadErr e ∉ Body exampleResponse) -> rest = []).
Proof.
  exact (writeResponse_chunked exampleHeaderWrite freshConn exampleResponse eq_refl eq_refl).
Defined.

(** The bytes of the example, spelled out. *)
Example exampleResponse_wire :
  sent (fst (fst (writeResponse exampleHeaderWrite freshConn exampleResponse)))
  = "HTTP/1.1 200 OK" +:+ CRLF
    +:+ "Transfer-Encoding: chunked" +:+ CRLF
    +:+ "X-Origin: a.b" +:+ CRLF
    +:+ CRLF
    +:+ "2" +:+ CRLF +:+ "hi" +:+ CRLF
    +:+ "0" +:+ CRLF
    +:+ CRLF.
Proof. by vm_compute. Qed.

(** ** More on the signer: the hash, the cache and the failures *)

Lemma sortStrings_permutation (l l' : list string) :
  l ≡ₚ l' -> sortStrings l = sortStrings l'.
Proof.
  intros Hp. apply sortStrings_unique; [apply sortStrings_sorted|].
  by rewrite sortStrings_perm.
Qed.

(** X1: the hash does not depend on the order of the list, so neither
    does the serial of the template. *)
Theorem hashSorted_permutation (env : CryptoEnv) (x509ca : x509Certificate)
    (start end_ : Z) (l l' : list string) :
  l ≡ₚ l' ->
  hashSorted l = hashSorted l' /\
  hashSortedBigInt l = hashSortedBigInt l' /\
  SerialNumber (signHostTemplate env x509ca start end_ l)
  = SerialNumber (signHostTemplate env x509ca start end_ l').
Proof.
  intros Hp.
  assert (forall a b : list string, a ≡ₚ b -> hashSorted a = hashSorted b) as Hh.
  { intros a b Hab. unfold hashSorted. by rewrite (sortStrings_permutation a b Hab). }
  split; [by apply Hh|]. split; [unfold hashSortedBigInt; by rewrite (Hh l l')|].
  destruct (signHostTemplate_fields env x509ca start end_ l) as (-> & _).
  destruct (signHostTemplate_fields env x509ca start end_ l') as (-> & _).
  unfold signHostHash. f_equal. apply Hh. by apply Permutation_app_tail.
Qed.

Lemma hashSorted_permutation_witness :
  hashSorted ["b.example"; "a.example"] = hashSorted ["a.example"; "b.example"] /\
  hashSortedBigInt ["b.example"; "a.example"] = hashSortedBigInt ["a.example"; "b.example"] /\
  SerialNumber (signHostTemplate exampleEnv
                  {| SerialNumber := 1; Issuer := {| CommonName := "ca"; Organization := [] |};
                     Subject := {| CommonName := "ca"; Organization := [] |};
                     NotBefore := 0; NotAfter := 0; KeyUsage := 0; ExtKeyUsage := [];
                     BasicConstraintsValid := true; IPAddresses := []; DNSNames := [] |}
                  0 1 ["b.example"; "a.example"])
  = SerialNumber (signHostTemplate exampleEnv
                  {| SerialNumber := 1; Issuer := {| CommonName := "ca"; Organization := [] |};
                     Subject := {| CommonName := "ca"; Organization := [] |};
                     NotBefore := 0; NotAfter := 0; KeyUsage := 0; ExtKeyUsage := [];
                     BasicConstraintsValid := true; IPAddresses := []; DNSNames := [] |}
                  0 1 ["a.example"; "b.example"]).
Proof.
  apply (hashSorted_permutation exampleEnv _ 0 1 ["b.example"; "a.example"]
           ["a.example"; "b.example"]).
  apply perm_swap.
Defined.

Lemma land_255_range (x : Z) : 0 <= Z.land x 255 < 256.
Proof.
  change 255 with (Z.ones 8). rewrite Z.land_ones by lia.
  change (2 ^ 8) with 256. apply Z.mod_pos_bound. lia.
Qed.

Lemma bytes_of_w32_range (x : Z) : Forall (fun b => 0 <= b < 256) (SHA1.bytes_of_w32 x).
Proof. unfold SHA1.bytes_of_w32. repeat constructor; apply land_255_range. Qed.

Lemma sha1_sum_shape (msg : list Z) :
  length (SHA1.sum msg) = 20%nat /\ Forall (fun b => 0 <= b < 256) (SHA1.sum msg).
Proof.
  unfold SHA1.sum.
  destruct (fold_left SHA1.block _ SHA1.init) as [[[[h0 h1] h2] h3] h4].
  split; [reflexivity|].
  repeat (apply Forall_app; split); apply bytes_of_w32_range.
Qed.

Lemma bigIntSetBytes_fold (bs : list Z) (acc : Z) :
  Forall (fun b => 0 <= b < 256) bs -> 0 <= acc ->
  acc * 256 ^ Z.of_nat (length bs)
  <= fold_left (fun acc b => acc * 256 + b) bs acc
  < (acc + 1) * 256 ^ Z.of_nat (length bs).
Proof.
  intros Hbs. revert acc. induction Hbs as [|b bs Hb Hbs IH]; intros acc Hacc.
  - simpl. lia.
  - cbn [fold_left length]. rewrite Nat2Z.inj_succ, Z.pow_succ_r by lia.
    specialize (IH (acc * 256 + b) ltac:(lia)).
    assert (0 < 256 ^ Z.of_nat (length bs)) by (apply Z.pow_pos_nonneg; lia).
    nia.
Qed.

(** X2: the hash has 20 bytes, and the number read from it, which
    [signHost] uses as serial, is non-negative and below 2^160. *)
Theorem hashSorted_range (lst : list string) :
  length (hashSorted lst) = 20%nat /\
  Forall (fun b => 0 <= b < 256) (hashSorted lst) /\
  0 <= hashSortedBigInt lst < 2 ^ 160.
Proof.
  rewrite hashSorted_sum.
  destruct (sha1_sum_shape (bytes_of_string (commaTerminated (sortStrings lst))))
    as [Hlen Hall].
  unfold hashSortedBigInt, bigIntSetBytes. rewrite hashSorted_sum.
  split; [done|]. split; [done|].
  pose proof (bigIntSetBytes_fold _ 0 Hall ltac:(lia)) as Hb.
  rewrite Hlen in Hb. change (256 ^ Z.of_nat 20) with (2 ^ 160) in Hb. lia.
Qed.

Lemma cacheStore_fold_lookup (hosts : list string) (cert : tlsCertificate)
    (m : gmap string tlsCertificate) (k : string) :
  fold_left (fun m h => <[h := cert]> m) hosts m !! k
  = if decide (k ∈ hosts) then Some cert else m !! k.
Proof.
  revert m. induction hosts as [|h hosts IH]; intros m; cbn [fold_left].
  - rewrite decide_False; [done|apply not_elem_of_nil].
  - rewrite IH. destruct (decide (k ∈ hosts)) as [Hin|Hout].
    + rewrite decide_True; [done|by apply list_elem_of_further].
    + destruct (decide (k = h)) as [->|Hne].
      * rewrite decide_True by apply list_elem_of_here. apply lookup_insert_eq.
      * rewrite decide_False; [by apply lookup_insert_ne|].
        intros [?|?]%elem_of_cons; done.
Qed.

(** X3: a call that mints stores the certificate under every host of
    the list and touches no other entry of the cache. *)
Theorem signHost_stores_every_host (env : CryptoEnv) (ca : tlsCertificate)
    (hosts : list string) (hm hm' : hostMapT) (cert : tlsCertificate) :
  cacheLookup hm hosts = None ->
  signHost env ca hosts hm = Returns (cert, None) hm' ->
  exists m', hm' = Some m' /\
    (forall h, h ∈ hosts -> m' !! h = Some cert) /\
    (forall h, h ∉ hosts -> m' !! h = default ∅ hm !! h).
Proof.
  intros Hmiss Hret.
  destruct (signHost_minted env ca hosts hm hm' cert Hmiss Hret)
    as (? & ? & ? & ? & ? & ? & ? & ? & _ & _ & _ & _ & _ & _ & ->).
  unfold cacheStore. eexists. split; [reflexivity|]. split; intros h Hh.
  - rewrite cacheStore_fold_lookup. by rewrite decide_True.
  - rewrite cacheStore_fold_lookup. rewrite decide_False by done. by destruct hm.
Qed.

Lemma signHost_stores_every_host_witness :
  exists cert hm',
    cacheLookup None ["a.example"; "10.0.0.1"] = None /\
    signHost exampleEnv exampleCA ["a.example"; "10.0.0.1"] None = Returns (cert, None) hm' /\
    exists m', hm' = Some m' /\
      (forall h, h ∈ ["a.example"; "10.0.0.1"] -> m' !! h = Some cert) /\
      (forall h, h ∉ ["a.example"; "10.0.0.1"]
                 -> m' !! h = default ∅ (None : hostMapT) !! h).
Proof.
  eexists _, _. split; [reflexivity|]. split; [vm_compute; reflexivity|].
  eapply (signHost_stores_every_host exampleEnv exampleCA ["a.example"; "10.0.0.1"] None);
    [reflexivity|vm_compute; reflexivity].
Defined.

(** X4: after a call that minted, every call whose list starts with one
    of those hosts gets that certificate back, with the cache unchanged,
    whatever the rest of its list and whatever CA it passes. *)
Theorem signHost_cache_ignores_ca (env : CryptoEnv) (ca ca' : tlsCertificate)
    (hosts : list string) (hm hm' : hostMapT) (cert : tlsCertificate)
    (h : string) (rest : list string) :
  cacheLookup hm hosts = None ->
  signHost env ca hosts hm = Returns (cert, None) hm' ->
  h ∈ hosts ->
  signHost env ca' (h :: rest) hm' = Returns (cert, None) hm'.
Proof.
  intros Hmiss Hret Hin.
  destruct (signHost_minted env ca hosts hm hm' cert Hmiss Hret)
    as (? & ? & ? & ? & ? & ? & ? & ? & _ & _ & _ & _ & _ & _ & ->).
  unfold cacheStore. apply signHost_cached.
  rewrite cacheStore_fold_lookup. by rewrite decide_True.
Qed.

Lemma signHost_cache_ignores_ca_witness :
  exists cert hm',
    cacheLookup None ["a.example"; "10.0.0.1"] = None /\
    signHost exampleEnv exampleCA ["a.example"; "10.0.0.1"] None = Returns (cert, None) hm' /\
    "10.0.0.1" ∈ ["a.example"; "10.0.0.1"] /\
    signHost exampleEnv exampleEmptyCA ["10.0.0.1"; "c.example"] hm'
    = Returns (cert, None) hm'.
Proof.
  eexists _, _. split; [reflexivity|]. split; [vm_compute; reflexivity|].
  split; [apply list_elem_of_further, list_elem_of_here|].
  eapply (signHost_cache_ignores_ca exampleEnv exampleCA exampleEmptyCA
            ["a.example"; "10.0.0.1"] None);
    [reflexivity|vm_compute; reflexivity|apply list_elem_of_further, list_elem_of_here].
Defined.

(** X5: [signHost] panics exactly when the cache does not answer and
    the CA carries no certificate; the date of line 58 always parses. *)
Theorem signHost_panics_iff (env : CryptoEnv) (ca : tlsCertificate)
    (hosts : list string) (hm : hostMapT) :
  (exists msg, signHost env ca hosts hm = Panics msg)
  <-> cacheLookup hm hosts = None /\ Certificate ca = [].
Proof.
  unfold signHost, mbind, Signer_bind, getHostMap, index0, panic, mret, Signer_ret,
    setHostMap.
  rewrite timeParseDate_end.
  destruct (cacheLookup hm hosts) as [answer|].
  { split; [by intros [msg ?]|by intros [? _]]. }
  destruct (Certificate ca) as [|ca0 rest].
  { split; [done|]. intros _. by eexists. }
  split; [|by intros [_ ?]]. intros [msg Hp]. exfalso. revert Hp.
  destruct (ParseCertificate env ca0) as [x509ca|e]; [|done].
  destruct (NewCounterEncryptorRandFromKey env _ _) as [csprng|e]; [|done].
  destruct (GenerateKey env csprng 2048) as [[certpriv|e] csprng1]; [|done].
  by destruct (CreateCertificate env csprng1 _ _ _ _) as [[derBytes|e] csprng2].
Qed.

Lemma signHost_error_inv (env : CryptoEnv) (ca : tlsCertificate)
    (hosts : list string) (hm hm' : hostMapT) (cert : tlsCertificate) (err : string) :
  signHost env ca hosts hm = Returns (cert, Some err) hm' ->
  cert = zeroCertificate /\ hm' = hm /\ cacheLookup hm hosts = None.
Proof.
  unfold signHost, mbind, Signer_bind, getHostMap, index0, panic, mret, Signer_ret,
    setHostMap.
  rewrite timeParseDate_end.
  destruct (cacheLookup hm hosts) as [[c e]|] eqn:Hlook.
  { assert (e = None) as ->; [|done]. unfold cacheLookup in Hlook.
    destruct hm as [m|]; [|done]. destruct hosts as [|h0 ?]; [congruence|].
    destruct (m !! h0); congruence. }
  destruct (Certificate ca) as [|ca0 rest]; [done|].
  destruct (ParseCertificate env ca0) as [x509ca|e]; [|by intros [= <- <- <-]].
  destruct (NewCounterEncryptorRandFromKey env _ _) as [csprng|e]; [|by intros [= <- <- <-]].
  destruct (GenerateKey env csprng 2048) as [[certpriv|e] csprng1]; [|by intros [= <- <- <-]].
  by destruct (CreateCertificate env csprng1 _ _ _ _) as [[derBytes|e] csprng2];
    [|intros [= <- <- <-]].
Qed.

(** X6: a call that returns an error returns the zero certificate and
    leaves the cache as it found it. *)
Theorem signHost_error_keeps_cache (env : CryptoEnv) (ca : tlsCertificate)
    (hosts : list string) (hm hm' : hostMapT) (cert : tlsCertificate) (err : string) :
  signHost env ca hosts hm = Returns (cert, Some err) hm' ->
  cert = zeroCertificate /\ hm' = hm /\ cacheLookup hm hosts = None.
Proof. apply signHost_error_inv. Qed.

Lemma signHost_error_keeps_cache_witness :
  signHost exampleEnv exampleBadCA ["a.example"] (Some ∅)
  = Returns (zeroCertificate, Some "x509: malformed certificate") (Some ∅) /\
  zeroCertificate = zeroCertificate /\
  (Some ∅ : hostMapT) = Some ∅ /\
  cacheLookup (Some ∅) ["a.example"] = None.
Proof.
  split; [reflexivity|].
  apply (signHost_error_keeps_cache exampleEnv exampleBadCA ["a.example"] (Some ∅) (Some ∅)
           zeroCertificate "x509: malformed certificate").
  reflexivity.
Defined.

(** X7: a call that the cache does not answer returns a certificate
    exactly when the CA has a first certificate that parses, the reader
    is seeded from the CA key and the hash, and key generation and
    certificate creation succeed.  The certificate is then the chain of
    the new leaf followed by the first certificate of the CA; its
    private key is the key [rsa.GenerateKey] returned in this call for
    2048 bits on the seeded reader; the leaf was created for the public
    half of that key, from the reader as key generation left it, with
    the subject of the CA certificate as issuer; and the cache holds
    the certificate under the hosts of the list. *)
Theorem signHost_chain (env : CryptoEnv) (ca : tlsCertificate)
    (hosts : list string) (hm hm' : hostMapT) (cert : tlsCertificate) :
  cacheLookup hm hosts = None ->
  signHost env ca hosts hm = Returns (cert, None) hm' <->
  exists ca0 rest x509ca csprng certpriv csprng1 derBytes csprng2,
    let template := signHostTemplate env x509ca (timeUnix 0 0) notAfter2049 hosts in
    Certificate ca = ca0 :: rest /\
    ParseCertificate env ca0 = inl x509ca /\
    NewCounterEncryptorRandFromKey env (PrivateKey ca)
      (hashSorted (hosts ++ [goproxySignerVersion; ":" +:+ runtimeVersion env]))
    = inl csprng /\
    GenerateKey env csprng 2048 = (inl certpriv, csprng1) /\
    CreateCertificate env csprng1 template x509ca (rsaPublicKey certpriv) (PrivateKey ca)
    = (inl derBytes, csprng2) /\
    Issuer template = Subject x509ca /\
    cert = {| Certificate := [derBytes; ca0]; PrivateKey := Some (RSAKey certpriv) |} /\
    hm' = cacheStore hm hosts cert.
Proof.
  intros Hmiss. split.
  - intros Hret.
    destruct (signHost_minted env ca hosts hm hm' cert Hmiss Hret)
      as (ca0 & rest & x509ca & csprng & certpriv & csprng1 & der & csprng2
          & Hca & Hparse & Hnew & Hgen & Hcreate & Hcert & Hhm).
    exists ca0, rest, x509ca, csprng, certpriv, csprng1, der, csprng2.
    cbv zeta. split; [done|]. split; [done|]. split; [done|]. split; [done|].
    split; [done|]. split; [|done].
    by destruct (signHostTemplate_fields env x509ca (timeUnix 0 0) notAfter2049 hosts)
      as (_ & ? & _).
  - intros (ca0 & rest & x509ca & csprng & certpriv & csprng1 & der & csprng2
            & Hca & Hparse & Hnew & Hgen & Hcreate & _ & -> & ->).
    by apply (signHost_mints env ca hosts hm ca0 rest x509ca csprng csprng1 csprng2).
Qed.

Lemma signHost_chain_witness :
  exists cert hm',
    cacheLookup None ["a.example"] = None /\
    signHost exampleEnv exampleCA ["a.example"] None = Returns (cert, None) hm' /\
    exists ca0 rest x509ca csprng certpriv csprng1 derBytes csprng2,
      let template :=
        signHostTemplate exampleEnv x509ca (timeUnix 0 0) notAfter2049 ["a.example"] in
      Certificate exampleCA = ca0 :: rest /\
      ParseCertificate exampleEnv ca0 = inl x509ca /\
      NewCounterEncryptorRandFromKey exampleEnv (PrivateKey exampleCA)
        (hashSorted (["a.example"]
                     ++ [goproxySignerVersion; ":" +:+ runtimeVersion exampleEnv]))
      = inl csprng /\
      GenerateKey exampleEnv csprng 2048 = (inl certpriv, csprng1) /\
      CreateCertificate exampleEnv csprng1 template x509ca (rsaPublicKey certpriv)
        (PrivateKey exampleCA)
      = (inl derBytes, csprng2) /\
      Issuer template = Subject x509ca /\
      cert = {| Certificate := [derBytes; ca0]; PrivateKey := Some (RSAKey certpriv) |} /\
      hm' = cacheStore None ["a.example"] cert.
Proof.
  eexists _, _. split; [reflexivity|]. split; [vm_compute; reflexivity|].
  apply (proj1 (signHost_chain exampleEnv exampleCA ["a.example"] None _ _ eq_refl)).
  vm_compute; reflexivity.
Defined.

(** ** More on [stripPort] and [TLSConfigFromCA] *)

Lemma stripPort_prefixBefore (s : string) : stripPort s = prefixBefore ":" s.
Proof.
  unfold stripPort.
  destruct (Z.eqb_spec (stringsIndexRune s ":") (-1)) as [E|E].
  - by rewrite prefixBefore_absent.
  - by apply sliceTo_index.
Qed.

Lemma prefixBefore_free (sep : ascii) (s : string) :
  stringsIndexRune (prefixBefore sep s) sep = -1.
Proof.
  induction s as [|c s IH]; [done|]. cbn [prefixBefore].
  destruct (Ascii.eqb c sep) eqn:Hc; [done|].
  cbn [stringsIndexRune]. by rewrite Hc, IH.
Qed.

Lemma prefixBefore_is_prefix (sep : ascii) (s : string) :
  exists rest, s = prefixBefore sep s +:+ rest.
Proof.
  induction s as [|c s [rest IH]]; [by exists ""|]. cbn [prefixBefore].
  destruct (Ascii.eqb c sep).
  - by exists (String c s).
  - exists rest. by rewrite append_cons, <- IH.
Qed.

(** X8: what [stripPort] returns holds no colon, starts its argument,
    and is left alone by a second [stripPort]. *)
Theorem stripPort_colon_free (s : string) :
  stringsIndexRune (stripPort s) ":" = -1 /\
  stripPort (stripPort s) = stripPort s /\
  exists rest, s = stripPort s +:+ rest.
Proof.
  rewrite !stripPort_prefixBefore. split; [apply prefixBefore_free|]. split.
  - apply prefixBefore_absent, prefixBefore_free.
  - apply prefixBefore_is_prefix.
Qed.

Lemma signHost_success_cached (env : CryptoEnv) (ca : tlsCertificate) (h : string)
    (hm hm' : hostMapT) (cert : tlsCertificate) :
  signHost env ca [h] hm = Returns (cert, None) hm' ->
  exists m', hm' = Some m' /\ m' !! h = Some cert.
Proof.
  intros Hret. destruct (cacheLookup hm [h]) as [[c e]|] eqn:Hlook.
  - unfold signHost, mbind, Signer_bind, getHostMap, mret, Signer_ret in Hret.
    rewrite Hlook in Hret. injection Hret as -> -> <-.
    unfold cacheLookup in Hlook. destruct hm as [m|]; [|done].
    destruct (m !! h) as [c'|] eqn:Hm; [|done]. injection Hlook as ->. by exists m.
  - destruct (signHost_minted env ca [h] hm hm' cert Hlook Hret)
      as (? & ? & ? & ? & ? & ? & ? & ? & _ & _ & _ & _ & _ & _ & ->).
    apply cacheStore_first.
Qed.

(** X9: without a certificate store, [TLSConfigFromCA] returns either an
    error and no configuration, with the cache untouched, or a
    configuration and no error: the default one with [ServerName] set to
    the host without port and with the certificate appended that the
    cache now holds for that name. *)
Theorem TLSConfigFromCA_result (env : CryptoEnv) (defaultTLSConfig : tlsConfig)
    (ca : tlsCertificate) (host : string) (hm hm' : hostMapT)
    (config : option tlsConfig) (err : error) :
  TLSConfigFromCA env defaultTLSConfig ca host {| certStore := None |} hm
  = Returns (config, err) hm' ->
  match config with
  | Some c =>
      err = None /\
      ServerName c = stripPort host /\
      NextProtos c = NextProtos defaultTLSConfig /\
      exists cert m',
        Certificates c = Certificates defaultTLSConfig ++ [cert] /\
        hm' = Some m' /\ m' !! stripPort host = Some cert
  | None => (exists e, err = Some e) /\ hm' = hm
  end.
Proof.
  unfold TLSConfigFromCA, mbind, Signer_bind, mret, Signer_ret. cbn [certStore].
  destruct (signHost env ca [stripPort host] hm) as [[cert [e|]] hm1|msg] eqn:Hsign;
    [| |done].
  - intros [= <- <- <-]. split; [by eexists|].
    by destruct (signHost_error_inv env ca _ hm hm1 cert e Hsign) as (_ & ? & _).
  - intros [= <- <- <-]. cbn [ServerName NextProtos Certificates].
    split; [done|]. split; [done|]. split; [done|].
    destruct (signHost_success_cached env ca _ hm hm1 cert Hsign) as (m' & -> & Hm').
    by exists cert, m'.
Qed.

Lemma TLSConfigFromCA_result_witness :
  exists config hm',
    TLSConfigFromCA exampleEnv exampleDefaultTLSConfig exampleCA "a.b:443"
      {| certStore := None |} None = Returns (Some config, None) hm' /\
    None = (None : error) /\
    ServerName config = stripPort "a.b:443" /\
    NextProtos config = NextProtos exampleDefaultTLSConfig /\
    exists cert m',
      Certificates config = Certificates exampleDefaultTLSConfig ++ [cert] /\
      hm' = Some m' /\ m' !! stripPort "a.b:443" = Some cert.
Proof.
  eexists _, _. split; [vm_compute; reflexivity|].
  eapply (TLSConfigFromCA_result exampleEnv exampleDefaultTLSConfig exampleCA "a.b:443"
            None _ (Some _) None).
  vm_compute; reflexivity.
Defined.

(** ** More on WebSocket detection *)

Lemma stringsSplit_app (v1 v2 : string) (sep : ascii) :
  stringsSplit (v1 +:+ String sep v2) sep = stringsSplit v1 sep ++ stringsSplit v2 sep.
Proof.
  induction v1 as [|c v1 IH].
  - change ("" +:+ String sep v2) with (String sep v2).
    cbn [stringsSplit]. by rewrite Ascii.eqb_refl.
  - rewrite append_cons. cbn [stringsSplit]. rewrite IH.
    destruct (Ascii.eqb c sep); [done|].
    destruct (stringsSplit v1 sep) as [|t ts] eqn:Hs;
      [by apply stringsSplit_nonempty in Hs|done].
Qed.

Lemma headerContainsPieces_app (TrimSpace : string -> string)
    (EqualFold : string -> string -> bool) (value : string) (p1 p2 : list string) :
  headerContainsPieces TrimSpace EqualFold value (p1 ++ p2)
  = headerContainsPieces TrimSpace EqualFold value p1
    || headerContainsPieces TrimSpace EqualFold value p2.
Proof.
  induction p1 as [|s p1 IH]; [done|]. cbn [app headerContainsPieces].
  by destruct (EqualFold value (TrimSpace s)).
Qed.

Lemma headerContainsValues_app (TrimSpace : string -> string)
    (EqualFold : string -> string -> bool) (value : string) (vs1 vs2 : list string) :
  headerContainsValues TrimSpace EqualFold value (vs1 ++ vs2)
  = headerContainsValues TrimSpace EqualFold value vs1
    || headerContainsValues TrimSpace EqualFold value vs2.
Proof.
  induction vs1 as [|v vs1 IH]; [done|]. cbn [app headerContainsValues].
  by destruct (headerContainsPieces TrimSpace EqualFold value (stringsSplit v ",")).
Qed.

(** X10: for [headerContains] a header line that lists two values with
    a comma is the same as two header lines, wherever it stands among
    the lines of that name. *)
Theorem headerContains_comma (TrimSpace : string -> string)
    (EqualFold : string -> string -> bool) (header : Header) (name value : string)
    (before after : list string) (v1 v2 : string) :
  headerContains TrimSpace EqualFold
    (<[name := before ++ [v1 +:+ "," +:+ v2] ++ after]> header) name value
  = headerContains TrimSpace EqualFold
      (<[name := before ++ [v1; v2] ++ after]> header) name value.
Proof.
  unfold headerContains. rewrite !lookup_insert_eq.
  change (default [] (Some ?l)) with l.
  rewrite !(headerContainsValues_app _ _ _ before), !(headerContainsValues_app _ _ _ [_]).
  rewrite (headerContainsValues_app _ _ _ [v1] (v2 :: after)).
  cbn [headerContainsValues app].
  change (v1 +:+ "," +:+ v2) with (v1 +:+ String "," v2).
  rewrite stringsSplit_app, headerContainsPieces_app.
  destruct (headerContainsPieces _ _ value (stringsSplit v1 ","));
    by destruct (headerContainsPieces _ _ value (stringsSplit v2 ",")).
Qed.

(** ** More on the CONNECT dispatcher *)

(** X11: the handlers are asked in order, each with the host of the
    request, until one answers; the handlers behind it are not asked.
    If none answers the default action and the host stay. *)
Theorem runHttpsHandlers_first (abstain rest : list HttpsHandler)
    (todo : ConnectAction) (host : string) :
  Forall (fun h => h host = None) abstain ->
  runHttpsHandlers (abstain ++ rest) todo host
  = match rest with
    | h :: _ => match h host with
                | Some decision => decision
                | None => runHttpsHandlers rest todo host
                end
    | [] => (todo, host)
    end.
Proof.
  intros Habs. induction Habs as [|h abstain Hh Habs IH].
  - destruct rest as [|h rest]; [done|]. cbn [app runHttpsHandlers].
    by destruct (h host) as [[? ?]|].
  - cbn [app runHttpsHandlers]. by rewrite Hh.
Qed.

Lemma runHttpsHandlers_first_witness :
  runHttpsHandlers ([exampleAbstain; exampleAbstain] ++ [exampleRejectHandler; exampleAbstain])
    exampleOkConnect "a.b:443"
  = (exampleRejectAction, "a.b:443").
Proof.
  apply (runHttpsHandlers_first [exampleAbstain; exampleAbstain]
           [exampleRejectHandler; exampleAbstain] exampleOkConnect "a.b:443").
  by repeat constructor.
Defined.



(** X13: in the two hijack modes the dispatcher writes one status
    line, does not close the connection and calls the hijacker of the
    action with the request as it came and the connection as that write
    left it; what the hijacker leaves is the result.  The line is
    [HTTP/1.0 200 OK] followed by a blank line for Hijack and the 407
    line without a blank line for ProxyAuthHijack; the host is the one
    the handlers left. *)
Theorem handleHttps_hand_over (netDial : Dialer) (hasPort : string -> bool)
    (proxy : ProxyHttpServer) (OkConnect : ConnectAction) (ctxResp : option string)
    (r : httpRequest) (proxyClient : Conn) (todo : ConnectAction) (host : string) :
  runHttpsHandlers (httpsHandlers proxy) OkConnect (URLHost r) = (todo, host) ->
  Action todo = ConnectHijack \/ Action todo = ConnectProxyAuthHijack ->
  exists c,
    closed c = closed proxyClient /\
    sent c = sent proxyClient
             +:+ (if connWritable proxyClient
                  then match Action todo with
                       | ConnectProxyAuthHijack =>
                           "HTTP/1.1 407 Proxy Authentication Required" +:+ CRLF
                       | _ => "HTTP/1.0 200 OK" +:+ CRLF +:+ CRLF
                       end
                  else "") /\
    handleHttps netDial hasPort proxy OkConnect ctxResp r proxyClient
    = ConnectHijacked host (Hijack todo r c).
Proof.
  intros Hrun Hact. unfold handleHttps. rewrite Hrun.
  destruct Hact as [Hact|Hact]; rewrite Hact; unfold connWrite;
    (destruct (connWritable proxyClient);
     [eexists; (split; [|split]); [| |reflexivity]; reflexivity
     |exists proxyClient; split; [reflexivity|]; split;
        [symmetry; apply append_nil_r|reflexivity]]).
Qed.

Lemma handleHttps_hand_over_witness :
  exists c,
    closed c = closed freshConn /\
    sent c = sent freshConn +:+ "HTTP/1.1 407 Proxy Authentication Required" +:+ CRLF /\
    handleHttps exampleNetDial exampleHasPort
      {| httpsHandlers := [fun host => Some (exampleHijackAction, host)];
         ConnectDial := None; TrDial := None |}
      exampleOkConnect None (exampleConnect "a.b:443") freshConn
    = ConnectHijacked "a.b:443" (Hijack exampleHijackAction (exampleConnect "a.b:443") c).
Proof.
  exact (handleHttps_hand_over exampleNetDial exampleHasPort
           {| httpsHandlers := [fun host => Some (exampleHijackAction, host)];
              ConnectDial := None; TrDial := None |}
           exampleOkConnect None (exampleConnect "a.b:443") freshConn
           exampleHijackAction "a.b:443" eq_refl (or_intror eq_refl)).
Defined.

(** ** More on the upstream-proxy dialer *)

Section DialerFacts.
Variable netDial : Dialer.
Variable urlParse : string -> URL + string.
Variable requestWrite : httpRequest -> string.
Variable httpReadResponse : Conn -> httpRequest -> httpResponse + string.
Variable tlsClient : Conn -> Conn.
Variable proxy : ProxyHttpServer.

Lemma connWrite_closed (c : Conn) (data : string) :
  closed (fst (connWrite c data)) = closed c.
Proof. unfold connWrite. by destruct (connWritable c). Qed.

(** X14: the dial function returns a connection exactly when it returns
    no error, and only for an answer 200: it is then the connection it
    opened to the proxy (wrapped in TLS for an https proxy), with the
    CONNECT request written to it and not closed by the dialer. *)
Theorem connectDial_connection (tls : bool) (u : URL)
    (connectReqHandler : option (httpRequest -> httpRequest)) (network addr : string) :
  let connectReq := newConnectReq connectReqHandler addr in
  let o := connectDialVia netDial requestWrite httpReadResponse tlsClient proxy tls u
             connectReqHandler network addr in
  (dialConn o = None <-> dialErr o <> None) /\
  forall c, dialConn o = Some c ->
    proxyConn o = Some c /\
    exists c0 resp,
      dial netDial proxy network (Host u) = inl c0 /\
      c = fst (connWrite (if tls then tlsClient c0 else c0) (requestWrite connectReq)) /\
      closed c = closed (if tls then tlsClient c0 else c0) /\
      httpReadResponse c connectReq = inl resp /\
      StatusCode resp = 200.
Proof.
  intros connectReq o. subst o. unfold connectDialVia.
  destruct tls; unfold connectDialTLS, connectDialHTTP; fold connectReq;
    (destruct (dial netDial proxy network (Host u)) as [c0|e]; [|by split]);
    [destruct (connWrite (tlsClient c0) (requestWrite connectReq)) as [c1 e1] eqn:Hw
    |destruct (connWrite c0 (requestWrite connectReq)) as [c1 e1] eqn:Hw];
    (destruct (httpReadResponse c1 connectReq) as [resp|e] eqn:Hresp;
       [|destruct (connClose c1); by split]);
    (destruct (Z.eqb_spec (StatusCode resp) 200) as [Hcode|Hcode]; cbn [negb];
       [|destruct (ioutilReadAll _) as [body [e|]]; [|destruct (connClose c1)]; by split]);
    (split; [done|]; intros c [= <-]; split; [done|]; exists c0, resp;
     rewrite Hw; cbn [fst]; split; [done|]; split; [done|]; split; [|done]).
  - by rewrite <- (connWrite_closed (tlsClient c0) (requestWrite connectReq)), Hw.
  - by rewrite <- (connWrite_closed c0 (requestWrite connectReq)), Hw.
Qed.

(** X15: when the dial function fails after it opened the connection
    to the proxy, it returns no connection, and what it does with the
    one it opened depends on the failure alone.  When the proxy answered
    with a status other than 200 and reading the body of that answer
    failed, the error is the read error and the connection is left as
    the CONNECT write left it: the dial function has not closed it, and
    nobody holds it.  In every other case the connection is closed,
    with nothing written after the CONNECT request. *)
Theorem connectDial_failure_closes (tls : bool) (u : URL)
    (connectReqHandler : option (httpRequest -> httpRequest)) (network addr : string) :
  let connectReq := newConnectReq connectReqHandler addr in
  let o := connectDialVia netDial requestWrite httpReadResponse tlsClient proxy tls u
             connectReqHandler network addr in
  forall e c, dialErr o = Some e -> proxyConn o = Some c ->
    dialConn o = None /\
    exists c0 c1,
      dial netDial proxy network (Host u) = inl c0 /\
      c1 = fst (connWrite (if tls then tlsClient c0 else c0) (requestWrite connectReq)) /\
      (((exists resp,
           httpReadResponse c1 connectReq = inl resp /\
           StatusCode resp <> 200 /\
           snd (refusedBody tls resp) = Some e) /\
        c = c1 /\
        closed c = closed (if tls then tlsClient c0 else c0))
       \/
       ((forall resp,
           httpReadResponse c1 connectReq = inl resp ->
           StatusCode resp <> 200 /\ snd (refusedBody tls resp) = None) /\
        c = fst (connClose c1) /\
        closed c = true /\
        sent c = sent c1)).
Proof.
  intros connectReq o e c. subst o. unfold connectDialVia, refusedBody.
  destruct tls; unfold connectDialTLS, connectDialHTTP; fold connectReq;
    (destruct (dial netDial proxy network (Host u)) as [c0|e0]; [|done]);
    [pose proof (connWrite_closed (tlsClient c0) (requestWrite connectReq)) as Hcl;
     destruct (connWrite (tlsClient c0) (requestWrite connectReq)) as [c1 e1] eqn:Hw
    |pose proof (connWrite_closed c0 (requestWrite connectReq)) as Hcl;
     destruct (connWrite c0 (requestWrite connectReq)) as [c1 e1] eqn:Hw];
    cbn [fst] in Hcl;
    (destruct (httpReadResponse c1 connectReq) as [resp|e0] eqn:Hresp;
       [|intros _ [= <-]; split; [done|]; exists c0, c1; cbv beta iota;
         rewrite Hw, Hresp; cbn [fst];
         split; [done|]; split; [done|]; right; by split]);
    (destruct (Z.eqb_spec (StatusCode resp) 200) as [Hcode|Hcode]; cbn [negb]; [done|]);
    (destruct (ioutilReadAll _) as [body [e0|]] eqn:Hbody;
       [intros [= <-] [= <-]; split; [done|]; exists c0, c1; cbv beta iota;
        rewrite Hw, Hresp; cbn [fst]; split; [done|]; split; [done|];
        left; split; [exists resp; by rewrite Hbody|by split]
       |intros _ [= <-]; split; [done|]; exists c0, c1; cbv beta iota;
        rewrite Hw, Hresp; cbn [fst]; split; [done|]; split; [done|];
        right; split; [intros resp' [= <-]; by rewrite Hbody|by split]]).
Qed.

(** X16: the environment yields a dial function exactly when
    [HTTPS_PROXY], or [https_proxy] when that is empty, is a non-empty
    URL that parses and whose scheme is empty, http, https or wss. *)
Theorem dialerFromEnv_some (osGetenv : string -> string) :
  let url := if String.eqb (osGetenv "HTTPS_PROXY") "" then osGetenv "https_proxy"
             else osGetenv "HTTPS_PROXY" in
  is_Some (dialerFromEnv netDial urlParse requestWrite httpReadResponse tlsClient
             osGetenv proxy)
  <-> url <> "" /\
      exists u, urlParse url = inl u /\ Scheme u ∈ [""; "http"; "https"; "wss"].
Proof.
  intros url. unfold dialerFromEnv. fold url.
  destruct (String.eqb_spec url "") as [->|Hne].
  { split; [by intros [? ?]|by intros [? _]]. }
  unfold NewConnectDialToProxy, NewConnectDialToProxyWithHandler.
  destruct (urlParse url) as [u|e].
  - destruct (String.eqb_spec (Scheme u) "") as [E1|E1];
      [|destruct (String.eqb_spec (Scheme u) "http") as [E2|E2];
        [|destruct (String.eqb_spec (Scheme u) "https") as [E3|E3];
          [|destruct (String.eqb_spec (Scheme u) "wss") as [E4|E4]]]];
      cbn [orb].
    1-4: split; [intros _; split; [done|]; exists u; split; [done|]|by eexists].
    + rewrite E1. apply list_elem_of_here.
    + rewrite E2. do 1 apply list_elem_of_further. apply list_elem_of_here.
    + rewrite E3. do 2 apply list_elem_of_further. apply list_elem_of_here.
    + rewrite E4. do 3 apply list_elem_of_further. apply list_elem_of_here.
    + split; [by intros [? ?]|]. intros (_ & u' & [= <-] & Hin). exfalso.
      rewrite !elem_of_cons in Hin.
      by destruct Hin as [?|[?|[?|[?|?%elem_of_nil]]]].
  - split; [by intros [? ?]|]. by intros (_ & u' & ? & _).
Qed.

(** X17: the proxy is dialled at the host of its URL, with port 80 for
    an http proxy and 443 for an https or wss proxy when the host has
    none; when that dial fails its error is returned as it is, with no
    connection. *)
Theorem NewConnectDialToProxy_default_port (https_proxy : string) (u : URL)
    (connectReqHandler : option (httpRequest -> httpRequest))
    (f : string -> string -> dialOutcome) (network addr e : string) :
  urlParse https_proxy = inl u ->
  NewConnectDialToProxyWithHandler netDial urlParse requestWrite httpReadResponse
    tlsClient proxy https_proxy connectReqHandler = Some f ->
  let port := if String.eqb (Scheme u) "" || String.eqb (Scheme u) "http"
              then ":80" else ":443" in
  let target := if stringsIndexRune (Host u) ":" =? -1 then Host u +:+ port else Host u in
  dial netDial proxy network target = inr e ->
  f network addr = {| dialConn := None; dialErr := Some e; proxyConn := None |}.
Proof.
  intros Hparse Hf port target Hdial. subst port target.
  unfold NewConnectDialToProxyWithHandler in Hf. rewrite Hparse in Hf.
  destruct (String.eqb (Scheme u) "" || String.eqb (Scheme u) "http").
  - injection Hf as <-. unfold connectDialHTTP, withDefaultPort.
    destruct (stringsIndexRune (Host u) ":" =? -1); cbn [Host]; by rewrite Hdial.
  - destruct (String.eqb (Scheme u) "https" || String.eqb (Scheme u) "wss"); [|done].
    injection Hf as <-. unfold connectDialTLS, withDefaultPort.
    destruct (stringsIndexRune (Host u) ":" =? -1); cbn [Host]; by rewrite Hdial.
Qed.

End DialerFacts.

Lemma connectDial_connection_witness :
  let connectReq := newConnectReq None "a.b:443" in
  let o := connectDialVia exampleUpstreamDial exampleRequestWrite
             (exampleReadResponse example200) (fun c => c) exampleProxy true exampleURL
             None "tcp" "a.b:443" in
  (dialConn o = None <-> dialErr o <> None) /\
  forall c, dialConn o = Some c ->
    proxyConn o = Some c /\
    exists c0 resp,
      dial exampleUpstreamDial exampleProxy "tcp" (Host exampleURL) = inl c0 /\
      c = fst (connWrite (if true then (fun c => c) c0 else c0)
                 (exampleRequestWrite connectReq)) /\
      closed c = closed (if true then (fun c => c) c0 else c0) /\
      exampleReadResponse example200 c connectReq = inl resp /\
      StatusCode resp = 200.
Proof.
  exact (connectDial_connection exampleUpstreamDial exampleRequestWrite
           (exampleReadResponse example200) (fun c => c) exampleProxy true exampleURL
           None "tcp" "a.b:443").
Defined.

Lemma connectDial_failure_closes_witness :
  let connectReq := newConnectReq None "a.b:443" in
  let o := connectDialVia exampleUpstreamDial exampleRequestWrite
             (exampleReadResponse example407Broken) (fun c => c) exampleProxy false
             exampleURL None "tcp" "a.b:443" in
  let c := fst (connWrite freshConn (exampleRequestWrite connectReq)) in
  dialErr o = Some "unexpected EOF" /\
  proxyConn o = Some c /\
  dialConn o = None /\
  exists c0 c1,
    dial exampleUpstreamDial exampleProxy "tcp" (Host exampleURL) = inl c0 /\
    c1 = fst (connWrite (if false then (fun c => c) c0 else c0)
                (exampleRequestWrite connectReq)) /\
    (((exists resp,
         exampleReadResponse example407Broken c1 connectReq = inl resp /\
         StatusCode resp <> 200 /\
         snd (refusedBody false resp) = Some "unexpected EOF") /\
      c = c1 /\
      closed c = closed (if false then (fun c => c) c0 else c0))
     \/
     ((forall resp,
         exampleReadResponse example407Broken c1 connectReq = inl resp ->
         StatusCode resp <> 200 /\ snd (refusedBody false resp) = None) /\
      c = fst (connClose c1) /\
      closed c = true /\
      sent c = sent c1)).
Proof.
  intros connectReq o c.
  split; [reflexivity|]. split; [reflexivity|].
  exact (connectDial_failure_closes exampleUpstreamDial exampleRequestWrite
           (exampleReadResponse example407Broken) (fun c => c) exampleProxy false
           exampleURL None "tcp" "a.b:443" "unexpected EOF" c eq_refl eq_refl).
Defined.

Lemma NewConnectDialToProxy_default_port_witness :
  exists f,
    NewConnectDialToProxyWithHandler exampleDeadDial exampleUrlParse exampleRequestWrite
      (exampleReadResponse example407) (fun c => c) exampleProxy
      "https://proxy.example" None = Some f /\
    f "tcp" "a.b:443"
    = {| dialConn := None; dialErr := Some "no route to proxy.example:443";
         proxyConn := None |}.
Proof.
  eexists. split; [reflexivity|].
  eapply (NewConnectDialToProxy_default_port exampleDeadDial exampleUrlParse
            exampleRequestWrite (exampleReadResponse example407) (fun c => c) exampleProxy
            "https://proxy.example" {| Scheme := "https"; Host := "proxy.example" |} None);
    reflexivity.
Defined.

(** ** More on the response writer: any connection *)

Lemma extends_refl (w : Conn) : extends w w.
Proof. split; [done|]. split; [done|]. exists "". symmetry. apply append_nil_r. Qed.

Lemma extends_trans (w1 w2 w3 : Conn) : extends w1 w2 -> extends w2 w3 -> extends w1 w3.
Proof.
  intros (Hc1 & Hh1 & s1 & Hs1) (Hc2 & Hh2 & s2 & Hs2).
  split; [congruence|]. split; [congruence|].
  exists (s1 +:+ s2). by rewrite Hs2, Hs1, append_assoc.
Qed.

Lemma connWrite_extends (w : Conn) (data : string) : extends w (fst (connWrite w data)).
Proof.
  unfold connWrite. destruct (connWritable w); [|apply extends_refl].
  split; [done|]. split; [done|]. by exists data.
Qed.

Lemma writeStrings_extends (w : Conn) (pieces : list string) :
  extends w (fst (writeStrings w pieces)).
Proof.
  revert w. induction pieces as [|s pieces IH]; intros w; cbn [writeStrings].
  - apply extends_refl.
  - pose proof (connWrite_extends w s) as Hw.
    destruct (connWrite w s) as [w1 [e|]]; [done|].
    eapply extends_trans; [exact Hw|apply IH].
Qed.

Lemma chunkedWrite_extends (w : Conn) (d : string) :
  extends w (fst (fst (chunkedWrite w d))).
Proof.
  unfold chunkedWrite. destruct (String.eqb d ""); [apply extends_refl|].
  pose proof (connWrite_extends w (formatHex (Z.of_nat (String.length d)) +:+ CRLF)) as H1.
  destruct (connWrite w _) as [w1 [e|]]; [done|].
  pose proof (connWrite_extends w1 d) as H2.
  destruct (connWrite w1 d) as [w2 [e|]]; [by eapply extends_trans|].
  pose proof (connWrite_extends w2 CRLF) as H3.
  destruct (connWrite w2 CRLF) as [w3 e].
  eapply extends_trans; [exact H1|]. by eapply extends_trans.
Qed.

Lemma ioCopyChunked_extends (src : Reader) (w : Conn) (written : Z) :
  let '(w', rest, _, _) := ioCopyChunked w src written in
  extends w w' /\ exists consumed, src = consumed ++ rest.
Proof.
  revert w written. induction src as [|[d|e] src IH]; intros w written;
    cbn [ioCopyChunked].
  - split; [apply extends_refl|by exists []].
  - destruct (String.eqb d "").
    + specialize (IH w written).
      destruct (ioCopyChunked w src written) as [[[w' rest] ?] ?].
      destruct IH as [Hext [consumed ->]]. split; [done|].
      by exists (ReadData d :: consumed).
    + pose proof (chunkedWrite_extends w d) as Hw.
      destruct (chunkedWrite w d) as [[w1 nw] [ew|]]; cbn [fst] in Hw.
      * split; [done|]. by exists [ReadData d].
      * specialize (IH w1 (written + nw)).
        destruct (ioCopyChunked w1 src (written + nw)) as [[[w' rest] ?] ?].
        destruct IH as [Hext [consumed ->]]. split; [by eapply extends_trans|].
        by exists (ReadData d :: consumed).
  - split; [apply extends_refl|by exists [ReadErr e]].
Qed.

Lemma copyBodyLoop_extends (fuel : nat) (w w' : Conn) (body rest : Reader) :
  copyBodyLoop fuel w body = Some (w', rest) ->
  extends w w' /\ exists consumed, body = consumed ++ rest.
Proof.
  revert w body. induction fuel as [|fuel IH]; intros w body; [done|].
  cbn [copyBodyLoop]. pose proof (ioCopyChunked_extends body w 0) as Hcopy.
  destruct (ioCopyChunked w body 0) as [[[w1 rest1] written'] err].
  destruct Hcopy as [Hext [consumed ->]].
  destruct (0 <? written').
  - intros [Hext2 [consumed2 ->]]%IH. split; [by eapply extends_trans|].
    exists (consumed ++ consumed2). by rewrite app_assoc.
  - intros [= <- <-]. split; [done|]. by exists consumed.
Qed.

(** X18: on any connection, whatever fails, the response writer only
    adds to what was sent and never closes the connection; what it
    leaves of the body is an end of the body; and on a connection that
    takes no write it sends nothing, reads nothing of the body and ends
    the task. *)
Theorem writeResponse_only_appends (headerWrite : Header -> list string) (w : Conn)
    (resp : httpResponse) :
  let out := writeResponse headerWrite w resp in
  extends w out.1.1 /\
  (exists consumed, Body resp = consumed ++ out.1.2) /\
  (connWritable w = false -> out = (w, Body resp, ReturnFromTask)).
Proof.
  cbv zeta. split; [|split].
  - unfold writeResponse.
    pose proof (connWrite_extends w (statusLine resp)) as H1.
    destruct (connWrite w (statusLine resp)) as [w1 [e|]]; [done|]. cbn [fst] in H1.
    pose proof (writeStrings_extends w1 (headerWrite (chunkedHeader (RespHeader resp))))
      as H2.
    destruct (writeStrings w1 _) as [w2 [e|]]; [by eapply extends_trans|]. cbn [fst] in H2.
    pose proof (connWrite_extends w2 CRLF) as H3.
    destruct (connWrite w2 CRLF) as [w3 [e|]]; cbn [fst] in H3;
      [eapply extends_trans; [exact H1|by eapply extends_trans]|].
    assert (extends w w3) as H13
      by (eapply extends_trans; [exact H1|by eapply extends_trans]).
    destruct (copyBodyLoop _ w3 (Body resp)) as [[w4 body]|] eqn:Hloop; [|done].
    apply copyBodyLoop_extends in Hloop as [H4 _].
    assert (extends w w4) as H14 by by eapply extends_trans.
    unfold chunkedClose.
    pose proof (connWrite_extends w4 ("0" +:+ CRLF)) as H5.
    destruct (connWrite w4 ("0" +:+ CRLF)) as [w5 [e|]]; cbn [fst] in H5;
      [by eapply extends_trans|].
    pose proof (connWrite_extends w5 CRLF) as H6.
    destruct (connWrite w5 CRLF) as [w6 [e|]]; cbn [fst] in H6;
      (eapply extends_trans; [exact H14|by eapply extends_trans]).
  - unfold writeResponse.
    destruct (connWrite w (statusLine resp)) as [w1 [e|]]; [by exists []|].
    destruct (writeStrings w1 _) as [w2 [e|]]; [by exists []|].
    destruct (connWrite w2 CRLF) as [w3 [e|]]; [by exists []|].
    destruct (copyBodyLoop _ w3 (Body resp)) as [[w4 body]|] eqn:Hloop; [|by exists []].
    apply copyBodyLoop_extends in Hloop as [_ Hsuffix].
    unfold chunkedClose.
    destruct (connWrite w4 ("0" +:+ CRLF)) as [w5 [e|]]; [done|].
    by destruct (connWrite w5 CRLF) as [w6 [e|]].
  - intros Hdead. unfold writeResponse, connWrite. by rewrite Hdead.
Qed.

(** ** [dialTls] and the start of the MITM task *)

Section MitmTaskFacts.
Variable netDial : Dialer.
Variable uclientHandshake : Conn -> tlsConfigState -> ClientHelloID -> string + string.
Variable tlsServer : Conn -> tlsConfigState -> Conn * (string + string).
Variable NewUTLSRoundTripper :
  string -> tlsConfigState -> option URL -> utlsRoundTripper + string.
Variable Http2Handler : option (Conn -> remoteConn -> bool).

Lemma invalidProtos_sanitised (tlsCfg : tlsConfigState) :
  invalidProtos
    (NextProtos (config (if invalidProtos (NextProtos (config tlsCfg))
                         then setNextProtos tlsCfg ["h2"; "http/1.1"] else tlsCfg)))
  = false.
Proof. by destruct (invalidProtos (NextProtos (config tlsCfg))) eqn:E. Qed.

(** X19: when [dialTls] returns a TLS connection, the dialled host is
    the host of the request, the ClientHello carried no protocol that
    is empty or does not start with [h] (such a list is replaced by
    [h2, http/1.1]), the randomized hello without ALPN was used exactly
    when the first protocol offered is not [h2], and the configuration
    comes back with [h2, http/1.1] if [h2] was negotiated and
    [http/1.1] alone otherwise, its other fields unchanged. *)
Theorem dialTls_tls (host rHost : string) (tlsCfg tlsCfg' : tlsConfigState)
    (c : Conn) (negotiated : string) :
  dialTls netDial uclientHandshake host rHost tlsCfg
  = (Some (RemoteTLS c negotiated), tlsCfg') ->
  host = rHost /\
  netDial "tcp" host = inl c /\
  exists offered hello,
    offered = (if invalidProtos (NextProtos (config tlsCfg))
               then setNextProtos tlsCfg ["h2"; "http/1.1"] else tlsCfg) /\
    invalidProtos (NextProtos (config offered)) = false /\
    (hello = HelloRandomizedNoALPN <->
     exists first rest, NextProtos (config offered) = first :: rest /\ first <> "h2") /\
    uclientHandshake c offered hello = inl negotiated /\
    tlsCfg' = setNextProtos tlsCfg
                (if String.eqb negotiated "h2" then ["h2"; "http/1.1"] else ["http/1.1"]).
Proof.
  unfold dialTls. destruct (netDial "tcp" host) as [tcpConn|e]; [|done].
  destruct (String.eqb_spec host rHost) as [->|Hne]; [|done].
  set (offered := if invalidProtos (NextProtos (config tlsCfg))
                  then setNextProtos tlsCfg ["h2"; "http/1.1"] else tlsCfg).
  set (hello := match NextProtos (config offered) with
                | first :: _ => if negb (String.eqb first "h2") then HelloRandomizedNoALPN
                                else HelloChrome_Auto
                | [] => HelloChrome_Auto
                end).
  destruct (uclientHandshake tcpConn offered hello) as [p|e] eqn:Hhs; [|done].
  intros [= <- <- <-]. split; [done|]. split; [done|].
  exists offered, hello. split; [done|]. split; [apply invalidProtos_sanitised|].
  split; [|split; [done|]].
  - subst hello. destruct (NextProtos (config offered)) as [|first rest].
    + split; [done|]. by intros (? & ? & ? & _).
    + destruct (String.eqb_spec first "h2") as [->|Hfirst]; cbn [negb].
      * split; [done|]. by intros (? & ? & [= <- _] & ?).
      * split; [|done]. intros _. by exists first, rest.
  - subst offered.
    destruct (String.eqb p "h2"), (invalidProtos (NextProtos (config tlsCfg)));
      reflexivity.
Qed.

(** X20: [dialTls] returns the bare TCP connection exactly when the
    host it dials differs from the host of the request and the dial
    succeeds: no TLS handshake is made with an upstream proxy, and the
    configuration is not touched. *)
Theorem dialTls_tcp (host rHost : string) (tlsCfg tlsCfg' : tlsConfigState) (c : Conn) :
  dialTls netDial uclientHandshake host rHost tlsCfg = (Some (RemoteTCP c), tlsCfg')
  <-> host <> rHost /\ netDial "tcp" host = inl c /\ tlsCfg' = tlsCfg.
Proof.
  unfold dialTls. destruct (netDial "tcp" host) as [tcpConn|e].
  - destruct (String.eqb_spec host rHost) as [->|Hne].
    + split; [|by intros [? _]].
      by destruct (uclientHandshake tcpConn _ _).
    + split; [by intros [= <- <-]|by intros (_ & [= <-] & ->)].
  - split; [done|by intros (_ & ? & _)].
Qed.

(** The configuration with which the client side is served when the
    origin is reached through [proxyURL]. *)
Lemma mitmTask_upstream (defaultTLSConfig tlsCfg0 : tlsConfigState) (rHost : string)
    (u : URL) (proxyClient c : Conn) :
  String.eqb (Host u) rHost = false ->
  netDial "tcp" (Host u) = inl c ->
  mitmTask netDial uclientHandshake tlsServer NewUTLSRoundTripper Http2Handler
    defaultTLSConfig (Some (inl tlsCfg0)) rHost (Some u) proxyClient
  = match tlsServer proxyClient
            (setNextProtos
               {| config := config tlsCfg0; Renegotiation := RenegotiateFreelyAsClient;
                  MinVersion := MinVersion tlsCfg0;
                  InsecureSkipVerify := InsecureSkipVerify tlsCfg0 |} ["http/1.1"]) with
    | (rawClientTls, inr _) => MitmReturns rawClientTls
    | (rawClientTls, inl _) =>
        MitmPanics "interface conversion: io.ReadWriteCloser is *net.TCPConn, not *tls.UConn"
    end.
Proof.
  intros Hne Hdial. unfold mitmTask, dialTls. rewrite Hne. cbn [negb]. by rewrite Hdial.
Qed.

(** X21: with an upstream proxy whose host is not the host of the
    request, the task dials the proxy, serves the client handshake, and
    then panics on the type assertion of line 229: the remote is the
    bare TCP connection, not a [*tls.UConn]. *)
Theorem mitmTask_upstream_panics (defaultTLSConfig tlsCfg0 : tlsConfigState)
    (rHost : string) (u : URL) (proxyClient c rawClientTls : Conn) (proto : string) :
  String.eqb (Host u) rHost = false ->
  netDial "tcp" (Host u) = inl c ->
  tlsServer proxyClient
    (setNextProtos
       {| config := config tlsCfg0; Renegotiation := RenegotiateFreelyAsClient;
          MinVersion := MinVersion tlsCfg0;
          InsecureSkipVerify := InsecureSkipVerify tlsCfg0 |} ["http/1.1"])
  = (rawClientTls, inl proto) ->
  mitmTask netDial uclientHandshake tlsServer NewUTLSRoundTripper Http2Handler
    defaultTLSConfig (Some (inl tlsCfg0)) rHost (Some u) proxyClient
  = MitmPanics "interface conversion: io.ReadWriteCloser is *net.TCPConn, not *tls.UConn".
Proof.
  intros Hne Hdial Hserve.
  by rewrite (mitmTask_upstream defaultTLSConfig tlsCfg0 rHost u proxyClient c Hne Hdial),
    Hserve.
Qed.

Lemma dialTls_same_host (host : string) (tlsCfg tlsCfg' : tlsConfigState)
    (remote : remoteConn) :
  dialTls netDial uclientHandshake host host tlsCfg = (Some remote, tlsCfg') ->
  exists c p, remote = RemoteTLS c p.
Proof.
  unfold dialTls. destruct (netDial "tcp" host) as [tcpConn|e]; [|done].
  rewrite String.eqb_refl.
  destruct (uclientHandshake tcpConn _ _) as [p|e]; [|done].
  intros [= <- _]. by eexists _, _.
Qed.

Lemma dialTls_keeps (host rHost : string) (tlsCfg tlsCfg' : tlsConfigState)
    (remote : option remoteConn) :
  dialTls netDial uclientHandshake host rHost tlsCfg = (remote, tlsCfg') ->
  Renegotiation tlsCfg' = Renegotiation tlsCfg /\
  MinVersion tlsCfg' = MinVersion tlsCfg /\
  InsecureSkipVerify tlsCfg' = InsecureSkipVerify tlsCfg.
Proof.
  unfold dialTls. destruct (netDial "tcp" host) as [tcpConn|e]; [|by intros [= _ <-]].
  destruct (String.eqb host rHost); [|by intros [= _ <-]].
  destruct (invalidProtos (NextProtos (config tlsCfg)));
    (destruct (uclientHandshake tcpConn _ _) as [p|e];
     [destruct (negb (String.eqb p "h2"))|]; by intros [= _ <-]).
Qed.

Lemma mitmNegotiated_loop (proxyURL : option URL) (rawClientTls raw : Conn)
    (proto : string) (remote remote' : remoteConn) (tlsCfg tlsCfg' : tlsConfigState)
    (roundTripper : option utlsRoundTripper) :
  mitmNegotiated NewUTLSRoundTripper Http2Handler proxyURL rawClientTls proto remote tlsCfg
  = MitmLoop raw remote' roundTripper tlsCfg' ->
  raw = rawClientTls /\ remote' = remote /\
  Renegotiation tlsCfg' = Renegotiation tlsCfg /\
  match roundTripper with
  | Some t =>
      proto <> "h2" /\
      InsecureSkipVerify tlsCfg' = true /\
      MinVersion tlsCfg' = VersionTLS12 /\
      NextProtos (config tlsCfg') = ["http/1.1"; "h2"] /\
      NewUTLSRoundTripper "hellorandomizednoalpn_maxtls" tlsCfg' proxyURL = inl t
  | None =>
      proto = "h2" /\
      NextProtos (config tlsCfg') = ["h2"; "http/1.1"] /\
      InsecureSkipVerify tlsCfg' = InsecureSkipVerify tlsCfg /\
      MinVersion tlsCfg' = MinVersion tlsCfg
  end.
Proof.
  unfold mitmNegotiated. destruct (String.eqb_spec proto "h2") as [->|Hne]; cbn [negb].
  - destruct Http2Handler as [handler|].
    + destruct remote as [c|c p]; [done|].
      destruct (handler rawClientTls (RemoteTLS c p)); [done|].
      by intros [= <- <- <- <-].
    + by intros [= <- <- <- <-].
  - destruct (NewUTLSRoundTripper _ _ proxyURL) as [t|e] eqn:Hrt; [|done].
    by intros [= <- <- <- <-].
Qed.

(** X22: when the task reaches the request loop, the origin side is a
    TLS connection and renegotiation is allowed freely.  Either the
    client negotiated [h2] and there is no round tripper of its own, or
    it did not, and then the round tripper was built from a
    configuration with [InsecureSkipVerify] set, at least TLS 1.2 and
    the protocols [http/1.1, h2]. *)
Theorem mitmTask_loop (defaultTLSConfig : tlsConfigState)
    (factory : option (tlsConfigState + string)) (rHost : string)
    (proxyURL : option URL) (proxyClient rawClientTls : Conn) (remote : remoteConn)
    (roundTripper : option utlsRoundTripper) (tlsCfg : tlsConfigState) :
  mitmTask netDial uclientHandshake tlsServer NewUTLSRoundTripper Http2Handler
    defaultTLSConfig factory rHost proxyURL proxyClient
  = MitmLoop rawClientTls remote roundTripper tlsCfg ->
  (exists c p, remote = RemoteTLS c p) /\
  Renegotiation tlsCfg = RenegotiateFreelyAsClient /\
  match roundTripper with
  | Some t =>
      InsecureSkipVerify tlsCfg = true /\
      MinVersion tlsCfg = VersionTLS12 /\
      NextProtos (config tlsCfg) = ["http/1.1"; "h2"] /\
      NewUTLSRoundTripper "hellorandomizednoalpn_maxtls" tlsCfg proxyURL = inl t
  | None => NextProtos (config tlsCfg) = ["h2"; "http/1.1"]
  end.
Proof.
  unfold mitmTask, cannotDial.
  destruct (match factory with Some result => result | None => inl defaultTLSConfig end)
    as [tlsCfg0|e]; [|done].
  set (host := match proxyURL with Some u => Host u | None => rHost end).
  set (cfg1 := if negb (String.eqb host rHost) then _ else _).
  assert (Renegotiation cfg1 = RenegotiateFreelyAsClient) as Hren
    by (subst cfg1; by destruct (negb (String.eqb host rHost))).
  destruct (dialTls netDial uclientHandshake host rHost cfg1) as [[remote1|] cfg2] eqn:Hd1;
    [|by destruct (tlsServer proxyClient _)].
  destruct (dialTls_keeps _ _ _ _ _ Hd1) as (Hren2 & _ & _).
  destruct (tlsServer proxyClient cfg2) as [raw [proto|e]]; [|done].
  destruct remote1 as [c1|c1 p1]; [done|].
  assert (forall remote2 cfg3,
    Renegotiation cfg3 = RenegotiateFreelyAsClient ->
    (exists c p, remote2 = RemoteTLS c p) ->
    mitmNegotiated NewUTLSRoundTripper Http2Handler proxyURL raw proto remote2 cfg3
    = MitmLoop rawClientTls remote roundTripper tlsCfg ->
    (exists c p, remote = RemoteTLS c p) /\
    Renegotiation tlsCfg = RenegotiateFreelyAsClient /\
    match roundTripper with
    | Some t =>
        InsecureSkipVerify tlsCfg = true /\
        MinVersion tlsCfg = VersionTLS12 /\
        NextProtos (config tlsCfg) = ["http/1.1"; "h2"] /\
        NewUTLSRoundTripper "hellorandomizednoalpn_maxtls" tlsCfg proxyURL = inl t
    | None => NextProtos (config tlsCfg) = ["h2"; "http/1.1"]
    end) as Hneg.
  { intros remote2 cfg3 Hr3 Htls Hloop.
    apply mitmNegotiated_loop in Hloop as (_ & -> & Hr & Hrt).
    split; [done|]. split; [congruence|].
    destruct roundTripper as [t|]; [by destruct Hrt as (_ & ? & ? & ? & ?)|].
    by destruct Hrt as (_ & ? & _). }
  destruct (negb (String.eqb proto p1)).
  - destruct (dialTls netDial uclientHandshake host rHost (setNextProtos cfg2 [proto]))
      as [[remote2|] cfg3] eqn:Hd2; [|by destruct (tlsServer proxyClient _)].
    destruct (dialTls_keeps _ _ _ _ _ Hd2) as (Hren3 & _ & _).
    apply Hneg; [by rewrite Hren3; cbn [Renegotiation setNextProtos]; congruence|].
    destruct (String.eqb_spec host rHost) as [Heq|Hne].
    + rewrite Heq in Hd2. by apply dialTls_same_host in Hd2.
    + exfalso. unfold dialTls in Hd1.
      destruct (netDial "tcp" host); [|done].
      by rewrite (proj2 (String.eqb_neq host rHost) Hne) in Hd1.
  - apply Hneg; [congruence|by eexists _, _].
Qed.

(** X23: when the origin cannot be dialled, the client is served a TLS
    handshake that offers [http/1.1] only, gets the 500 message
    "Can't dial remote" through it if that side takes the write, and
    its TLS side is closed. *)
Theorem mitmTask_cannot_dial (defaultTLSConfig tlsCfg0 : tlsConfigState)
    (rHost : string) (proxyURL : option URL) (proxyClient : Conn) (e : string) :
  netDial "tcp" (match proxyURL with Some u => Host u | None => rHost end) = inr e ->
  exists offered rawClientTls result c,
    NextProtos (config offered) = ["http/1.1"] /\
    tlsServer proxyClient offered = (rawClientTls, result) /\
    mitmTask netDial uclientHandshake tlsServer NewUTLSRoundTripper Http2Handler
      defaultTLSConfig (Some (inl tlsCfg0)) rHost proxyURL proxyClient
    = MitmReturns c /\
    closed c = true /\
    sent c = sent rawClientTls
             +:+ (if connWritable rawClientTls
                  then "HTTP/1.1 500 Server error" +:+ CRLF +:+ CRLF
                         +:+ "Can't dial remote" +:+ CRLF
                  else "").
Proof.
  intros Hdial. unfold mitmTask, dialTls, cannotDial. rewrite Hdial.
  match goal with
  | |- context [tlsServer proxyClient ?cfg] =>
      exists cfg; destruct (tlsServer proxyClient cfg) as [raw result] eqn:Hserve
  end.
  exists raw, result, (httpError raw "Can't dial remote").
  split; [reflexivity|]. split; [done|]. split; [done|]. apply httpError_sent.
Qed.

End MitmTaskFacts.

Lemma dialTls_tls_witness :
  let tlsCfg := setNextProtos exampleTlsCfg [""; "http/1.1"] in
  dialTls exampleAnyDial exampleUclientHandshake "a.b:443" "a.b:443" tlsCfg
  = (Some (RemoteTLS freshConn "http/1.1"), setNextProtos tlsCfg ["http/1.1"]) /\
  "a.b:443" = "a.b:443" /\
  exampleAnyDial "tcp" "a.b:443" = inl freshConn /\
  exists offered hello,
    offered = (if invalidProtos (NextProtos (config tlsCfg))
               then setNextProtos tlsCfg ["h2"; "http/1.1"] else tlsCfg) /\
    invalidProtos (NextProtos (config offered)) = false /\
    (hello = HelloRandomizedNoALPN <->
     exists first rest, NextProtos (config offered) = first :: rest /\ first <> "h2") /\
    exampleUclientHandshake freshConn offered hello = inl "http/1.1" /\
    setNextProtos tlsCfg ["http/1.1"]
    = setNextProtos tlsCfg
        (if String.eqb "http/1.1" "h2" then ["h2"; "http/1.1"] else ["http/1.1"]).
Proof.
  cbv zeta. split; [reflexivity|].
  exact (dialTls_tls exampleAnyDial exampleUclientHandshake "a.b:443" "a.b:443"
           (setNextProtos exampleTlsCfg [""; "http/1.1"]) _ freshConn "http/1.1" eq_refl).
Defined.

Lemma mitmTask_upstream_panics_witness :
  String.eqb (Host exampleURL) "a.b:443" = false /\
  mitmTask exampleAnyDial exampleUclientHandshake exampleTlsServer exampleNewRoundTripper
    None exampleTlsCfg (Some (inl exampleTlsCfg)) "a.b:443" (Some exampleURL) freshConn
  = MitmPanics "interface conversion: io.ReadWriteCloser is *net.TCPConn, not *tls.UConn".
Proof.
  split; [reflexivity|].
  exact (mitmTask_upstream_panics exampleAnyDial exampleUclientHandshake exampleTlsServer
           exampleNewRoundTripper None exampleTlsCfg exampleTlsCfg "a.b:443" exampleURL
           freshConn freshConn freshConn "http/1.1" eq_refl eq_refl eq_refl).
Defined.

Lemma mitmTask_loop_witness :
  exists rawClientTls remote t tlsCfg,
    mitmTask exampleAnyDial exampleUclientHandshake exampleTlsServer exampleNewRoundTripper
      None exampleTlsCfg None "a.b:443" None freshConn
    = MitmLoop rawClientTls remote (Some t) tlsCfg /\
    (exists c p, remote = RemoteTLS c p) /\
    Renegotiation tlsCfg = RenegotiateFreelyAsClient /\
    InsecureSkipVerify tlsCfg = true /\
    MinVersion tlsCfg = VersionTLS12 /\
    NextProtos (config tlsCfg) = ["http/1.1"; "h2"] /\
    exampleNewRoundTripper "hellorandomizednoalpn_maxtls" tlsCfg None = inl t.
Proof.
  eexists _, _, _, _. split; [vm_compute; reflexivity|].
  eapply (mitmTask_loop exampleAnyDial exampleUclientHandshake exampleTlsServer
            exampleNewRoundTripper None exampleTlsCfg None "a.b:443" None freshConn
            _ _ (Some _)).
  vm_compute; reflexivity.
Defined.

Lemma mitmTask_cannot_dial_witness :
  exists offered rawClientTls result c,
    NextProtos (config offered) = ["http/1.1"] /\
    exampleTlsServer freshConn offered = (rawClientTls, result) /\
    mitmTask exampleDeadDial exampleUclientHandshake exampleTlsServer
      exampleNewRoundTripper None exampleTlsCfg (Some (inl exampleTlsCfg)) "a.b:443"
      None freshConn
    = MitmReturns c /\
    closed c = true /\
    sent c = sent rawClientTls
             +:+ (if connWritable rawClientTls
                  then "HTTP/1.1 500 Server error" +:+ CRLF +:+ CRLF
                         +:+ "Can't dial remote" +:+ CRLF
                  else "").
Proof.
  exact (mitmTask_cannot_dial exampleDeadDial exampleUclientHandshake exampleTlsServer
           exampleNewRoundTripper None exampleTlsCfg exampleTlsCfg "a.b:443" None freshConn
           "no route to a.b:443" eq_refl).
Defined.

Lemma writeResponse_only_appends_witness :
  let w := {| sent := "earlier"; closed := true; quota := None; halfClosable := true |} in
  let out := writeResponse exampleHeaderWrite w exampleResponse in
  extends w out.1.1 /\
  (exists consumed, Body exampleResponse = consumed ++ out.1.2) /\
  (connWritable w = false -> out = (w, Body exampleResponse, ReturnFromTask)).
Proof.
  exact (writeResponse_only_appends exampleHeaderWrite
           {| sent := "earlier"; closed := true; quota := None; halfClosable := true |}
           exampleResponse).
Defined.

(** ** The WebSocket bridge over TLS and the plain-HTTP MITM mode *)

Lemma connWrite_ok (c c' : Conn) (data : string) :
  connWrite c data = (c', None) ->
  sent c' = sent c +:+ data /\ closed c = false /\ closed c' = false.
Proof.
  unfold connWrite, connWritable. destruct (closed c) eqn:Hc; cbn [negb andb]; [done|].
  destruct (match quota c with Some 0%nat => false | _ => true end); [|done].
  by intros [= <-].
Qed.

Lemma connWrite_failed (c c' : Conn) (data err : string) :
  connWrite c data = (c', Some err) -> c' = c.
Proof. unfold connWrite. destruct (connWritable c); [done|]. by intros [= <-]. Qed.

(** What [writeStrings] leaves on the connection: the pieces before
    the first refused write, and all of them when it reports no error. *)
Lemma writeStrings_prefix (w w' : Conn) (pieces : list string) (err : error) :
  writeStrings w pieces = (w', err) ->
  exists written rest,
    pieces = written ++ rest /\
    sent w' = sent w +:+ fold_right append "" written /\
    closed w' = closed w /\
    (err = None -> rest = []) /\
    (err <> None -> rest <> [] /\ connWritable w' = false).
Proof.
  revert w. induction pieces as [|s pieces IH]; intros w; cbn [writeStrings].
  - intros [= <- <-]. exists [], []. cbn [fold_right].
    split; [done|]. split; [symmetry; apply append_nil_r|]. by split.
  - destruct (connWrite w s) as [w1 [e|]] eqn:Hw.
    + intros [= <- <-]. pose proof (connWrite_failed _ _ _ _ Hw) as ->.
      exists [], (s :: pieces). cbn [fold_right].
      split; [done|]. split; [symmetry; apply append_nil_r|]. split; [done|].
      split; [done|]. intros _. split; [done|].
      unfold connWrite in Hw. by destruct (connWritable w).
    + intros Hrest. apply connWrite_ok in Hw as (Hsent & Hc & Hc1).
      destruct (IH w1 Hrest) as (written & rest & -> & Hs & Hcl & Hnone & Hsome).
      exists (s :: written), rest. cbn [fold_right].
      split; [done|]. split; [by rewrite Hs, Hsent, append_assoc|].
      split; [congruence|]. by split.
Qed.

(** X24: in [serveWebsocketTLS] the client hears nothing unless the
    target was dialled, took the upgrade request and answered it.  It
    then gets the writes of that answer in order and nothing else before
    the copiers start: all of them when the handshake succeeds, and
    those before the refused write, which may be some but not all, when
    relaying the answer fails.  The bridge does not close the client
    connection; when the handshake fails it closes the target
    connection. *)
Theorem serveWebsocketTLS_client
    (tlsDial : string -> string -> tlsConfig -> Conn + string)
    (requestWrite : httpRequest -> string)
    (httpReadResponse : Conn -> httpRequest -> httpResponse + string)
    (responseWrites : httpResponse -> list string * error)
    (req : httpRequest) (tlsCfg : tlsConfig) (clientConn : Conn) :
  match serveWebsocketTLS tlsDial requestWrite httpReadResponse responseWrites
          req tlsCfg clientConn with
  | WebsocketNotServed c =>
      c = clientConn /\ exists e, tlsDial "tcp" (URLHost req) tlsCfg = inr e
  | WebsocketFailed c t =>
      closed t = true /\ closed c = closed clientConn /\
      exists t0,
        tlsDial "tcp" (URLHost req) tlsCfg = inl t0 /\
        let t1 := fst (connWrite t0 (requestWrite req)) in
        sent t = sent t1 /\
        ((connWritable t0 = false /\ c = clientConn)
         \/ (connWritable t0 = true /\
             (exists e, httpReadResponse t1 req = inr e) /\ c = clientConn)
         \/ (connWritable t0 = true /\
             exists resp written rest,
               httpReadResponse t1 req = inl resp /\
               fst (responseWrites resp) = written ++ rest /\
               sent c = sent clientConn +:+ fold_right append "" written /\
               (rest = [] -> snd (responseWrites resp) <> None) /\
               (rest <> [] -> connWritable c = false)))
  | WebsocketProxied c t =>
      exists t0 resp,
        tlsDial "tcp" (URLHost req) tlsCfg = inl t0 /\
        sent t = sent t0 +:+ requestWrite req /\ closed t = false /\
        httpReadResponse t req = inl resp /\
        snd (responseWrites resp) = None /\
        sent c = sent clientConn +:+ fold_right append "" (fst (responseWrites resp)) /\
        closed c = closed clientConn
  end.
Proof.
  unfold serveWebsocketTLS, websocketHandshake, responseWriteTo.
  destruct (tlsDial "tcp" (URLHost req) tlsCfg) as [t0|e] eqn:Hdial; [|by eauto].
  destruct (connWrite t0 (requestWrite req)) as [t [e|]] eqn:Hw.
  { cbn [fst connClose closed sent]. split; [done|]. split; [done|].
    exists t0. cbv zeta. rewrite Hw. cbn [fst]. split; [done|]. split; [done|].
    left. split; [|done].
    unfold connWrite in Hw. by destruct (connWritable t0). }
  assert (connWritable t0 = true) as Hwr.
  { unfold connWrite in Hw. by destruct (connWritable t0). }
  pose proof Hw as Hw0.
  apply connWrite_ok in Hw as (Hsent & _ & Hopen).
  destruct (httpReadResponse t req) as [resp|e] eqn:Hresp.
  2:{ cbn [fst connClose closed sent]. split; [done|]. split; [done|].
      exists t0. cbv zeta. rewrite Hw0. cbn [fst]. split; [done|]. split; [done|].
      right. left. split; [done|]. split; [by exists e|done]. }
  destruct (writeStrings clientConn (fst (responseWrites resp))) as [c ew] eqn:Hc.
  destruct (writeStrings_prefix _ _ _ _ Hc)
    as (written & rest & Hpieces & Hcs & Hcc & Hnone & Hsome).
  destruct ew as [e|].
  - destruct Hsome as [Hrest Hcw]; [done|].
    cbn [fst connClose closed sent]. split; [done|]. split; [done|].
    exists t0. cbv zeta. rewrite Hw0. cbn [fst]. split; [done|]. split; [done|].
    right. right. split; [done|]. exists resp, written, rest.
    split; [done|]. split; [done|]. split; [done|]. by split.
  - rewrite (Hnone eq_refl), app_nil_r in Hpieces.
    destruct (snd (responseWrites resp)) as [e|] eqn:Hbody.
    + cbn [fst connClose closed sent]. split; [done|]. split; [done|].
      exists t0. cbv zeta. rewrite Hw0. cbn [fst]. split; [done|]. split; [done|].
      right. right. split; [done|]. exists resp, written, []. rewrite app_nil_r.
      split; [done|]. split; [done|]. split; [done|].
      split; [intros _; by rewrite Hbody|done].
    + exists t0, resp. rewrite Hpieces. by repeat split.
Qed.

Lemma responseWriteTo_extends (responseWrites : httpResponse -> list string * error)
    (resp : httpResponse) (w : Conn) :
  extends w (fst (responseWriteTo responseWrites resp w)).
Proof.
  unfold responseWriteTo.
  pose proof (writeStrings_extends w (fst (responseWrites resp))) as Hw.
  by destruct (writeStrings w _) as [w' [e|]].
Qed.

Section HTTPMitmFacts.
Variable requestWrite : httpRequest -> string.
Variable httpReadResponse : Conn -> httpRequest -> httpResponse + string.
Variable responseWrites : httpResponse -> list string * error.
Variable filterRequest : httpRequest -> httpRequest * option httpResponse.
Variable filterResponse : httpResponse -> httpResponse.

(** X25: requests that the request filter answers itself are not
    passed to the origin: while every request read is answered by the
    filter, the origin connection is left exactly as it was. *)
Theorem httpMitmLoop_filter_answers (requests : list (httpRequest + string))
    (proxyClient targetSiteCon : Conn) :
  Forall (fun r => match r with
                   | inl req => is_Some (snd (filterRequest req))
                   | inr _ => True
                   end) requests ->
  snd (httpMitmLoop requestWrite httpReadResponse responseWrites filterRequest
         filterResponse requests proxyClient targetSiteCon)
  = targetSiteCon.
Proof.
  intros Hall. revert proxyClient.
  induction Hall as [|[req|e] requests Hr Hall IH]; intros proxyClient;
    cbn [httpMitmLoop]; [done| |done].
  destruct (filterRequest req) as [req' [resp|]]; [|by destruct Hr].
  by destruct (responseWriteTo _ _ proxyClient) as [c [e|]].
Qed.

Lemma httpError_grows (w : Conn) (err : string) :
  exists suffix, sent (httpError w err) = sent w +:+ suffix.
Proof. destruct (httpError_sent w err) as [_ ->]. by eexists. Qed.

Lemma httpMitmLoop_connections (requests : list (httpRequest + string))
    (proxyClient targetSiteCon : Conn) :
  let out := httpMitmLoop requestWrite httpReadResponse responseWrites filterRequest
               filterResponse requests proxyClient targetSiteCon in
  extends targetSiteCon out.2 /\ exists suffix, sent out.1 = sent proxyClient +:+ suffix.
Proof.
  cbv zeta. revert proxyClient targetSiteCon.
  induction requests as [|[req|e] requests IH]; intros proxyClient targetSiteCon;
    cbn [httpMitmLoop];
    [split; [apply extends_refl|exists ""; by rewrite append_nil_r]| |
     split; [apply extends_refl|exists ""; by rewrite append_nil_r]].
  destruct (filterRequest req) as [req' resp0].
  assert (forall t resp, extends targetSiteCon t ->
    let out := match responseWriteTo responseWrites (filterResponse resp) proxyClient with
               | (c, Some err) => (httpError c err, t)
               | (c, None) =>
                   httpMitmLoop requestWrite httpReadResponse responseWrites filterRequest
                     filterResponse requests c t
               end in
    extends targetSiteCon out.2 /\ exists suffix, sent out.1 = sent proxyClient +:+ suffix)
    as Hwrite.
  { intros t resp Ht. cbv zeta.
    destruct (responseWriteTo_extends responseWrites (filterResponse resp) proxyClient)
      as (_ & _ & s1 & Hs1).
    destruct (responseWriteTo _ _ proxyClient) as [c [err|]]; cbn [fst snd] in *.
    - split; [done|]. destruct (httpError_grows c err) as [s2 ->].
      exists (s1 +:+ s2). by rewrite Hs1, append_assoc.
    - destruct (IH c t) as [Ht2 [s2 Hs2]]. split; [by eapply extends_trans|].
      exists (s1 +:+ s2). by rewrite Hs2, Hs1, append_assoc. }
  destruct resp0 as [resp|]; [apply Hwrite, extends_refl|].
  pose proof (connWrite_extends targetSiteCon (requestWrite req')) as Ht.
  destruct (connWrite targetSiteCon (requestWrite req')) as [t [err|]]; cbn [fst] in Ht.
  - split; [done|]. apply httpError_grows.
  - destruct (httpReadResponse t req') as [resp|err].
    + by apply Hwrite.
    + split; [done|]. apply httpError_grows.
Qed.

(** X26: the plain-HTTP MITM mode never closes the connection to the
    origin, however its loop ends, and only adds to what the origin and
    the client were sent.  When the origin cannot be dialled the client
    connection is left as it is, open, with the 200 line it already got. *)
Theorem httpMitm_connections (connect : string -> string -> Conn + string)
    (host : string) (requests : list (httpRequest + string)) (proxyClient : Conn) :
  let out := httpMitm requestWrite httpReadResponse responseWrites filterRequest
               filterResponse connect host requests proxyClient in
  match out.2 with
  | None => out.1 = proxyClient /\ exists e, connect "tcp" host = inr e
  | Some t =>
      exists t0, connect "tcp" host = inl t0 /\
        closed t = closed t0 /\
        (exists suffix, sent t = sent t0 +:+ suffix) /\
        exists suffix, sent out.1 = sent proxyClient +:+ suffix
  end.
Proof.
  cbv zeta. unfold httpMitm.
  destruct (connect "tcp" host) as [t0|e]; [|split; [done|by exists e]].
  pose proof (httpMitmLoop_connections requests proxyClient t0) as Hloop. cbv zeta in Hloop.
  destruct (httpMitmLoop _ _ _ _ _ requests proxyClient t0) as [c t]. cbn [fst snd] in *.
  destruct Hloop as [(Hc & _ & Hs) Hclient]. by exists t0.
Qed.

End HTTPMitmFacts.

Lemma httpMitmLoop_filter_answers_witness :
  Forall (fun r => match r with
                   | inl req => is_Some (snd (exampleAnswerAll req))
                   | inr _ => True
                   end)
    [inl (exampleUpgrade "GET"); inl (exampleConnect "a.b:80"); inr "connection reset"] /\
  snd (httpMitmLoop exampleRequestWrite (exampleReadResponse example200)
         exampleResponseWrites exampleAnswerAll (fun resp => resp)
         [inl (exampleUpgrade "GET"); inl (exampleConnect "a.b:80"); inr "connection reset"]
         freshConn freshConn)
  = freshConn.
Proof.
  assert (Forall (fun r => match r with
                           | inl req => is_Some (snd (exampleAnswerAll req))
                           | inr _ => True
                           end)
            [inl (exampleUpgrade "GET"); inl (exampleConnect "a.b:80");
             inr "connection reset"]) as Hall
    by (repeat constructor; by eexists).
  split; [exact Hall|].
  exact (httpMitmLoop_filter_answers exampleRequestWrite
           (exampleReadResponse example200) exampleResponseWrites exampleAnswerAll (fun resp => resp)
           _ freshConn freshConn Hall).
Defined.

(** ** The request loop of the MITM task *)

Lemma writeResponse_healthy (headerWrite : Header -> list string) (w : Conn)
    (resp : httpResponse) :
  healthy w -> (forall e, ReadErr e ∉ Body resp) ->
  writeResponse headerWrite w resp
  = (appendSent w (responseFrame headerWrite resp), [], NextRequest).
Proof.
  intros Hw Hbody. unfold writeResponse.
  rewrite connWrite_healthy by done. cbv beta iota.
  rewrite writeStrings_healthy by by apply appendSent_healthy. cbv beta iota.
  rewrite connWrite_healthy by by do 2 apply appendSent_healthy. cbv beta iota.
  destruct (copyBodyLoop_healthy (S (length (Body resp)))
              (appendSent (appendSent (appendSent w (statusLine resp))
                 (fold_right append "" (headerWrite (chunkedHeader (RespHeader resp))))) CRLF)
              (Body resp))
    as (consumed & rest & -> & Hsplit & Hrest);
    [by do 3 apply appendSent_healthy|lia|].
  specialize (Hrest Hbody). subst rest. rewrite app_nil_r in Hsplit. subst consumed.
  unfold chunkedClose.
  rewrite connWrite_healthy by by do 4 apply appendSent_healthy. cbv beta iota.
  rewrite connWrite_healthy by by do 5 apply appendSent_healthy.
  rewrite !appendSent_appendSent. unfold responseFrame. by rewrite !append_assoc.
Qed.

Section MitmLoopFacts.
Variable TrimSpace : string -> string.
Variable EqualFold : string -> string -> bool.
Variable headerWrite : Header -> list string.
Variable urlParse : string -> string + string.
Variable requestWrite : mitmRequest -> string.
Variable filterRequest : mitmRequest -> mitmRequest * option httpResponse.
Variable filterResponse : httpResponse -> httpResponse.
Variable roundTrip : mitmRequest -> httpResponse + string.
Variable rHost : string.
Variable rRemoteAddr : string.

(** X27: a request whose method contains [RDG] ends the HTTP loop: it
    is written to the origin as it was read, nothing is written to the
    client, no filter and no round trip takes part, and the requests
    behind it are left to the raw copy. *)
Theorem mitmLoop_rdg (req : mitmRequest) (requests : list (mitmRequest + string))
    (rawClientTls remote : Conn) :
  stringsContains (Method (httpReq req)) "RDG" = true ->
  exists remote',
    mitmLoop TrimSpace EqualFold headerWrite urlParse requestWrite filterRequest
      filterResponse roundTrip rHost rRemoteAddr (inl req :: requests) rawClientTls remote
    = LoopSplice rawClientTls remote' /\
    closed remote' = closed remote /\
    sent remote' = sent remote +:+ (if connWritable remote then requestWrite req else "").
Proof.
  intros Hrdg. cbn [mitmLoop]. rewrite Hrdg. unfold connWrite.
  destruct (connWritable remote).
  - by eexists.
  - exists remote. split; [done|]. split; [done|]. symmetry. apply append_nil_r.
Qed.

(** X28: a WebSocket upgrade is passed to the origin without going
    through the filters, carrying the remote address of the CONNECT
    request; the loop then gives way to the raw copy.  If the origin
    does not take the write, the client gets the 500 message and its
    connection is closed. *)
Theorem mitmLoop_websocket (req : mitmRequest) (url : string)
    (requests : list (mitmRequest + string)) (rawClientTls remote : Conn) :
  stringsContains (Method (httpReq req)) "RDG" = false ->
  reqURL req = Some url ->
  isWebSocketRequest TrimSpace EqualFold (httpReq req) = true ->
  let out := mitmLoop TrimSpace EqualFold headerWrite urlParse requestWrite filterRequest
               filterResponse roundTrip rHost rRemoteAddr (inl req :: requests)
               rawClientTls remote in
  let fixed := fst (fixRequest urlParse rHost rRemoteAddr req url) in
  httpReq fixed = httpReq req /\ RemoteAddr fixed = rRemoteAddr /\
  if connWritable remote
  then exists remote',
         out = LoopSplice rawClientTls remote' /\
         sent remote' = sent remote +:+ requestWrite fixed
  else exists c err,
         out = LoopReturns c remote /\ closed c = true /\
         sent c = sent rawClientTls
                  +:+ (if connWritable rawClientTls
                       then "HTTP/1.1 500 Server error" +:+ CRLF +:+ CRLF +:+ err +:+ CRLF
                       else "").
Proof.
  intros Hrdg Hurl Hws. cbv zeta. cbn [mitmLoop]. rewrite Hrdg, Hurl.
  assert (httpReq (fst (fixRequest urlParse rHost rRemoteAddr req url)) = httpReq req /\
          RemoteAddr (fst (fixRequest urlParse rHost rRemoteAddr req url)) = rRemoteAddr)
    as [Hreq Haddr].
  { unfold fixRequest. destruct (stringsHasPrefix url "https://"); [done|].
    by destruct (urlParse _). }
  split; [done|]. split; [done|].
  destruct (fixRequest urlParse rHost rRemoteAddr req url) as [fixed err].
  cbn [fst] in *. rewrite Hreq, Hws. unfold connWrite.
  destruct (connWritable remote).
  - by eexists.
  - eexists _, _. split; [reflexivity|]. apply httpError_sent.
Qed.

(** X29: when the round trip to the origin fails, the client gets the
    500 message with the error, and both the client side and the
    origin connection are closed; nothing is written to the origin
    connection by the loop itself. *)
Theorem mitmLoop_round_trip_fails (req fixed passed : mitmRequest) (url err : string)
    (requests : list (mitmRequest + string)) (rawClientTls remote : Conn) :
  stringsContains (Method (httpReq req)) "RDG" = false ->
  reqURL req = Some url ->
  fixRequest urlParse rHost rRemoteAddr req url = (fixed, None) ->
  isWebSocketRequest TrimSpace EqualFold (httpReq fixed) = false ->
  filterRequest fixed = (passed, None) ->
  roundTrip passed = inr err ->
  exists c t,
    mitmLoop TrimSpace EqualFold headerWrite urlParse requestWrite filterRequest
      filterResponse roundTrip rHost rRemoteAddr (inl req :: requests) rawClientTls remote
    = LoopReturns c t /\
    closed c = true /\ closed t = true /\ sent t = sent remote /\
    sent c = sent rawClientTls
             +:+ (if connWritable rawClientTls
                  then "HTTP/1.1 500 Server error" +:+ CRLF +:+ CRLF +:+ err +:+ CRLF
                  else "").
Proof.
  intros Hrdg Hurl Hfix Hws Hfilter Hrt. cbn [mitmLoop].
  rewrite Hrdg, Hurl, Hfix, Hws, Hfilter, Hrt.
  eexists _, _. split; [reflexivity|]. split; [done|]. split; [done|]. split; [done|].
  apply httpError_sent.
Qed.

(** X30: ordinary requests that the request filter answers itself are
    served one after the other: on a client side that takes the writes
    the client is sent the chunked responses in the order of the
    requests, the origin connection is not used, and the loop returns
    at the end of the stream with both connections as open as before. *)
Theorem mitmLoop_answers_in_order (reqs : list mitmRequest) (resps : list httpResponse)
    (rawClientTls remote : Conn) :
  closed rawClientTls = false ->
  quota rawClientTls = None ->
  Forall2 (answeredByFilter TrimSpace EqualFold urlParse filterRequest filterResponse
             rHost rRemoteAddr) reqs resps ->
  mitmLoop TrimSpace EqualFold headerWrite urlParse requestWrite filterRequest
    filterResponse roundTrip rHost rRemoteAddr (map inl reqs) rawClientTls remote
  = LoopReturns
      (appendSent rawClientTls
         (fold_right append "" (map (responseFrame headerWrite) resps)))
      remote.
Proof.
  intros Hc Hq Hall. assert (healthy rawClientTls) as Hw by done. clear Hc Hq.
  revert rawClientTls Hw.
  induction Hall as [|req resp reqs resps Hans Hall IH]; intros rawClientTls Hw.
  - cbn [map mitmLoop fold_right]. by rewrite appendSent_nil.
  - destruct Hans as (Hrdg & Hws & Hbody & url & synthesized & Hurl & Hfilter & ->).
    cbn [map mitmLoop fold_right]. rewrite Hrdg, Hurl.
    assert (httpReq (fst (fixRequest urlParse rHost rRemoteAddr req url)) = httpReq req)
      as Hreq.
    { unfold fixRequest. destruct (stringsHasPrefix url "https://"); [done|].
      by destruct (urlParse _). }
    destruct (fixRequest urlParse rHost rRemoteAddr req url) as [fixed err].
    cbn [fst] in *. rewrite Hreq, Hws.
    destruct (filterRequest fixed) as [passed resp0]. cbn [snd] in Hfilter. subst resp0.
    rewrite writeResponse_healthy by done.
    rewrite IH by by apply appendSent_healthy.
    by rewrite appendSent_appendSent.
Qed.

End MitmLoopFacts.

Lemma mitmLoop_rdg_witness :
  exists remote',
    mitmLoop asciiTrimSpace asciiEqualFold exampleHeaderWrite exampleUrlNormalise
      exampleMitmRequestWrite exampleMitmPassAll (fun resp => resp)
      exampleFailingRoundTrip "a.b" "10.0.0.7:5555"
      [inl exampleRdg; inl (exampleGet "/x")] freshConn freshConn
    = LoopSplice freshConn remote' /\
    closed remote' = closed freshConn /\
    sent remote' = sent freshConn
                   +:+ (if connWritable freshConn then exampleMitmRequestWrite exampleRdg
                        else "").
Proof.
  exact (mitmLoop_rdg asciiTrimSpace asciiEqualFold exampleHeaderWrite exampleUrlNormalise
           exampleMitmRequestWrite exampleMitmPassAll (fun resp => resp)
           exampleFailingRoundTrip "a.b" "10.0.0.7:5555"
           exampleRdg [inl (exampleGet "/x")] freshConn freshConn eq_refl).
Defined.

Lemma mitmLoop_websocket_witness :
  let out := mitmLoop asciiTrimSpace asciiEqualFold exampleHeaderWrite exampleUrlNormalise
               exampleMitmRequestWrite exampleMitmPassAll (fun resp => resp)
               exampleFailingRoundTrip "a.b" "10.0.0.7:5555"
               [inl exampleWsRequest] freshConn freshConn in
  let fixed := fst (fixRequest exampleUrlNormalise "a.b" "10.0.0.7:5555"
                      exampleWsRequest "/chat") in
  httpReq fixed = httpReq exampleWsRequest /\ RemoteAddr fixed = "10.0.0.7:5555" /\
  exists remote',
    out = LoopSplice freshConn remote' /\
    sent remote' = sent freshConn +:+ exampleMitmRequestWrite fixed.
Proof.
  exact (mitmLoop_websocket asciiTrimSpace asciiEqualFold exampleHeaderWrite
           exampleUrlNormalise exampleMitmRequestWrite exampleMitmPassAll (fun resp => resp)
           exampleFailingRoundTrip "a.b" "10.0.0.7:5555"
           exampleWsRequest "/chat" [] freshConn freshConn eq_refl eq_refl eq_refl).
Defined.

Lemma mitmLoop_round_trip_fails_witness :
  exists c t,
    mitmLoop asciiTrimSpace asciiEqualFold exampleHeaderWrite exampleUrlNormalise
      exampleMitmRequestWrite exampleMitmPassAll (fun resp => resp)
      exampleFailingRoundTrip "a.b" "10.0.0.7:5555"
      [inl (exampleGet "https://a.b/x"); inl (exampleGet "/y")] freshConn freshConn
    = LoopReturns c t /\
    closed c = true /\ closed t = true /\ sent t = sent freshConn /\
    sent c = sent freshConn
             +:+ (if connWritable freshConn
                  then "HTTP/1.1 500 Server error" +:+ CRLF +:+ CRLF +:+ "EOF" +:+ CRLF
                  else "").
Proof.
  exact (mitmLoop_round_trip_fails asciiTrimSpace asciiEqualFold exampleHeaderWrite
           exampleUrlNormalise exampleMitmRequestWrite exampleMitmPassAll (fun resp => resp)
           exampleFailingRoundTrip "a.b" "10.0.0.7:5555"
           (exampleGet "https://a.b/x") _ _ "https://a.b/x" "EOF" [inl (exampleGet "/y")]
           freshConn freshConn eq_refl eq_refl eq_refl eq_refl eq_refl eq_refl).
Defined.

Lemma exampleGet_answered (path : string) :
  answeredByFilter asciiTrimSpace asciiEqualFold exampleUrlNormalise exampleMitmAnswerAll
    (fun resp => resp) "a.b" "10.0.0.7:5555" (exampleGet path) exampleResponse.
Proof.
  split; [reflexivity|]. split; [reflexivity|]. split.
  - intros e [[=]|[]%elem_of_nil]%elem_of_cons.
  - by exists path, exampleResponse.
Qed.

Lemma mitmLoop_answers_in_order_witness :
  mitmLoop asciiTrimSpace asciiEqualFold exampleHeaderWrite exampleUrlNormalise
    exampleMitmRequestWrite exampleMitmAnswerAll (fun resp => resp)
    exampleFailingRoundTrip "a.b" "10.0.0.7:5555"
    (map inl [exampleGet "/x"; exampleGet "/y"]) freshConn freshConn
  = LoopReturns
      (appendSent freshConn
         (fold_right append ""
            (map (responseFrame exampleHeaderWrite) [exampleResponse; exampleResponse])))
      freshConn.
Proof.
  apply (mitmLoop_answers_in_order asciiTrimSpace asciiEqualFold exampleHeaderWrite
           exampleUrlNormalise exampleMitmRequestWrite exampleMitmAnswerAll (fun resp => resp)
           exampleFailingRoundTrip "a.b" "10.0.0.7:5555"
           [exampleGet "/x"; exampleGet "/y"] [exampleResponse; exampleResponse]
           freshConn freshConn eq_refl eq_refl).
  constructor; [apply exampleGet_answered|].
  constructor; [apply exampleGet_answered|]. constructor.
Defined.
